(** * merge_claude_settings: a shallow embedding and its properties

    The program of [src/merge_claude_settings.py] discovers
    [.claude/settings.local.json] files under a root directory, unions
    their [permissions.allow] lists and merges the union into an output
    settings document.

    The embedding follows the Python text function by function.  Python
    values are an inductive type, exceptions are an error result, the file
    system and the printed diagnostics are threaded through a state monad,
    and the two local variables of [update_settings_file] that survive an
    exception live in the state as well. *)

From Stdlib Require Import List String Ascii ZArith Bool Arith Lia.
From Stdlib Require Import Sorted Permutation DecimalString OrderedTypeEx.
Import ListNotations.
Open Scope string_scope.
Open Scope list_scope.

(** ** Python values *)

(** What [json.loads] can return, numbers with a fraction or an exponent
    apart (floating point is outside the model).  A [dict] keeps its
    insertion order, so it is an association list; a text is a [string]
    whose characters are code points below 256. *)
#[warnings="-register-all"]
Inductive value : Type :=
| VNone
| VBool (b : bool)
| VInt (z : Z)
| VStr (s : string)
| VList (l : list value)
| VDict (d : list (string * value)).

(** The exceptions the program can meet.  [SystemExit] is not an
    [Exception] in Python: [except Exception] lets it through. *)
Inductive exn : Type :=
| JSONDecodeError (msg : string)
| TypeError
| AttributeError
| KeyError
| OSError
| SystemExit (code : Z).

Inductive result (A : Type) : Type :=
| Ret (a : A)
| Raise (e : exn).
Arguments Ret {A} a.
Arguments Raise {A} e.

Definition is_Exception (e : exn) : bool :=
  match e with SystemExit _ => false | _ => true end.

Definition is_JSONDecodeError (e : exn) : bool :=
  match e with JSONDecodeError _ => true | _ => false end.

(** ** Association lists: Python dicts and the directory tree *)

Section Assoc.
Context {K V : Type} (eqb : K -> K -> bool).

Fixpoint assoc_get (k : K) (l : list (K * V)) : option V :=
  match l with
  | [] => None
  | (k', v) :: l' => if eqb k k' then Some v else assoc_get k l'
  end.

(** [d[k] = v]: an existing key keeps its position, a new one goes last. *)
Fixpoint assoc_set (k : K) (v : V) (l : list (K * V)) : list (K * V) :=
  match l with
  | [] => [(k, v)]
  | (k', v') :: l' =>
      if eqb k k' then (k', v) :: l' else (k', v') :: assoc_set k v l'
  end.

Definition assoc_mem (k : K) (l : list (K * V)) : bool :=
  match assoc_get k l with Some _ => true | None => false end.
End Assoc.

Definition dict_get := @assoc_get string value String.eqb.
Definition dict_set := @assoc_set string value String.eqb.
Definition dict_mem := @assoc_mem string value String.eqb.

(** ** Hashable values and Python sets *)

(** The elements a [set] can hold among the values above.  Lists and
    dicts are unhashable. *)
Inductive atom : Type :=
| ANone
| ABool (b : bool)
| AInt (z : Z)
| AStr (s : string).

Definition to_atom (v : value) : option atom :=
  match v with
  | VNone => Some ANone
  | VBool b => Some (ABool b)
  | VInt z => Some (AInt z)
  | VStr s => Some (AStr s)
  | VList _ | VDict _ => None
  end.

Definition of_atom (a : atom) : value :=
  match a with
  | ANone => VNone
  | ABool b => VBool b
  | AInt z => VInt z
  | AStr s => VStr s
  end.

(** Python compares and hashes [True] as [1] and [False] as [0]; the key
    of an atom is what [==] and [<] look at. *)
Inductive key : Type :=
| KNone
| KNum (z : Z)
| KStr (s : string).

Definition key_of (a : atom) : key :=
  match a with
  | ANone => KNone
  | ABool b => KNum (Z.b2z b)
  | AInt z => KNum z
  | AStr s => KStr s
  end.

Definition key_eqb (x y : key) : bool :=
  match x, y with
  | KNone, KNone => true
  | KNum a, KNum b => Z.eqb a b
  | KStr s, KStr t => String.eqb s t
  | _, _ => false
  end.

(** [a == b] *)
Definition py_eqb (a b : atom) : bool := key_eqb (key_of a) (key_of b).

(** [a < b]; [None] is the [TypeError] of two operands that do not
    compare ([None] compares with nothing, a number with no string). *)
Definition py_lt (a b : atom) : option bool :=
  match key_of a, key_of b with
  | KNum x, KNum y => Some (Z.ltb x y)
  | KStr s, KStr t => Some (String.ltb s t)
  | _, _ => None
  end.

Definition is_str (a : atom) : bool :=
  match a with AStr _ => true | _ => false end.

(** A set is the list of its elements, no two of them [==]. *)
Definition pyset := list atom.

Definition keys (s : list atom) : list key := map key_of s.

(** [a < b] holds. *)
Definition asc (a b : atom) : Prop := py_lt a b = Some true.

Definition set_mem (x : atom) (s : pyset) : bool := existsb (py_eqb x) s.

(** [s.add(x)]: an element equal to [x] stays as it is. *)
Definition set_add (x : atom) (s : pyset) : pyset :=
  if set_mem x s then s else s ++ [x].

Definition set_of_list (l : list atom) : pyset :=
  fold_left (fun s x => set_add x s) l [].

(** [s.union(t)], and [s.update(t)] for the value of [s] afterwards. *)
Definition set_union (s t : pyset) : pyset :=
  fold_left (fun acc x => set_add x acc) t s.

(** [s - t] *)
Definition set_diff (s t : pyset) : pyset :=
  filter (fun x => negb (set_mem x t)) s.

Fixpoint traverse_atoms (l : list value) : result (list atom) :=
  match l with
  | [] => Ret []
  | v :: l' =>
      match to_atom v with
      | None => Raise TypeError
      | Some a =>
          match traverse_atoms l' with
          | Ret r => Ret (a :: r)
          | Raise e => Raise e
          end
      end
  end.

Fixpoint chars (s : string) : list atom :=
  match s with
  | EmptyString => []
  | String c s' => AStr (String c EmptyString) :: chars s'
  end.

(** [set(v)]: the elements of a list, the characters of a string, the
    keys of a dict; everything else is not iterable. *)
Definition py_set (v : value) : result pyset :=
  match v with
  | VList l =>
      match traverse_atoms l with
      | Ret r => Ret (set_of_list r)
      | Raise e => Raise e
      end
  | VStr s => Ret (set_of_list (chars s))
  | VDict d => Ret (set_of_list (map (fun kv => AStr (fst kv)) d))
  | VNone | VBool _ | VInt _ => Raise TypeError
  end.

(** ** [sorted] *)

(** [list.sort] is a stable comparison sort that only asks [<].  On the
    elements of a set its outcome does not depend on the order in which it
    compares: the ascending arrangement when all elements compare, a
    [TypeError] otherwise.  Stable insertion from the right has the same
    outcome. *)
Fixpoint py_insert (x : atom) (l : list atom) : result (list atom) :=
  match l with
  | [] => Ret [x]
  | y :: l' =>
      match py_lt y x with
      | None => Raise TypeError
      | Some false => Ret (x :: y :: l')
      | Some true =>
          match py_insert x l' with
          | Ret r => Ret (y :: r)
          | Raise e => Raise e
          end
      end
  end.

Fixpoint py_sorted (l : list atom) : result (list atom) :=
  match l with
  | [] => Ret []
  | x :: l' =>
      match py_sorted l' with
      | Ret r => py_insert x r
      | Raise e => Raise e
      end
  end.

(** ** Operators on values *)

Fixpoint prefix (p s : string) : bool :=
  match p, s with
  | EmptyString, _ => true
  | String a p', String b s' => Ascii.eqb a b && prefix p' s'
  | String _ _, EmptyString => false
  end.

Fixpoint substring_in (p s : string) : bool :=
  prefix p s ||
  match s with
  | EmptyString => false
  | String _ s' => substring_in p s'
  end.

Definition is_VStr (k : string) (v : value) : bool :=
  match v with VStr s => String.eqb k s | _ => false end.

(** [k in v] for a string [k]: a key of a dict, an element of a list, a
    substring of a string. *)
Definition py_in (k : string) (v : value) : result bool :=
  match v with
  | VDict d => Ret (dict_mem k d)
  | VList l => Ret (existsb (is_VStr k) l)
  | VStr s => Ret (substring_in k s)
  | VNone | VBool _ | VInt _ => Raise TypeError
  end.

(** [v[k]] for a string [k] *)
Definition py_getitem (v : value) (k : string) : result value :=
  match v with
  | VDict d =>
      match dict_get k d with
      | Some x => Ret x
      | None => Raise KeyError
      end
  | _ => Raise TypeError
  end.

(** [v[k] = x] for a string [k]; the result is [v] afterwards. *)
Definition py_setitem (v : value) (k : string) (x : value) : result value :=
  match v with
  | VDict d => Ret (VDict (dict_set k x d))
  | _ => Raise TypeError
  end.

(** [v.get(k, default)] *)
Definition py_get (v : value) (k : string) (default : value) : result value :=
  match v with
  | VDict d =>
      match dict_get k d with
      | Some x => Ret x
      | None => Ret default
      end
  | _ => Raise AttributeError
  end.

(** ** The trailing-comma repair: [re.sub(r",\s*([}\]])", r"\1", content)] *)

(** [\s] on a text: the white space among the code points below 256. *)
Definition is_space (c : ascii) : bool :=
  let n := nat_of_ascii c in
  (Nat.leb 9 n && Nat.leb n 13) || (Nat.leb 28 n && Nat.leb n 32)
  || Nat.eqb n 133 || Nat.eqb n 160.

Definition is_closer (c : ascii) : bool :=
  Ascii.eqb c "}" || Ascii.eqb c "]".

(** The white space a text starts with, counted, and the character after. *)
Fixpoint span_space (s : string) : nat * option ascii :=
  match s with
  | EmptyString => (0, None)
  | String c s' =>
      if is_space c
      then let (n, next) := span_space s' in (S n, next)
      else (0, Some c)
  end.

(** A match of the pattern at the head of [s]: the number of white-space
    characters between the comma and the closer, and the closer (the
    group).  [\s*] is greedy, and giving white space back never helps,
    since white space is no closer. *)
Definition match_comma (s : string) : option (nat * ascii) :=
  match s with
  | String c rest =>
      if Ascii.eqb c ","
      then match span_space rest with
           | (n, Some b) => if is_closer b then Some (n, b) else None
           | (_, None) => None
           end
      else None
  | EmptyString => None
  end.

(** Left to right: where the pattern matches, the match is replaced by
    its group and the scan goes on after it ([skip] counts the characters
    of the match still to pass); elsewhere the character is copied. *)
Fixpoint re_sub_from (skip : nat) (s : string) : string :=
  match s with
  | EmptyString => EmptyString
  | String c rest =>
      match skip with
      | S k => re_sub_from k rest
      | O =>
          match match_comma s with
          | Some (n, b) => String b (re_sub_from (S n) rest)
          | None => String c (re_sub_from 0 rest)
          end
      end
  end.

Definition re_sub_trailing_commas (content : string) : string :=
  re_sub_from 0 content.

(** ** Paths *)

(** A resolved [pathlib.Path]: the components after the root [/]. *)
Definition Path := list string.

Fixpoint path_eqb (p q : Path) : bool :=
  match p, q with
  | [], [] => true
  | a :: p', b :: q' => String.eqb a b && path_eqb p' q'
  | _, _ => false
  end.

(** [str(p)] *)
Definition path_str (p : Path) : string :=
  match p with
  | [] => "/"
  | _ => fold_right (fun c acc => ("/" ++ c ++ acc)%string) "" p
  end.

(** [p < q] on paths compares the sequences of components, each component
    as a string; it does not compare [str(p)] with [str(q)]. *)
Fixpoint path_compare (p q : Path) : comparison :=
  match p, q with
  | [], [] => Eq
  | [], _ :: _ => Lt
  | _ :: _, [] => Gt
  | a :: p', b :: q' =>
      match String.compare a b with
      | Eq => path_compare p' q'
      | c => c
      end
  end.

Definition path_ltb (p q : Path) : bool :=
  match path_compare p q with Lt => true | _ => false end.

(** [not (q < p)], the order [sort] leaves two neighbours in. *)
Definition path_le (p q : Path) : Prop := path_ltb q p = false.

(** [paths.sort()]: stable, asks only [<]. *)
Fixpoint path_insert (x : Path) (l : list Path) : list Path :=
  match l with
  | [] => [x]
  | y :: l' => if path_ltb y x then y :: path_insert x l' else x :: y :: l'
  end.

Fixpoint path_sort (l : list Path) : list Path :=
  match l with
  | [] => []
  | x :: l' => path_insert x (path_sort l')
  end.

(** [p.relative_to(root)]; [None] is its [ValueError]. *)
Fixpoint relative_to (root p : Path) : option Path :=
  match root, p with
  | [], _ => Some p
  | a :: root', b :: p' => if String.eqb a b then relative_to root' p' else None
  | _ :: _, [] => None
  end.

Fixpoint ends_with (tail p : Path) : bool :=
  path_eqb tail p ||
  match p with
  | [] => false
  | _ :: p' => ends_with tail p'
  end.

(** ** The file system *)

Inductive node : Type :=
| Dir
| File (content : string)
| Unreadable.   (** exists, but opening or decoding it for reading raises *)

(** [tree] lists what exists, in the order a directory scan meets it;
    [locked] lists the paths that [open(p, "w")] refuses (missing parent
    directory, permissions, read-only medium). *)
Record world : Type := mkWorld {
  tree : list (Path * node);
  locked : list Path
}.

Definition stat (w : world) (p : Path) : option node :=
  assoc_get path_eqb p (tree w).

Definition can_write (w : world) (p : Path) : bool :=
  negb (existsb (path_eqb p) (locked w)) &&
  match stat w p with Some Dir => false | _ => true end.

Definition put_file (w : world) (p : Path) (content : string) : world :=
  mkWorld (assoc_set path_eqb p (File content) (tree w)) (locked w).

(** [root.glob("**/" + "/".join(tail))]: the existing paths beneath
    [root] whose last components are [tail]. *)
Definition glob_rec (w : world) (root tail : Path) : list Path :=
  filter (fun p => match relative_to root p with
                   | Some rel => ends_with tail rel
                   | None => false
                   end)
         (map fst (tree w)).

(** ** What is printed *)

Inductive shown : Type :=
| Relative (p : Path)
| Absolute (p : Path).

(** One constructor for each [print] of the source. *)
Inductive event : Type :=
| EParseError (file_path : Path) (e : exn)   (* stderr, extract: Error parsing JSON in .. *)
| EReadError (file_path : Path) (e : exn)    (* stderr, extract: Error reading .. *)
| EFound (n : nat) (display_path : shown)    (* Found n permissions in: .. *)
| EFixed (output_path : Path)                (* Fixed JSON formatting issues (trailing commas) in: .. *)
| EReading (output_path : Path)              (* Reading existing settings from: .. *)
| EExisting (n : nat)                        (* Found n existing allowed permissions *)
| EWarn (e : exn)                            (* stderr: Warning: Could not parse existing file: .. *)
| EWillPreserve                              (* stderr: Will preserve other settings but reset permissions... *)
| EAdded (n : nat)                           (* Added n new permissions *)
| ENoNew                                     (* No new permissions to add (all already exist) *)
| EUpdated (output_path : Path)              (* Successfully updated settings in: .. *)
| ETotal (n : nat)                           (* Total unique permissions: n *)
| EWriteError (e : exn)                      (* stderr: Error writing output file: .. *)
| ENoDirectory (root_dir : Path)             (* stderr: Error: Directory .. does not exist *)
| ENotADirectory (root_dir : Path)           (* stderr: Error: .. is not a directory *)
| ESearching (root_dir : Path)               (* Searching for .claude/settings.local.json files in: .. *)
| ERule                                      (* a line of 60 dashes *)
| ENoFiles                                   (* No .claude/settings.local.json files found *)
| EFoundFiles (n : nat)                      (* Found n settings file(s): *)
| ENoPermissions                             (* No permissions found to merge *)
| ETotalFound (n : nat)                      (* Total unique permissions found: n *)
| EListHeader                                (* Merged permissions list: *)
| EItem (perm : atom)                        (* a bullet and the permission *)
| ESummary                                   (* Summary: *)
| EFilesProcessed (n : nat)                  (* Files processed: n *)
| EUnique (n : nat)                          (* Unique permissions: n *)
| EOutputFile (output_path : Path).          (* Output file: .. *)

Definition to_stderr (e : event) : bool :=
  match e with
  | EParseError _ _ | EReadError _ _ | EWarn _ | EWillPreserve
  | EWriteError _ | ENoDirectory _ | ENotADirectory _ => true
  | _ => false
  end.

(** The [Found n permissions in: ..] lines among what was printed: the
    count and the path each of them shows. *)
Definition found_lines (evs : list event) : list (nat * shown) :=
  flat_map (fun e => match e with
                     | EFound n display_path => [(n, display_path)]
                     | _ => []
                     end) evs.

(** ** The monad of the program *)

(** The file system, what was printed so far, and the two variables of
    [update_settings_file] that are assigned inside a [try] and read after
    it. *)
Record state : Type := mkState {
  fs : world;
  out : list event;
  existing_settings : value;
  existing_allow : pyset
}.

Definition M (A : Type) : Type := state -> result A * state.

Definition ret {A} (a : A) : M A := fun s => (Ret a, s).

Definition bind {A B} (m : M A) (k : A -> M B) : M B :=
  fun s =>
    match m s with
    | (Ret a, s') => k a s'
    | (Raise e, s') => (Raise e, s')
    end.

Definition raise {A} (e : exn) : M A := fun s => (Raise e, s).

Definition lift {A} (r : result A) : M A := fun s => (r, s).

(** [try: body / except: handler]; the handler sees the state the body
    left. *)
Definition try_except {A} (body : M A) (handler : exn -> M A) : M A :=
  fun s =>
    match body s with
    | (Ret a, s') => (Ret a, s')
    | (Raise e, s') => handler e s'
    end.

Declare Scope py_scope.
Delimit Scope py_scope with py.
Notation "x <- m ;; k" := (bind m (fun x => k))
  (at level 61, m at next level, right associativity) : py_scope.
Notation "m ;; k" := (bind m (fun _ => k))
  (at level 61, right associativity) : py_scope.
Open Scope py_scope.

Definition when (b : bool) (m : M unit) : M unit :=
  if b then m else ret tt.

(** The state after some more lines were printed. *)
Definition emit (evs : list event) (s : state) : state :=
  mkState (fs s) (out s ++ evs) (existing_settings s) (existing_allow s).

Definition print (e : event) : M unit := fun s => (Ret tt, emit [e] s).

Definition sys_exit {A} (code : Z) : M A := raise (SystemExit code).

Definition get {A} (f : state -> A) : M A := fun s => (Ret (f s), s).

Definition assign_existing_settings (v : value) : M unit :=
  fun s => (Ret tt, mkState (fs s) (out s) v (existing_allow s)).

Definition assign_existing_allow (a : pyset) : M unit :=
  fun s => (Ret tt, mkState (fs s) (out s) (existing_settings s) a).

(** [p.exists()], [p.is_dir()] *)
Definition path_exists (p : Path) : M bool :=
  fun s => (Ret (match stat (fs s) p with Some _ => true | None => false end), s).

Definition path_is_dir (p : Path) : M bool :=
  fun s => (Ret (match stat (fs s) p with Some Dir => true | _ => false end), s).

(** [with open(p, "r", encoding="utf-8") as f: f.read()] *)
Definition read_text (p : Path) : M string :=
  fun s =>
    match stat (fs s) p with
    | Some (File content) => (Ret content, s)
    | _ => (Raise OSError, s)
    end.

(** [with open(p, "w", encoding="utf-8") as f: f.write(content)], as one
    step: [open] refuses the path or the whole text is written.  What
    the file holds when writing fails after [open] has emptied it is
    not in the model. *)
Definition write_text (p : Path) (content : string) : M unit :=
  fun s =>
    if can_write (fs s) p
    then (Ret tt, mkState (put_file (fs s) p content) (out s)
                          (existing_settings s) (existing_allow s))
    else (Raise OSError, s).

Definition exit_status {A} (r : result A) : Z :=
  match r with
  | Ret _ => 0
  | Raise (SystemExit code) => code
  | Raise _ => 1
  end.

(** ** The program *)

(** What [json.loads] makes of a text. *)
Inductive parse : Type :=
| Parsed (v : value)
| Malformed (msg : string).

(** ** A reference reader and writer of JSON

    The properties of the program are proved for any [json.loads] and
    [json.dumps].  To run the program on concrete files, this module
    gives an executable instance for the JSON without floating-point
    numbers and with code points below 256 only: texts outside that
    fragment are [Malformed]. *)
Module Reference.

Definition dquote : ascii := "034"%char.

(** Concrete texts are written with an apostrophe where JSON has its
    double quote. *)
Fixpoint text (s : string) : string :=
  match s with
  | EmptyString => EmptyString
  | String c s' => String (if Ascii.eqb c "'" then dquote else c) (text s')
  end.

Definition is_ws (c : ascii) : bool :=
  Ascii.eqb c " " || Ascii.eqb c "009" || Ascii.eqb c "010" || Ascii.eqb c "013".

Fixpoint skip_ws (s : string) : string :=
  match s with
  | String c s' => if is_ws c then skip_ws s' else s
  | EmptyString => s
  end.

Definition digit (c : ascii) : option Z :=
  let n := nat_of_ascii c in
  if Nat.leb 48 n && Nat.leb n 57 then Some (Z.of_nat (n - 48)) else None.

Fixpoint read_digits (acc : Z) (s : string) : Z * string :=
  match s with
  | String c s' =>
      match digit c with
      | Some d => read_digits (10 * acc + d) s'
      | None => (acc, s)
      end
  | EmptyString => (acc, s)
  end.

(** An integer literal: no leading zero, no fraction, no exponent. *)
Definition read_int (s : string) : option (Z * string) :=
  let (neg, body) := match s with
                     | String "-" s' => (true, s')
                     | _ => (false, s)
                     end in
  match body with
  | String c rest =>
      match digit c with
      | None => None
      | Some d =>
          let (n, rest') := read_digits d rest in
          let leading_zero := Z.eqb d 0 && negb (String.eqb rest rest') in
          let float := match rest' with
                       | String c' _ =>
                           Ascii.eqb c' "." || Ascii.eqb c' "e" || Ascii.eqb c' "E"
                       | EmptyString => false
                       end in
          if leading_zero || float then None
          else Some (if neg then (- n)%Z else n, rest')
      end
  | EmptyString => None
  end.

Definition unescape (c : ascii) : option ascii :=
  if Ascii.eqb c dquote then Some dquote
  else if Ascii.eqb c "\" then Some "\"%char
  else if Ascii.eqb c "/" then Some "/"%char
  else if Ascii.eqb c "b" then Some "008"%char
  else if Ascii.eqb c "f" then Some "012"%char
  else if Ascii.eqb c "n" then Some "010"%char
  else if Ascii.eqb c "r" then Some "013"%char
  else if Ascii.eqb c "t" then Some "009"%char
  else None.

Definition hex_value (c : ascii) : option nat :=
  let n := nat_of_ascii c in
  if Nat.leb 48 n && Nat.leb n 57 then Some (n - 48)
  else if Nat.leb 97 n && Nat.leb n 102 then Some (n - 87)
  else if Nat.leb 65 n && Nat.leb n 70 then Some (n - 55)
  else None.

(** The character of a [\uXXXX] escape, when its code point is below 256. *)
Definition unicode_escape (a b c d : ascii) : option ascii :=
  match hex_value a, hex_value b, hex_value c, hex_value d with
  | Some 0, Some 0, Some h, Some l => Some (ascii_of_nat (16 * h + l))
  | _, _, _, _ => None
  end.

(** The text after an opening quote, up to the closing one. *)
Fixpoint read_string (s : string) : option (string * string) :=
  match s with
  | EmptyString => None
  | String c s' =>
      if Ascii.eqb c dquote then Some (EmptyString, s')
      else if Ascii.eqb c "\" then
        match s' with
        | String "u" (String a (String b (String h (String l s'')))) =>
            match unicode_escape a b h l, read_string s'' with
            | Some u, Some (body, rest) => Some (String u body, rest)
            | _, _ => None
            end
        | String e s'' =>
            match unescape e, read_string s'' with
            | Some u, Some (body, rest) => Some (String u body, rest)
            | _, _ => None
            end
        | EmptyString => None
        end
      else if Nat.ltb (nat_of_ascii c) 32 then None
      else match read_string s' with
           | Some (body, rest) => Some (String c body, rest)
           | None => None
           end
  end.

Definition expect (word : string) (s : string) : option string :=
  if prefix word s
  then Some (String.substring (String.length word)
                              (String.length s - String.length word) s)
  else None.

Fixpoint read_value (fuel : nat) (s : string) : option (value * string) :=
  match fuel with
  | O => None
  | S fuel' =>
      match skip_ws s with
      | EmptyString => None
      | String c rest =>
          if Ascii.eqb c dquote then
            match read_string rest with
            | Some (str, rest') => Some (VStr str, rest')
            | None => None
            end
          else if Ascii.eqb c "[" then
            match skip_ws rest with
            | String "]" rest' => Some (VList [], rest')
            | _ =>
                match read_elements fuel' rest with
                | Some (l, rest') => Some (VList l, rest')
                | None => None
                end
            end
          else if Ascii.eqb c "{" then
            match skip_ws rest with
            | String "}" rest' => Some (VDict [], rest')
            | _ =>
                match read_members fuel' rest with
                | Some (kvs, rest') =>
                    Some (VDict (fold_left (fun d kv => dict_set (fst kv) (snd kv) d)
                                           kvs []), rest')
                | None => None
                end
            end
          else if Ascii.eqb c "n" then
            option_map (pair VNone) (expect "ull" rest)
          else if Ascii.eqb c "t" then
            option_map (pair (VBool true)) (expect "rue" rest)
          else if Ascii.eqb c "f" then
            option_map (pair (VBool false)) (expect "alse" rest)
          else
            match read_int (String c rest) with
            | Some (z, rest') => Some (VInt z, rest')
            | None => None
            end
      end
  end

with read_elements (fuel : nat) (s : string) : option (list value * string) :=
  match fuel with
  | O => None
  | S fuel' =>
      match read_value fuel' s with
      | None => None
      | Some (v, rest) =>
          match skip_ws rest with
          | String "," rest' =>
              match read_elements fuel' rest' with
              | Some (l, rest'') => Some (v :: l, rest'')
              | None => None
              end
          | String "]" rest' => Some ([v], rest')
          | _ => None
          end
      end
  end

with read_members (fuel : nat) (s : string)
     : option (list (string * value) * string) :=
  match fuel with
  | O => None
  | S fuel' =>
      match skip_ws s with
      | String "034" after_quote =>
          match read_string after_quote with
          | None => None
          | Some (k, rest) =>
              match skip_ws rest with
              | String ":" rest' =>
                  match read_value fuel' rest' with
                  | None => None
                  | Some (v, rest'') =>
                      match skip_ws rest'' with
                      | String "," more =>
                          match read_members fuel' more with
                          | Some (kvs, rest3) => Some ((k, v) :: kvs, rest3)
                          | None => None
                          end
                      | String "}" rest3 => Some ([(k, v)], rest3)
                      | _ => None
                      end
                  end
              | _ => None
              end
          end
      | _ => None
      end
  end.

Definition loads (text : string) : parse :=
  match read_value (2 * String.length text + 2) text with
  | Some (v, rest) =>
      match skip_ws rest with
      | EmptyString => Parsed v
      | String _ _ => Malformed "Extra data"
      end
  | None => Malformed "Expecting value"
  end.

Definition hex_digit (n : nat) : ascii :=
  ascii_of_nat (if Nat.ltb n 10 then 48 + n else 87 + n).

Definition escape (ensure_ascii : bool) (c : ascii) : string :=
  let n := nat_of_ascii c in
  if Ascii.eqb c dquote then String "\" (String dquote "")
  else if Ascii.eqb c "\" then "\\"
  else if Nat.eqb n 10 then "\n"
  else if Nat.eqb n 13 then "\r"
  else if Nat.eqb n 9 then "\t"
  else if Nat.eqb n 8 then "\b"
  else if Nat.eqb n 12 then "\f"
  else if Nat.ltb n 32 || (ensure_ascii && Nat.ltb 126 n)
  then ("\u00" ++ String (hex_digit (n / 16)) (String (hex_digit (n mod 16)) ""))%string
  else String c "".

Fixpoint quote_body (ensure_ascii : bool) (s : string) : string :=
  match s with
  | EmptyString => EmptyString
  | String c s' => (escape ensure_ascii c ++ quote_body ensure_ascii s')%string
  end.

Definition quote (ensure_ascii : bool) (s : string) : string :=
  String dquote (quote_body ensure_ascii s ++ String dquote "")%string.

Fixpoint spaces (n : nat) : string :=
  match n with
  | O => EmptyString
  | S n' => String " " (spaces n')
  end.

Definition newline (level : nat) : string := String "010" (spaces level).

(** [level] is the indentation of the line the value starts on. *)
Fixpoint dumps_at (indent : nat) (ensure_ascii : bool) (level : nat) (v : value)
  : string :=
  match v with
  | VNone => "null"
  | VBool true => "true"
  | VBool false => "false"
  | VInt z => NilZero.string_of_int (Z.to_int z)
  | VStr s => quote ensure_ascii s
  | VList [] => "[]"
  | VList (x :: xs) =>
      ("[" ++ newline (level + indent)
           ++ dumps_at indent ensure_ascii (level + indent) x
           ++ (fix items (l : list value) : string :=
                 match l with
                 | [] => EmptyString
                 | y :: l' =>
                     "," ++ newline (level + indent)
                         ++ dumps_at indent ensure_ascii (level + indent) y
                         ++ items l'
                 end) xs
           ++ newline level ++ "]")%string
  | VDict [] => "{}"
  | VDict ((k, x) :: kvs) =>
      ("{" ++ newline (level + indent)
           ++ quote ensure_ascii k ++ ": "
           ++ dumps_at indent ensure_ascii (level + indent) x
           ++ (fix members (l : list (string * value)) : string :=
                 match l with
                 | [] => EmptyString
                 | (k', y) :: l' =>
                     "," ++ newline (level + indent)
                         ++ quote ensure_ascii k' ++ ": "
                         ++ dumps_at indent ensure_ascii (level + indent) y
                         ++ members l'
                 end) kvs
           ++ newline level ++ "}")%string
  end.

Definition dumps (indent : nat) (ensure_ascii : bool) (v : value) : string :=
  dumps_at indent ensure_ascii 0 v.

End Reference.

(** ** Concrete files

    A small tree to run the program on: three projects under [/r], one of
    them with a settings file that is cut short, and an output file with
    trailing commas. *)
Module Examples.

Definition settings (project : string) : Path :=
["r"; project; ".claude"; "settings.local.json"].

Definition root : Path := ["r"].
Definition output : Path := ["out"; "settings.json"].

Definition inputs : list (Path * node) :=
[ (["r"], Dir);
  (["r"; "proj-old"], Dir);
  (["r"; "proj-old"; ".claude"], Dir);
  (settings "proj-old",
   File (Reference.text "{'permissions': {'allow': ['Write(*.md)', 'Read(*.py)']}}"));
  (["r"; "proj"], Dir);
  (["r"; "proj"; ".claude"], Dir);
  (settings "proj",
   File (Reference.text "{'permissions': {'allow': ['Read(*.py)']}}"));
  (["r"; "bad"], Dir);
  (["r"; "bad"; ".claude"], Dir);
  (settings "bad", File (Reference.text "{'permissions': "));
  (["out"], Dir) ].

(** The output file has a comma before each closing bracket. *)
Definition with_commas : string :=
Reference.text
  "{'model': 'opus', 'permissions': {'allow': ['Bash(ls)',], 'deny': ['Bash(rm)']},}".

(** The output file lacks its last brace: no repair makes it parse. *)
Definition cut_short : string :=
Reference.text
  "{'model': 'opus', 'permissions': {'allow': ['Bash(ls)'], 'deny': ['Bash(rm)']}".

Definition world_with (content : string) : world :=
mkWorld (inputs ++ [(output, File content)]) [].

Definition start (w : world) : state := mkState w [] VNone [].

(** A root with nothing beneath it. *)
Definition empty_root : world := mkWorld [(["r"], Dir); (["out"], Dir)] [].

Definition new_permissions : pyset := [AStr "Write(*.md)"; AStr "Read(*.py)"].

(** The tree before there is an output file, and with an output path
    that [open] refuses to write. *)
Definition without_output : world := mkWorld inputs [].

Definition write_protected : world := mkWorld inputs [output].

(** Input files that hold JSON of another shape: [allow] as one string,
    a list inside the [allow] list, a list at the top. *)
Definition odd_inputs : world :=
mkWorld
  [ (["r"], Dir);
    (settings "string",
     File (Reference.text "{'permissions': {'allow': 'ab'}}"));
    (settings "nested",
     File (Reference.text "{'permissions': {'allow': ['Read(*.py)', ['x']]}}"));
    (settings "list", File "[]") ]
  [].

(** An output file whose allow list holds a number. *)
Definition with_number : string :=
Reference.text "{'permissions': {'allow': [1]}}".

(** An output file in order. *)
Definition in_order : string :=
Reference.text "{'model': 'opus', 'permissions': {'allow': ['Bash(ls)']}}".

End Examples.

Section Program.

(** The two functions of Python's [json] module the program calls:
    [json.loads(text)] and [json.dumps(v, indent, ensure_ascii)]. *)
Variable json_loads : string -> parse.
Variable json_dumps : nat -> bool -> value -> string.

Definition loads (text : string) : M value :=
  match json_loads text with
  | Parsed v => ret v
  | Malformed msg => raise (JSONDecodeError msg)
  end.

(** [find_settings_files], lines 18-36 *)
Definition find_settings_files (root_dir : Path) : M (list Path) :=
  settings_files <- get (fun s =>
      glob_rec (fs s) root_dir [".claude"; "settings.local.json"]);;
  ret (path_sort settings_files).

(** [extract_allow_permissions], lines 39-63 *)
Definition extract_allow_permissions (file_path : Path) : M pyset :=
  try_except
    (content <- read_text file_path;;
     data <- loads content;;
     permissions <- lift (py_get data "permissions" (VDict []));;
     allow_list <- lift (py_get permissions "allow" (VList []));;
     lift (py_set allow_list))
    (fun e =>
       if is_JSONDecodeError e
       then (print (EParseError file_path e);; ret [])
       else if is_Exception e
       then (print (EReadError file_path e);; ret [])
       else raise e).

Definition display (root_dir file_path : Path) : shown :=
  match relative_to root_dir file_path with
  | Some rel => Relative rel
  | None => Absolute file_path
  end.

(** The loop of [merge_permissions], lines 79-90 *)
Fixpoint merge_loop (root_dir : Path) (settings_files : list Path)
         (all_permissions : pyset) : M pyset :=
  match settings_files with
  | [] => ret all_permissions
  | file_path :: rest =>
      permissions <- extract_allow_permissions file_path;;
      match permissions with
      | [] => merge_loop root_dir rest all_permissions
      | _ :: _ =>
          print (EFound (List.length permissions) (display root_dir file_path));;
          merge_loop root_dir rest (set_union all_permissions permissions)
      end
  end.

(** [merge_permissions], lines 66-92 *)
Definition merge_permissions (settings_files : list Path) (root_dir : Path)
  : M pyset :=
  merge_loop root_dir settings_files [].

(** [existing_settings[k1][k2] = x]: the inner dict is the object the
    outer one holds, so the outer one sees the assignment. *)
Definition assign_nested (k1 k2 : string) (x : value) : M unit :=
  es <- get existing_settings;;
  inner <- lift (py_getitem es k1);;
  inner' <- lift (py_setitem inner k2 x);;
  es' <- lift (py_setitem es k1 inner');;
  assign_existing_settings es'.

(** [if k2 not in existing_settings[k1]: existing_settings[k1][k2] = []] *)
Definition default_nested (k1 k2 : string) : M unit :=
  es <- get existing_settings;;
  inner <- lift (py_getitem es k1);;
  present <- lift (py_in k2 inner);;
  when (negb present) (assign_nested k1 k2 (VList [])).

(** Lines 128-138, inside the [try] of [read_existing]: the allow list
    of the document just parsed. *)
Definition read_existing_allow (output_path : Path) : M unit :=
  print (EReading output_path);;
  es <- get existing_settings;;
  has_permissions <- lift (py_in "permissions" es);;
  has_allow <- (if has_permissions
                then (p <- lift (py_getitem es "permissions");;
                      lift (py_in "allow" p))
                else ret false);;
  when has_allow
    (p <- lift (py_getitem es "permissions");;
     a <- lift (py_getitem p "allow");;
     found <- lift (py_set a);;
     assign_existing_allow found;;
     print (EExisting (List.length found))).

(** Lines 109-147: the existing output document is read. *)
Definition read_existing (output_path : Path) : M unit :=
  ex <- path_exists output_path;;
  when ex
    (try_except
       (content <- read_text output_path;;
        try_except
          (v <- loads content;;
           assign_existing_settings v)
          (fun e =>
             if is_JSONDecodeError e
             then (let fixed_content := re_sub_trailing_commas content in
                   v <- loads fixed_content;;
                   assign_existing_settings v;;
                   print (EFixed output_path))
             else raise e);;
        read_existing_allow output_path)
       (fun e =>
          if is_Exception e
          then (print (EWarn e);; print EWillPreserve)
          else raise e)).

(** Lines 149-178: the merge, the write and the report. *)
Definition merge_and_write (output_path : Path) (permissions : pyset)
  : M unit :=
  es <- get existing_settings;;
  has_permissions <- lift (py_in "permissions" es);;
  when (negb has_permissions)
    (es' <- lift (py_setitem es "permissions" (VDict []));;
     assign_existing_settings es');;
  ea <- get existing_allow;;
  let merged_allow := set_union ea permissions in
  sorted_allow <- lift (py_sorted merged_allow);;
  assign_nested "permissions" "allow" (VList (map of_atom sorted_allow));;
  default_nested "permissions" "deny";;
  default_nested "permissions" "ask";;
  es <- get existing_settings;;
  write_text output_path (json_dumps 2 false es ++ String "010" "")%string;;
  let new_permissions := set_diff permissions ea in
  match new_permissions with
  | _ :: _ => print (EAdded (List.length new_permissions))
  | [] => print ENoNew
  end;;
  print (EUpdated output_path);;
  print (ETotal (List.length merged_allow)).

(** [update_settings_file], lines 95-182 *)
Definition update_settings_file (output_path : Path) (permissions : pyset)
  : M unit :=
  try_except
    (assign_existing_settings (VDict []);;
     assign_existing_allow [];;
     read_existing output_path;;
     merge_and_write output_path permissions)
    (fun e =>
       if is_Exception e
       then (print (EWriteError e);; sys_exit 1)
       else raise e).

Fixpoint print_items (l : list atom) : M unit :=
  match l with
  | [] => ret tt
  | perm :: l' => print (EItem perm);; print_items l'
  end.

(** [main], lines 185-257, after [argparse] and [Path.resolve]: the
    arguments are the resolved root and output paths and the verbose
    flag. *)
Definition main (root_dir output_path : Path) (verbose : bool) : M unit :=
  ex <- path_exists root_dir;;
  when (negb ex) (print (ENoDirectory root_dir);; sys_exit 1);;
  is_dir <- path_is_dir root_dir;;
  when (negb is_dir) (print (ENotADirectory root_dir);; sys_exit 1);;
  print (ESearching root_dir);;
  print ERule;;
  settings_files <- find_settings_files root_dir;;
  match settings_files with
  | [] => print ENoFiles;; sys_exit 0
  | _ :: _ => ret tt
  end;;
  print (EFoundFiles (List.length settings_files));;
  merged_permissions <- merge_permissions settings_files root_dir;;
  match merged_permissions with
  | [] => print ENoPermissions;; sys_exit 0
  | _ :: _ => ret tt
  end;;
  print (ETotalFound (List.length merged_permissions));;
  when verbose
    (print EListHeader;;
     l <- lift (py_sorted merged_permissions);;
     print_items l);;
  update_settings_file output_path merged_permissions;;
  print ESummary;;
  print (EFilesProcessed (List.length settings_files));;
  print (EUnique (List.length merged_permissions));;
  print (EOutputFile output_path).

(** *** What a run computes, as functions of the file system it starts in *)

(** The set [extract_allow_permissions] returns for a file. *)
Definition allow_in (w : world) (file_path : Path) : pyset :=
  match stat w file_path with
  | Some (File content) =>
      match json_loads content with
      | Parsed data =>
          match py_get data "permissions" (VDict []) with
          | Ret permissions =>
              match py_get permissions "allow" (VList []) with
              | Ret allow_list =>
                  match py_set allow_list with
                  | Ret found => found
                  | Raise _ => []
                  end
              | Raise _ => []
              end
          | Raise _ => []
          end
      | Malformed _ => []
      end
  | _ => []
  end.

(** The list [find_settings_files] returns. *)
Definition discovered (w : world) (root_dir : Path) : list Path :=
  path_sort (glob_rec w root_dir [".claude"; "settings.local.json"]).

(** The set [merge_permissions] returns for a list of files. *)
Definition merged_of (w : world) (settings_files : list Path) (acc : pyset)
  : pyset :=
  fold_left (fun all f => set_union all (allow_in w f)) settings_files acc.

(** The document [read_existing] gets out of the output file, directly
    or after the repair; [None] when there is no file, when it cannot
    be read and when neither text parses. *)
Definition existing_document (w : world) (output_path : Path) : option value :=
  match stat w output_path with
  | Some (File content) =>
      match json_loads content with
      | Parsed v => Some v
      | Malformed _ =>
          match json_loads (re_sub_trailing_commas content) with
          | Parsed v => Some v
          | Malformed _ => None
          end
      end
  | _ => None
  end.

(** The [permissions.allow] entries of a parsed document, as
    [read_existing] finds them; empty whenever it finds none. *)
Definition allow_of (v : value) : pyset :=
  match v with
  | VDict d =>
      match dict_get "permissions" d with
      | Some (VDict p) =>
          match dict_get "allow" p with
          | Some a =>
              match py_set a with
              | Ret found => found
              | Raise _ => []
              end
          | None => []
          end
      | _ => []
      end
  | _ => []
  end.

Definition settings_before (w : world) (output_path : Path) : value :=
  match existing_document w output_path with
  | Some v => v
  | None => VDict []
  end.

Definition allow_before (w : world) (output_path : Path) : pyset :=
  match existing_document w output_path with
  | Some v => allow_of v
  | None => []
  end.

Definition ensure_list (k : string) (p : list (string * value))
  : list (string * value) :=
  if dict_mem k p then p else dict_set k (VList []) p.

(** Lines 149-163 as a function of the two variables and the new
    permissions: the document that will be written. *)
Definition merged_document (es : value) (ea permissions : pyset)
  : result value :=
  match es with
  | VDict d =>
      match py_sorted (set_union ea permissions) with
      | Raise e => Raise e
      | Ret sorted_allow =>
          let p := match dict_get "permissions" d with
                   | Some x => x
                   | None => VDict []
                   end in
          match p with
          | VDict pd =>
              Ret (VDict (dict_set "permissions"
                     (VDict (ensure_list "ask" (ensure_list "deny"
                        (dict_set "allow" (VList (map of_atom sorted_allow)) pd))))
                     d))
          | _ => Raise TypeError
          end
      end
  | _ => Raise TypeError
  end.

Definition report (ea permissions : pyset) (output_path : Path) : list event :=
  [match set_diff permissions ea with
   | _ :: _ => EAdded (List.length (set_diff permissions ea))
   | [] => ENoNew
   end;
   EUpdated output_path;
   ETotal (List.length (set_union ea permissions))].

(** The last lines [main] prints. *)
Definition summary (n_files n_permissions : nat) (output_path : Path)
  : list event :=
  [ESummary; EFilesProcessed n_files; EUnique n_permissions;
   EOutputFile output_path].

Definition file_text (doc : value) : string :=
  (json_dumps 2 false doc ++ String "010" "")%string.

(** ** Properties *)

(** *** Keys and sets *)

Lemma key_eqb_eq (x y : key) : key_eqb x y = true <-> x = y.
Proof.
  destruct x, y; simpl; split; intro H; try discriminate; try reflexivity.
  - apply Z.eqb_eq in H. now subst.
  - inversion H. apply Z.eqb_refl.
  - apply String.eqb_eq in H. now subst.
  - inversion H. apply String.eqb_refl.
Qed.

Lemma py_eqb_eq (a b : atom) : py_eqb a b = true <-> key_of a = key_of b.
Proof. apply key_eqb_eq. Qed.

Lemma key_of_str (a : atom) (s : string) : key_of a = KStr s -> a = AStr s.
Proof. destruct a; simpl; intro H; inversion H; reflexivity. Qed.

Lemma In_str_keys (s : string) (l : list atom) :
  In (AStr s) l <-> In (KStr s) (keys l).
Proof.
  unfold keys. rewrite in_map_iff. split.
  - intro H. exists (AStr s). auto.
  - intros [a [Ha Hin]]. apply key_of_str in Ha. now subst.
Qed.

Lemma set_mem_keys (x : atom) (s : pyset) :
  set_mem x s = true <-> In (key_of x) (keys s).
Proof.
  unfold set_mem, keys. rewrite existsb_exists, in_map_iff. split.
  - intros [y [Hy He]]. exists y. apply py_eqb_eq in He. auto.
  - intros [y [He Hy]]. exists y. split; [assumption|]. now apply py_eqb_eq.
Qed.

Lemma set_mem_false (x : atom) (s : pyset) :
  set_mem x s = false <-> ~ In (key_of x) (keys s).
Proof.
  rewrite <- set_mem_keys. destruct (set_mem x s); split; intro H;
    try discriminate; try reflexivity; try (intro; discriminate).
  exfalso. now apply H.
Qed.

Lemma keys_app (l1 l2 : list atom) : keys (l1 ++ l2) = keys l1 ++ keys l2.
Proof. apply map_app. Qed.

Lemma set_add_keys (x : atom) (s : pyset) (k : key) :
  In k (keys (set_add x s)) <-> k = key_of x \/ In k (keys s).
Proof.
  unfold set_add. destruct (set_mem x s) eqn:E.
  - apply set_mem_keys in E. split; [auto|]. intros [->|H]; assumption.
  - rewrite keys_app, in_app_iff. simpl. intuition.
Qed.

Lemma set_add_NoDup (x : atom) (s : pyset) :
  NoDup (keys s) -> NoDup (keys (set_add x s)).
Proof.
  intro H. unfold set_add. destruct (set_mem x s) eqn:E; [assumption|].
  apply set_mem_false in E. rewrite keys_app. simpl.
  apply NoDup_app; [assumption | repeat constructor; auto | ].
  intros k Hk [Hx|[]]. subst. contradiction.
Qed.

Lemma set_add_In (x : atom) (s : pyset) (a : atom) :
  In a (set_add x s) -> a = x \/ In a s.
Proof.
  unfold set_add. destruct (set_mem x s); [auto|].
  rewrite in_app_iff. simpl. intuition.
Qed.

Lemma set_add_keeps (x : atom) (s : pyset) (a : atom) :
  In a s -> In a (set_add x s).
Proof.
  unfold set_add. destruct (set_mem x s); [auto|].
  rewrite in_app_iff. auto.
Qed.

Lemma set_union_keys (t s : pyset) (k : key) :
  In k (keys (set_union s t)) <-> In k (keys s) \/ In k (keys t).
Proof.
  unfold set_union. revert s. induction t as [|x t IH]; intro s; simpl.
  - intuition.
  - rewrite IH, set_add_keys. intuition.
Qed.

Lemma set_union_NoDup (t s : pyset) :
  NoDup (keys s) -> NoDup (keys (set_union s t)).
Proof.
  unfold set_union. revert s. induction t as [|x t IH]; intros s H; simpl.
  - assumption.
  - apply IH. now apply set_add_NoDup.
Qed.

Lemma set_union_In (t s : pyset) (a : atom) :
  In a (set_union s t) -> In a s \/ In a t.
Proof.
  unfold set_union. revert s. induction t as [|x t IH]; intros s H; simpl in *.
  - auto.
  - apply IH in H. destruct H as [H|H]; [|auto].
    apply set_add_In in H. intuition.
Qed.

Lemma set_union_keeps (t s : pyset) (a : atom) :
  In a s -> In a (set_union s t).
Proof.
  unfold set_union. revert s. induction t as [|x t IH]; intros s H; simpl.
  - assumption.
  - apply IH. now apply set_add_keeps.
Qed.

Lemma set_union_mem (s t : pyset) (a : atom) :
  set_mem a (set_union s t) = set_mem a s || set_mem a t.
Proof.
  apply eq_true_iff_eq. rewrite orb_true_iff, !set_mem_keys.
  apply set_union_keys.
Qed.

Lemma set_of_list_keys (l : list atom) (k : key) :
  In k (keys (set_of_list l)) <-> In k (keys l).
Proof.
  change (set_of_list l) with (set_union [] l).
  rewrite set_union_keys. simpl. intuition.
Qed.

Lemma set_of_list_NoDup (l : list atom) : NoDup (keys (set_of_list l)).
Proof.
  change (set_of_list l) with (set_union [] l).
  apply set_union_NoDup. constructor.
Qed.

Lemma set_of_list_In (l : list atom) (a : atom) :
  In a (set_of_list l) -> In a l.
Proof.
  change (set_of_list l) with (set_union [] l).
  intro H. apply set_union_In in H. destruct H as [[]|H]. assumption.
Qed.

(** Adding what is there already changes nothing. *)
Lemma set_union_absorb (t s : pyset) :
  (forall x, In x t -> set_mem x s = true) -> set_union s t = s.
Proof.
  unfold set_union. induction t as [|x t IH]; intro H; simpl.
  - reflexivity.
  - unfold set_add at 2. rewrite (H x (or_introl eq_refl)).
    apply IH. intros y Hy. apply H. now right.
Qed.

Lemma set_diff_absorb (t s : pyset) :
  (forall x, In x t -> set_mem x s = true) -> set_diff t s = [].
Proof.
  unfold set_diff. induction t as [|x t IH]; intro H; simpl.
  - reflexivity.
  - rewrite (H x (or_introl eq_refl)). simpl.
    apply IH. intros y Hy. apply H. now right.
Qed.

(** A list without two equal keys is the set of its elements. *)
Lemma set_union_fresh (l acc : list atom) :
  NoDup (keys (acc ++ l)) -> set_union acc l = acc ++ l.
Proof.
  unfold set_union. revert acc. induction l as [|x l IH]; intros acc H; simpl.
  - now rewrite app_nil_r.
  - assert (E : set_add x acc = acc ++ [x]).
    { unfold set_add. destruct (set_mem x acc) eqn:M; [|reflexivity].
      exfalso. apply set_mem_keys in M.
      rewrite keys_app in H. simpl in H.
      apply NoDup_remove_2 in H. apply H. apply in_or_app. now left. }
    rewrite E, IH; rewrite <- app_assoc; simpl; [reflexivity | assumption].
Qed.

Lemma set_of_list_fresh (l : list atom) :
  NoDup (keys l) -> set_of_list l = l.
Proof.
  intro H. change (set_of_list l) with (set_union [] l).
  now rewrite set_union_fresh.
Qed.


(** *** The order of [<] and [sorted] *)

Lemma string_ltb_lt (s t : string) : String.ltb s t = true <-> String_as_OT.lt s t.
Proof.
  unfold String.ltb. rewrite <- String_as_OT.cmp_lt. unfold String_as_OT.cmp.
  destruct (String.compare s t); split; intro H; try discriminate; reflexivity.
Qed.

Lemma string_ltb_trans (s t u : string) :
  String.ltb s t = true -> String.ltb t u = true -> String.ltb s u = true.
Proof.
  rewrite !string_ltb_lt. apply String_as_OT.lt_trans.
Qed.

Lemma string_ltb_asym (s t : string) :
  String.ltb s t = true -> String.ltb t s = false.
Proof.
  unfold String.ltb. rewrite (String.compare_antisym s t).
  destruct (String.compare t s); simpl; intro H; try discriminate; reflexivity.
Qed.

Lemma string_ltb_total (s t : string) :
  String.ltb t s = false -> s <> t -> String.ltb s t = true.
Proof.
  unfold String.ltb. rewrite (String.compare_antisym t s).
  destruct (String.compare s t) eqn:E; simpl; intros H N;
    try discriminate; try reflexivity.
  exfalso. apply N. now apply String.compare_eq_iff.
Qed.

Lemma asc_trans (a b c : atom) : asc a b -> asc b c -> asc a c.
Proof.
  unfold asc, py_lt.
  destruct (key_of a), (key_of b), (key_of c); intros H1 H2;
    try discriminate; injection H1 as H1; injection H2 as H2; f_equal.
  - apply Z.ltb_lt. apply Z.ltb_lt in H1, H2. lia.
  - eapply string_ltb_trans; eassumption.
Qed.

Lemma asc_asym (a b : atom) : asc a b -> py_lt b a = Some false.
Proof.
  unfold asc, py_lt.
  destruct (key_of a), (key_of b); intro H; try discriminate;
    injection H as H; f_equal.
  - apply Z.ltb_ge. apply Z.ltb_lt in H. lia.
  - now apply string_ltb_asym.
Qed.

Lemma asc_total (a b : atom) :
  py_lt b a = Some false -> key_of a <> key_of b -> asc a b.
Proof.
  unfold asc, py_lt.
  destruct (key_of a), (key_of b); intros H N; try discriminate;
    injection H as H; f_equal.
  - apply Z.ltb_lt. apply Z.ltb_ge in H.
    assert (z <> z0) by congruence. lia.
  - apply string_ltb_total; [assumption | congruence].
Qed.

Lemma asc_keys (a b : atom) : asc a b -> key_of a <> key_of b.
Proof.
  intros H E. pose proof (asc_asym _ _ H) as H'.
  unfold asc, py_lt in *. rewrite E in *. congruence.
Qed.

Lemma py_insert_perm (x : atom) (l r : list atom) :
  py_insert x l = Ret r -> Permutation (x :: l) r.
Proof.
  revert r. induction l as [|y l IH]; intros r H; simpl in H.
  - inversion H. apply Permutation_refl.
  - destruct (py_lt y x) as [[|]|]; try discriminate.
    + destruct (py_insert x l) as [r'|] eqn:E; try discriminate.
      inversion H; subst.
      eapply perm_trans; [apply perm_swap|]. apply perm_skip. now apply IH.
    + inversion H. apply Permutation_refl.
Qed.

Lemma py_sorted_perm (l r : list atom) :
  py_sorted l = Ret r -> Permutation l r.
Proof.
  revert r. induction l as [|x l IH]; intros r H; simpl in H.
  - inversion H. constructor.
  - destruct (py_sorted l) as [r'|] eqn:E; try discriminate.
    apply py_insert_perm in H.
    eapply perm_trans; [|exact H]. apply perm_skip. now apply IH.
Qed.

Lemma py_insert_sorted (x : atom) (l r : list atom) :
  py_insert x l = Ret r ->
  StronglySorted asc l -> ~ In (key_of x) (keys l) ->
  StronglySorted asc r.
Proof.
  revert r. induction l as [|y l IH]; intros r H S N; simpl in H.
  - inversion H. repeat constructor.
  - apply StronglySorted_inv in S. destruct S as [S F].
    simpl in N.
    destruct (py_lt y x) as [[|]|] eqn:L; try discriminate.
    + destruct (py_insert x l) as [r'|] eqn:E; try discriminate.
      inversion H; subst. constructor.
      * apply IH; auto.
      * apply py_insert_perm in E.
        eapply Permutation_Forall; [exact E|]. constructor; assumption.
    + inversion H; subst.
      assert (A : asc x y) by (apply asc_total; [assumption | intuition congruence]).
      constructor; [constructor; assumption|].
      constructor; [assumption|].
      eapply Forall_impl; [|exact F]. intros z Hz. eapply asc_trans; eassumption.
Qed.

Lemma py_sorted_sorted (l r : list atom) :
  py_sorted l = Ret r -> NoDup (keys l) -> StronglySorted asc r.
Proof.
  revert r. induction l as [|x l IH]; intros r H N; simpl in H.
  - inversion H. constructor.
  - destruct (py_sorted l) as [r'|] eqn:E; try discriminate.
    simpl in N. apply NoDup_cons_iff in N. destruct N as [N1 N2].
    eapply py_insert_sorted; [exact H | now apply IH |].
    intro Hin. apply N1. unfold keys in *.
    eapply Permutation_in; [|exact Hin].
    apply Permutation_map. apply Permutation_sym. now apply py_sorted_perm.
Qed.

(** A strictly ascending list is its own sorting, and has no two equal
    keys. *)
Lemma py_sorted_fixed (l : list atom) :
  StronglySorted asc l -> py_sorted l = Ret l.
Proof.
  induction l as [|x l IH]; intro S; simpl.
  - reflexivity.
  - apply StronglySorted_inv in S. destruct S as [S F].
    rewrite (IH S). destruct l as [|y l']; simpl.
    + reflexivity.
    + inversion F; subst. now rewrite (asc_asym _ _ H1).
Qed.

Lemma asc_NoDup (l : list atom) : StronglySorted asc l -> NoDup (keys l).
Proof.
  induction l as [|x l IH]; intro S; simpl.
  - constructor.
  - apply StronglySorted_inv in S. destruct S as [S F]. constructor.
    + unfold keys. rewrite in_map_iff. intros [y [E Hy]].
      rewrite Forall_forall in F. apply (asc_keys _ _ (F y Hy)). now symmetry.
    + now apply IH.
Qed.

(** Strings always compare: sorting a list of strings succeeds. *)
Lemma py_insert_strings (x : atom) (l : list atom) :
  is_str x = true -> forallb is_str l = true ->
  exists r, py_insert x l = Ret r /\ forallb is_str r = true.
Proof.
  intros Hx. induction l as [|y l IH]; intro Hl; simpl in *.
  - exists [x]. simpl. now rewrite Hx.
  - apply andb_true_iff in Hl. destruct Hl as [Hy Hl].
    destruct x, y; try discriminate. unfold py_lt. simpl.
    destruct (String.ltb s0 s).
    + destruct (IH Hl) as [r [E F]]. rewrite E. exists (AStr s0 :: r).
      simpl. auto.
    + eexists. split; [reflexivity|]. simpl. assumption.
Qed.

Lemma py_sorted_strings (l : list atom) :
  forallb is_str l = true ->
  exists r, py_sorted l = Ret r /\ forallb is_str r = true.
Proof.
  induction l as [|x l IH]; intro H; simpl in *.
  - exists []. auto.
  - apply andb_true_iff in H. destruct H as [Hx Hl].
    destruct (IH Hl) as [r [E F]]. rewrite E. now apply py_insert_strings.
Qed.


(** *** Association lists *)

Section AssocFacts.
Context {K V : Type} (eqb : K -> K -> bool).
Hypothesis eqb_eq : forall x y, eqb x y = true <-> x = y.

Lemma eqb_refl_true (k : K) : eqb k k = true.
Proof. now apply eqb_eq. Qed.

Lemma eqb_neq_false (k k' : K) : k <> k' -> eqb k k' = false.
Proof.
  intro N. destruct (eqb k k') eqn:E; [|reflexivity].
  apply eqb_eq in E. contradiction.
Qed.

Lemma assoc_get_set_same (k : K) (v : V) (l : list (K * V)) :
  assoc_get eqb k (assoc_set eqb k v l) = Some v.
Proof.
  induction l as [|[k' v'] l IH]; simpl.
  - now rewrite eqb_refl_true.
  - destruct (eqb k k') eqn:E; simpl; rewrite E; [reflexivity | assumption].
Qed.

Lemma assoc_get_set_other (k k' : K) (v : V) (l : list (K * V)) :
  k' <> k -> assoc_get eqb k' (assoc_set eqb k v l) = assoc_get eqb k' l.
Proof.
  intro N. induction l as [|[k0 v0] l IH]; simpl.
  - now rewrite (eqb_neq_false _ _ N).
  - destruct (eqb k k0) eqn:E; simpl.
    + apply eqb_eq in E. subst k0.
      now rewrite (eqb_neq_false _ _ N).
    + now rewrite IH.
Qed.

Lemma assoc_set_set (k : K) (u v : V) (l : list (K * V)) :
  assoc_set eqb k v (assoc_set eqb k u l) = assoc_set eqb k v l.
Proof.
  induction l as [|[k' v'] l IH]; simpl.
  - now rewrite eqb_refl_true.
  - destruct (eqb k k') eqn:E; simpl; rewrite E; [reflexivity | now rewrite IH].
Qed.

Lemma assoc_set_same (k : K) (v : V) (l : list (K * V)) :
  assoc_get eqb k l = Some v -> assoc_set eqb k v l = l.
Proof.
  induction l as [|[k' v'] l IH]; simpl; intro H.
  - discriminate.
  - destruct (eqb k k') eqn:E.
    + now inversion H.
    + now rewrite IH.
Qed.

(** The keys keep their order; a new key goes last. *)
Lemma assoc_set_keys (k : K) (v : V) (l : list (K * V)) :
  map fst (assoc_set eqb k v l) =
  if assoc_mem eqb k l then map fst l else map fst l ++ [k].
Proof.
  unfold assoc_mem. induction l as [|[k' v'] l IH]; simpl.
  - reflexivity.
  - destruct (eqb k k') eqn:E; simpl; [reflexivity|].
    rewrite IH. now destruct (assoc_get eqb k l).
Qed.
End AssocFacts.

Lemma path_eqb_eq (p q : Path) : path_eqb p q = true <-> p = q.
Proof.
  revert q. induction p as [|a p IH]; destruct q as [|b q]; simpl;
    split; intro H; try discriminate; try reflexivity.
  - apply andb_true_iff in H. destruct H as [H1 H2].
    apply String.eqb_eq in H1. apply IH in H2. now subst.
  - inversion H; subst. rewrite String.eqb_refl. now apply IH.
Qed.

Lemma dict_get_set_same (k : string) (v : value) (d : list (string * value)) :
  dict_get k (dict_set k v d) = Some v.
Proof. apply assoc_get_set_same, String.eqb_eq. Qed.

Lemma dict_get_set_other (k k' : string) (v : value) (d : list (string * value)) :
  k' <> k -> dict_get k' (dict_set k v d) = dict_get k' d.
Proof. apply assoc_get_set_other, String.eqb_eq. Qed.

Lemma dict_set_set (k : string) (u v : value) (d : list (string * value)) :
  dict_set k v (dict_set k u d) = dict_set k v d.
Proof. apply assoc_set_set, String.eqb_eq. Qed.

Lemma dict_set_same (k : string) (v : value) (d : list (string * value)) :
  dict_get k d = Some v -> dict_set k v d = d.
Proof. apply assoc_set_same. Qed.

Lemma dict_mem_get (k : string) (d : list (string * value)) :
  dict_mem k d = match dict_get k d with Some _ => true | None => false end.
Proof. reflexivity. Qed.

Lemma stat_put_same (w : world) (p : Path) (content : string) :
  stat (put_file w p content) p = Some (File content).
Proof. apply assoc_get_set_same, path_eqb_eq. Qed.

Lemma stat_put_other (w : world) (p q : Path) (content : string) :
  q <> p -> stat (put_file w p content) q = stat w q.
Proof. apply assoc_get_set_other, path_eqb_eq. Qed.

(** *** Running the monad *)

Lemma emit_nil (s : state) : emit [] s = s.
Proof. destruct s. unfold emit. simpl. now rewrite app_nil_r. Qed.

Lemma emit_emit (a b : list event) (s : state) :
  emit b (emit a s) = emit (a ++ b) s.
Proof. unfold emit. simpl. now rewrite app_assoc. Qed.


Ltac run_monad :=
  cbv beta iota zeta delta
      [read_existing merge_and_write update_settings_file
       extract_allow_permissions assign_nested default_nested
       bind ret raise lift try_except when print get sys_exit
       assign_existing_settings assign_existing_allow
       path_exists path_is_dir read_text write_text loads
       fs out existing_settings existing_allow emit
       py_in py_getitem py_setitem py_get
       is_JSONDecodeError is_Exception negb].

Ltac exec :=
  repeat (progress (run_monad;
                    repeat match goal with
                           | H : ?x = _ |- context [?x] => rewrite H
                           end)).

Ltac done_run :=
  solve [ eexists; rewrite <- ?app_assoc; simpl; reflexivity
        | exists []; rewrite app_nil_r; reflexivity ].

Lemma traverse_atoms_raises (l : list value) (e : exn) :
  traverse_atoms l = Raise e -> e = TypeError.
Proof.
  induction l as [|v l IH]; simpl; intro H; [discriminate|].
  destruct (to_atom v); [|now inversion H].
  destruct (traverse_atoms l); [discriminate|].
  inversion H; subst. now apply IH.
Qed.

Lemma py_set_raises (v : value) (e : exn) : py_set v = Raise e -> e = TypeError.
Proof.
  destruct v; simpl; intro H; try discriminate; try now inversion H.
  destruct (traverse_atoms l) eqn:T; [discriminate|].
  inversion H; subst. now apply traverse_atoms_raises in T.
Qed.

(** The allow list is found, or an exception leaves it empty. *)
Lemma read_existing_allow_run (output_path : Path) (w : world)
      (o : list event) (v : value) :
  exists evs r ea,
    read_existing_allow output_path (mkState w o v []) =
      (r, mkState w (o ++ evs) v ea) /\
    ((r = Ret tt /\ ea = allow_of v) \/
     (exists e, r = Raise e /\ is_Exception e = true /\
                ea = [] /\ allow_of v = [])).
Proof.
  assert (T : forall a e, py_set a = Raise e -> is_Exception e = true).
  { intros a e H. apply py_set_raises in H. now subst. }
  unfold read_existing_allow, allow_of.
  destruct v as [| b | z | str | l | d]; exec;
    try (destruct (substring_in "permissions" str); exec);
    try (destruct (existsb (is_VStr "permissions") l); exec);
    try (rewrite dict_mem_get;
         destruct (dict_get "permissions" d) as [p|] eqn:Gp; exec;
         [destruct p as [| b | z | str | l | pd]; exec;
          try (destruct (substring_in "allow" str); exec);
          try (destruct (existsb (is_VStr "allow") l); exec);
          try (rewrite dict_mem_get;
               destruct (dict_get "allow" pd) as [a|] eqn:Ga; exec;
               [destruct (py_set a) as [found|e] eqn:Ps; exec;
                [|pose proof (T _ _ Ps)]|])|]);
    do 3 eexists;
    (split; [rewrite <- ?app_assoc; reflexivity|]);
    first [ left; split; reflexivity
          | right; eexists; repeat split; solve [reflexivity | eassumption] ].
Qed.

Lemma read_existing_run (output_path : Path) (s : state) :
  existing_settings s = VDict [] -> existing_allow s = [] ->
  exists evs,
    read_existing output_path s =
    (Ret tt, mkState (fs s) (out s ++ evs)
                     (settings_before (fs s) output_path)
                     (allow_before (fs s) output_path)).
Proof.
  destruct s as [w o es ea]. simpl. intros -> ->.
  unfold settings_before, allow_before, existing_document.
  run_monad.
  destruct (stat w output_path) as [[|content|]|] eqn:St; exec;
    try done_run.
  destruct (json_loads content) as [v|msg] eqn:P1; exec.
  - destruct (read_existing_allow_run output_path w o v)
      as [evs [r [ea [E [[-> ->]|[e [-> [He [-> A]]]]]]]]];
      cbv [is_Exception] in *; rewrite E; exec.
    + now exists evs.
    + eexists. rewrite <- !app_assoc. reflexivity.
  - destruct (json_loads (re_sub_trailing_commas content)) as [v|msg2] eqn:P2;
      exec; [|done_run].
    destruct (read_existing_allow_run output_path w (o ++ [EFixed output_path]) v)
      as [evs [r [ea [E [[-> ->]|[e [-> [He [-> A]]]]]]]]];
      cbv [is_Exception] in *; rewrite E; exec.
    + eexists. rewrite <- !app_assoc. reflexivity.
    + eexists. rewrite <- !app_assoc. reflexivity.
Qed.


Lemma py_sorted_raises (l : list atom) (e : exn) :
  py_sorted l = Raise e -> e = TypeError.
Proof.
  assert (I : forall x l e, py_insert x l = Raise e -> e = TypeError).
  { intros x l0. induction l0 as [|y l0 IH]; simpl; intros e0 H; [discriminate|].
    destruct (py_lt y x) as [[|]|]; try discriminate; [|now inversion H].
    destruct (py_insert x l0); [discriminate|]. inversion H; subst. now apply IH. }
  revert e. induction l as [|x l IH]; simpl; intros e H; [discriminate|].
  destruct (py_sorted l); [now apply I in H|]. inversion H; subst. now apply IH.
Qed.

Ltac exec_dict :=
  repeat (progress (exec;
                    rewrite ?dict_get_set_same, ?dict_set_set, ?dict_mem_get)).

Lemma merge_and_write_run (output_path : Path) (permissions : pyset) (s : state) :
  match merged_document (existing_settings s) (existing_allow s) permissions with
  | Ret doc =>
      if can_write (fs s) output_path
      then merge_and_write output_path permissions s =
           (Ret tt, mkState (put_file (fs s) output_path (file_text doc))
                            (out s ++ report (existing_allow s) permissions output_path)
                            doc (existing_allow s))
      else exists s', merge_and_write output_path permissions s = (Raise OSError, s')
                      /\ fs s' = fs s /\ out s' = out s
  | Raise e =>
      exists s', merge_and_write output_path permissions s = (Raise e, s')
                 /\ fs s' = fs s /\ out s' = out s
  end.
Proof.
  destruct s as [w o es ea]. unfold merged_document. simpl.
  destruct es as [| b | z | str | l | d]; exec;
    try (eexists; repeat split; reflexivity).
  - destruct (substring_in "permissions" str); exec.
    + destruct (py_sorted (set_union ea permissions)) eqn:Ps; exec.
      * eexists; repeat split; reflexivity.
      * rewrite (py_sorted_raises _ _ Ps). eexists; repeat split; reflexivity.
    + eexists; repeat split; reflexivity.
  - destruct (existsb (is_VStr "permissions") l); exec.
    + destruct (py_sorted (set_union ea permissions)) eqn:Ps; exec.
      * eexists; repeat split; reflexivity.
      * rewrite (py_sorted_raises _ _ Ps). eexists; repeat split; reflexivity.
    + eexists; repeat split; reflexivity.
  - rewrite dict_mem_get. unfold ensure_list, file_text, report.
    destruct (py_sorted (set_union ea permissions)) as [sorted_allow|e] eqn:Ps.
    + destruct (dict_get "permissions" d) as [p|] eqn:Gp; exec_dict.
      * destruct p as [| b | z | str | l | pd]; exec_dict;
          try (eexists; repeat split; reflexivity).
        destruct (dict_get "deny" (dict_set "allow" (VList (map of_atom sorted_allow)) pd))
          eqn:Gd; exec_dict.
        -- destruct (dict_get "ask" (dict_set "allow" (VList (map of_atom sorted_allow)) pd))
             eqn:Ga; exec_dict;
             destruct (can_write w output_path); exec_dict;
             try (eexists; repeat split; reflexivity);
             destruct (set_diff permissions ea); rewrite <- !app_assoc; reflexivity.
        -- destruct (dict_get "ask" (dict_set "deny" (VList [])
                       (dict_set "allow" (VList (map of_atom sorted_allow)) pd)))
             eqn:Ga; exec_dict;
             destruct (can_write w output_path); exec_dict;
             try (eexists; repeat split; reflexivity);
             destruct (set_diff permissions ea); rewrite <- !app_assoc; reflexivity.
      * change (dict_get "deny" (dict_set "allow" (VList (map of_atom sorted_allow)) []))
          with (@None value).
        exec_dict.
        change (dict_get "ask" (dict_set "deny" (VList [])
                   (dict_set "allow" (VList (map of_atom sorted_allow)) [])))
          with (@None value).
        exec_dict.
        change (dict_mem "deny" (dict_set "allow" (VList (map of_atom sorted_allow)) []))
          with false.
        change (dict_mem "ask" (dict_set "deny" (VList [])
                   (dict_set "allow" (VList (map of_atom sorted_allow)) [])))
          with false.
        destruct (can_write w output_path); exec_dict;
          try (eexists; repeat split; reflexivity);
          destruct (set_diff permissions ea); rewrite <- !app_assoc; reflexivity.
    + destruct (dict_get "permissions" d); exec_dict;
        eexists; repeat split; reflexivity.
Qed.


(** [update_settings_file] in one step: what was read, then either the
    document is written or the run ends with status 1 and the file
    system as it was. *)
Lemma update_settings_file_run (output_path : Path) (permissions : pyset)
      (s : state) :
  let v := settings_before (fs s) output_path in
  let ea := allow_before (fs s) output_path in
  exists evs,
    read_existing output_path (mkState (fs s) (out s) (VDict []) []) =
      (Ret tt, mkState (fs s) (out s ++ evs) v ea) /\
    match merged_document v ea permissions, can_write (fs s) output_path with
    | Ret doc, true =>
        update_settings_file output_path permissions s =
        (Ret tt, mkState (put_file (fs s) output_path (file_text doc))
                         (out s ++ evs ++ report ea permissions output_path)
                         doc ea)
    | _, _ =>
        exists s' e,
          update_settings_file output_path permissions s =
            (Raise (SystemExit 1), s') /\
          fs s' = fs s /\ out s' = out s ++ evs ++ [EWriteError e]
    end.
Proof.
  destruct s as [w o es0 ea0]. simpl fs. simpl out. intros v ea.
  destruct (read_existing_run output_path (mkState w o (VDict []) [])
              eq_refl eq_refl) as [evs R].
  simpl in R. fold v ea in R. exists evs. split; [exact R|].
  pose proof (merge_and_write_run output_path permissions
                (mkState w (o ++ evs) v ea)) as W.
  simpl in W.
  unfold update_settings_file.
  cbv beta iota zeta delta
      [bind try_except assign_existing_settings assign_existing_allow
       fs out existing_settings existing_allow].
  rewrite R.
  destruct (merged_document v ea permissions) as [doc|e] eqn:MD.
  - destruct (can_write w output_path).
    + rewrite W. now rewrite app_assoc.
    + destruct W as [[w' o' es' ea'] [W [F O]]]. simpl in F, O. subst.
      rewrite W. exec.
      eexists. exists OSError. split; [reflexivity|]. simpl.
      rewrite <- app_assoc. auto.
  - destruct W as [[w' o' es' ea'] [W [F O]]]. simpl in F, O. subst.
    rewrite W.
    assert (e = TypeError) as ->.
    { unfold merged_document in MD. destruct v; try now inversion MD.
      destruct (py_sorted (set_union ea permissions)) eqn:Ps.
      - destruct (dict_get "permissions" d) as [[]|]; now inversion MD.
      - inversion MD; subst. now apply py_sorted_raises in Ps. }
    exec. eexists. exists TypeError. split; [reflexivity|]. simpl.
    rewrite <- app_assoc. auto.
Qed.


(** [extract_allow_permissions] always returns: the set [allow_in]
    names, and some lines on standard error at most. *)
Lemma extract_allow_permissions_run (file_path : Path) (s : state) :
  exists evs,
    extract_allow_permissions file_path s =
    (Ret (allow_in (fs s) file_path), emit evs s).
Proof.
  destruct s as [w o es ea]. unfold allow_in. simpl fs.
  destruct (stat w file_path) as [[|content|]|] eqn:St; exec;
    try (eexists; reflexivity).
  destruct (json_loads content) as [data|msg] eqn:P; exec;
    [|eexists; reflexivity].
  destruct data as [| b | z | str | l | d]; exec; try (eexists; reflexivity).
  destruct (dict_get "permissions" d) as [p|] eqn:Gp; exec.
  - destruct p as [| b | z | str | l | pd]; exec; try (eexists; reflexivity).
    destruct (dict_get "allow" pd) as [a|] eqn:Ga; exec.
    + destruct (py_set a) as [found|e] eqn:Ps; exec.
      * exists []. now rewrite app_nil_r.
      * rewrite (py_set_raises _ _ Ps). exec. eexists; reflexivity.
    + change (py_set (VList [])) with (@Ret pyset []). exec.
      exists []. now rewrite app_nil_r.
  - change (dict_get "allow" []) with (@None value). exec.
    change (py_set (VList [])) with (@Ret pyset []). exec.
    exists []. now rewrite app_nil_r.
Qed.

Lemma merge_loop_run (root_dir : Path) (settings_files : list Path)
      (acc : pyset) (s : state) :
  exists evs,
    merge_loop root_dir settings_files acc s =
    (Ret (merged_of (fs s) settings_files acc), emit evs s).
Proof.
  revert acc s. induction settings_files as [|f files IH]; intros acc s; simpl.
  - exists []. now rewrite emit_nil.
  - destruct (extract_allow_permissions_run f s) as [evs E].
    unfold bind at 1. rewrite E.
    destruct (allow_in (fs s) f) as [|x found] eqn:A.
    + destruct (IH acc (emit evs s)) as [evs' E']. rewrite E'.
      exists (evs ++ evs'). now rewrite emit_emit.
    + unfold bind at 1. unfold print.
      destruct (IH (set_union acc (x :: found))
                   (emit [EFound (List.length (x :: found)) (display root_dir f)]
                         (emit evs s))) as [evs' E'].
      rewrite E'. eexists. rewrite !emit_emit. reflexivity.
Qed.

Lemma merged_of_keys (w : world) (settings_files : list Path) (acc : pyset)
      (k : key) :
  In k (keys (merged_of w settings_files acc)) <->
  In k (keys acc) \/
  exists f, In f settings_files /\ In k (keys (allow_in w f)).
Proof.
  unfold merged_of. revert acc.
  induction settings_files as [|f files IH]; intro acc; simpl.
  - split; [auto|]. intros [H|[f [[] _]]]. assumption.
  - rewrite IH, set_union_keys. split.
    + intros [[H|H]|[g [Hg H]]]; eauto.
    + intros [H|[g [[->|Hg] H]]]; eauto.
Qed.

Lemma merged_of_NoDup (w : world) (settings_files : list Path) (acc : pyset) :
  NoDup (keys acc) -> NoDup (keys (merged_of w settings_files acc)).
Proof.
  unfold merged_of. revert acc.
  induction settings_files as [|f files IH]; intros acc H; simpl.
  - assumption.
  - apply IH. now apply set_union_NoDup.
Qed.


Lemma print_items_run (l : list atom) (s : state) :
  print_items l s = (Ret tt, emit (map EItem l) s).
Proof.
  revert s. induction l as [|x l IH]; intro s; simpl.
  - now rewrite emit_nil.
  - unfold bind, print. rewrite IH, emit_emit. reflexivity.
Qed.

Ltac mexec :=
  repeat (progress (cbv beta iota zeta delta
    [bind ret raise when print get sys_exit path_exists path_is_dir lift
     find_settings_files merge_permissions fs out emit negb
     existing_settings existing_allow];
    repeat match goal with
           | H : ?x = _ |- context [?x] => rewrite H
           end)).

(** The five ways a run of [main] can go. *)
Lemma main_cases (root_dir output_path : Path) (verbose : bool) (s : state) :
  let files := discovered (fs s) root_dir in
  let merged := merged_of (fs s) files [] in
  exists r s',
    main root_dir output_path verbose s = (r, s') /\
    ((stat (fs s) root_dir <> Some Dir /\
      r = Raise (SystemExit 1) /\ fs s' = fs s)
     \/
     (stat (fs s) root_dir = Some Dir /\ files = [] /\
      r = Raise (SystemExit 0) /\
      s' = emit [ESearching root_dir; ERule; ENoFiles] s)
     \/
     (stat (fs s) root_dir = Some Dir /\ files <> [] /\ merged = [] /\
      r = Raise (SystemExit 0) /\
      exists evs, s' = emit (evs ++ [ENoPermissions]) s)
     \/
     (stat (fs s) root_dir = Some Dir /\ files <> [] /\ merged <> [] /\
      verbose = true /\ py_sorted merged = Raise TypeError /\
      r = Raise TypeError /\ fs s' = fs s)
     \/
     (stat (fs s) root_dir = Some Dir /\ files <> [] /\ merged <> [] /\
      (verbose = true -> exists l, py_sorted merged = Ret l) /\
      exists evs s2 ru,
        update_settings_file output_path merged (emit evs s) = (ru, s2) /\
        ((ru = Ret tt /\ r = Ret tt /\
          s' = emit (summary (List.length files) (List.length merged) output_path) s2)
         \/ (exists e, ru = Raise e /\ r = Raise e /\ s' = s2)))).
Proof.
  intros files merged. unfold main.
  destruct s as [w o es ea]. simpl fs in *.
  assert (Hm : forall s0, fs s0 = w ->
             exists evs, merge_loop root_dir files [] s0 =
                         (Ret merged, emit evs s0)).
  { intros s0 <-. apply merge_loop_run. }
  clearbody merged.
  assert (Hf : discovered w root_dir = files) by reflexivity.
  clearbody files.
  mexec.
  destruct (stat w root_dir) as [[|content|]|] eqn:St; mexec;
    try (do 2 eexists; split; [reflexivity|]; left;
         repeat split; discriminate).
  fold (discovered w root_dir). rewrite Hf.
  destruct files as [|f0 files0]; mexec.
  - do 2 eexists. split; [reflexivity|]. right. left.
    repeat split. now rewrite <- !app_assoc.
  - match goal with
    | |- context [merge_loop _ _ _ ?s0] =>
        destruct (Hm s0 eq_refl) as [evs M]; rewrite M
    end.
    mexec.
    destruct merged as [|x0 merged0]; mexec.
    + do 2 eexists. split; [reflexivity|]. right. right. left.
      repeat split; try discriminate.
      exists (ESearching root_dir :: ERule
              :: EFoundFiles (List.length (f0 :: files0)) :: evs).
      rewrite <- !app_assoc. reflexivity.
    + destruct verbose; mexec.
      * destruct (py_sorted (x0 :: merged0)) as [l|e] eqn:Ps; mexec.
        -- rewrite print_items_run. mexec. rewrite <- !app_assoc.
           match goal with
           | |- context [update_settings_file _ _ ?s2] =>
               destruct (update_settings_file output_path (x0 :: merged0) s2)
                 as [[[]|e] s3] eqn:U
           end.
           ++ do 2 eexists. split; [reflexivity|]. do 4 right.
              repeat split; try discriminate; [eauto|].
              do 3 eexists. split; [exact U|].
              left. repeat split. destruct s3. unfold summary, emit. simpl.
              now rewrite <- !app_assoc.
           ++ do 2 eexists. split; [reflexivity|]. do 4 right.
              repeat split; try discriminate; [eauto|].
              do 3 eexists. split; [exact U|].
              right. exists e. auto.
        -- rewrite (py_sorted_raises _ _ Ps) in *.
           do 2 eexists. split; [reflexivity|]. do 3 right. left.
           repeat split; try discriminate.
      * rewrite <- !app_assoc.
        match goal with
        | |- context [update_settings_file _ _ ?s2] =>
            destruct (update_settings_file output_path (x0 :: merged0) s2)
              as [[[]|e] s3] eqn:U
        end.
        -- do 2 eexists. split; [reflexivity|]. do 4 right.
           repeat split; try discriminate.
           do 3 eexists. split; [exact U|].
           left. repeat split. destruct s3. unfold summary, emit. simpl.
           now rewrite <- !app_assoc.
        -- do 2 eexists. split; [reflexivity|]. do 4 right.
           repeat split; try discriminate.
           do 3 eexists. split; [exact U|].
           right. exists e. auto.
Qed.


(** *** The written document *)

Lemma merged_document_inv (v : value) (ea permissions : pyset) (doc : value) :
  merged_document v ea permissions = Ret doc ->
  exists d pd sorted_allow,
    v = VDict d /\
    (dict_get "permissions" d = Some (VDict pd) \/
     (dict_get "permissions" d = None /\ pd = [])) /\
    py_sorted (set_union ea permissions) = Ret sorted_allow /\
    doc = VDict (dict_set "permissions"
                   (VDict (ensure_list "ask" (ensure_list "deny"
                      (dict_set "allow" (VList (map of_atom sorted_allow)) pd))))
                   d).
Proof.
  unfold merged_document. intro H.
  destruct v as [| | | | |d]; try discriminate.
  destruct (py_sorted (set_union ea permissions)) as [l|] eqn:Ps; try discriminate.
  destruct (dict_get "permissions" d) as [[| | | | |pd]|] eqn:G; try discriminate;
    inversion H; subst.
  - exists d, pd, l. auto.
  - exists d, [], l. auto 6.
Qed.

Lemma dict_get_ensure (k k' : string) (p : list (string * value)) :
  dict_get k (ensure_list k' p) =
  if String.eqb k k'
  then Some (match dict_get k p with Some x => x | None => VList [] end)
  else dict_get k p.
Proof.
  unfold ensure_list. rewrite dict_mem_get.
  destruct (String.eqb k k') eqn:E.
  - apply String.eqb_eq in E. subst k'.
    destruct (dict_get k p) eqn:G; [assumption | apply dict_get_set_same].
  - apply String.eqb_neq in E.
    destruct (dict_get k' p); [reflexivity | now apply dict_get_set_other].
Qed.

(** The three lists of the written [permissions]. *)
Lemma written_permissions (x : value) (pd : list (string * value)) (k : string) :
  dict_get k (ensure_list "ask" (ensure_list "deny" (dict_set "allow" x pd))) =
  if String.eqb k "allow" then Some x
  else if String.eqb k "deny" || String.eqb k "ask"
       then Some (match dict_get k pd with Some y => y | None => VList [] end)
       else dict_get k pd.
Proof.
  rewrite !dict_get_ensure.
  destruct (String.eqb k "allow") eqn:Ea.
  - apply String.eqb_eq in Ea. subst k. simpl. apply dict_get_set_same.
  - apply String.eqb_neq in Ea. rewrite (dict_get_set_other _ _ _ _ Ea).
    destruct (String.eqb k "ask") eqn:Ek.
    + apply String.eqb_eq in Ek. subst k. reflexivity.
    + rewrite orb_false_r. destruct (String.eqb k "deny"); reflexivity.
Qed.

Lemma traverse_of_atoms (l : list atom) : traverse_atoms (map of_atom l) = Ret l.
Proof.
  induction l as [|a l IH]; simpl; [reflexivity|].
  rewrite IH. now destruct a.
Qed.

Lemma allow_of_NoDup (v : value) : NoDup (keys (allow_of v)).
Proof.
  assert (P : forall a, NoDup (keys match py_set a with Ret f => f | Raise _ => [] end)).
  { intro a. destruct a; simpl; try constructor; try apply set_of_list_NoDup.
    destruct (traverse_atoms l); [apply set_of_list_NoDup | constructor]. }
  unfold allow_of. destruct v; try constructor.
  destruct (dict_get "permissions" d) as [[]|]; try constructor.
  destruct (dict_get "allow" d0); [apply P | constructor].
Qed.

Lemma allow_before_NoDup (w : world) (output_path : Path) :
  NoDup (keys (allow_before w output_path)).
Proof.
  unfold allow_before. destruct (existing_document w output_path).
  - apply allow_of_NoDup.
  - constructor.
Qed.

Lemma of_atom_inj (a b : atom) : of_atom a = of_atom b -> a = b.
Proof. destruct a, b; simpl; intro H; inversion H; reflexivity. Qed.

Lemma In_of_atom (a : atom) (l : list atom) :
  In (of_atom a) (map of_atom l) <-> In a l.
Proof.
  rewrite in_map_iff. split.
  - intros [b [E H]]. apply of_atom_inj in E. now subst.
  - intro H. eauto.
Qed.

(** A run of [update_settings_file] that returns has written this. *)
Lemma update_settings_file_written (output_path : Path) (permissions : pyset)
      (s s' : state) :
  update_settings_file output_path permissions s = (Ret tt, s') ->
  exists d pd sorted_allow evs,
    settings_before (fs s) output_path = VDict d /\
    (dict_get "permissions" d = Some (VDict pd) \/
     (dict_get "permissions" d = None /\ pd = [])) /\
    py_sorted (set_union (allow_before (fs s) output_path) permissions)
      = Ret sorted_allow /\
    can_write (fs s) output_path = true /\
    let doc := VDict (dict_set "permissions"
                   (VDict (ensure_list "ask" (ensure_list "deny"
                      (dict_set "allow" (VList (map of_atom sorted_allow)) pd))))
                   d) in
    read_existing output_path (mkState (fs s) (out s) (VDict []) []) =
      (Ret tt, mkState (fs s) (out s ++ evs) (VDict d)
                       (allow_before (fs s) output_path)) /\
    s' = mkState (put_file (fs s) output_path (file_text doc))
                 (out s ++ evs ++
                  report (allow_before (fs s) output_path) permissions output_path)
                 doc (allow_before (fs s) output_path).
Proof.
  intro U.
  destruct (update_settings_file_run output_path permissions s) as [evs [R H]].
  simpl in H.
  destruct (merged_document (settings_before (fs s) output_path)
              (allow_before (fs s) output_path) permissions) as [doc|e] eqn:MD.
  - destruct (can_write (fs s) output_path) eqn:CW.
    + rewrite U in H. inversion H; subst. clear H.
      apply merged_document_inv in MD.
      destruct MD as [d [pd [l [Ev [Gp [Ps ->]]]]]].
      exists d, pd, l, evs. rewrite Ev in R. rewrite Ev. auto 10.
    + destruct H as [s2 [e [H _]]]. congruence.
  - destruct H as [s2 [e' [H _]]]. congruence.
Qed.


Lemma py_sorted_keys (l r : list atom) (k : key) :
  py_sorted l = Ret r -> (In k (keys r) <-> In k (keys l)).
Proof.
  intro H. apply py_sorted_perm in H. unfold keys.
  split; apply Permutation_in; apply Permutation_map;
    [now apply Permutation_sym | assumption].
Qed.

(** *** The claims about [update_settings_file] *)

(** C10.  Monotonicity of the write step.  Whenever
    [update_settings_file] writes the output document, whatever the
    output file held before, the written [permissions.allow] list holds
    every element of the permission set it was given: an element equal
    ([==]) to each, and each permission string itself. *)
Theorem update_settings_file_keeps_permissions
        (output_path : Path) (permissions : pyset) (s s' : state) :
  update_settings_file output_path permissions s = (Ret tt, s') ->
  exists d pd written,
    stat (fs s') output_path = Some (File (file_text (VDict d))) /\
    dict_get "permissions" d = Some (VDict pd) /\
    dict_get "allow" pd = Some (VList (map of_atom written)) /\
    (forall x, In x permissions -> set_mem x written = true) /\
    (forall p, In (AStr p) permissions -> In (VStr p) (map of_atom written)).
Proof.
  intro U. apply update_settings_file_written in U.
  destruct U as [d [pd [l [evs [Ev [Gp [Ps [CW [R ->]]]]]]]]].
  eexists. eexists. exists l. simpl fs.
  split; [apply stat_put_same|].
  split; [apply dict_get_set_same|].
  split; [now rewrite written_permissions|].
  assert (K : forall x, In x permissions -> In (key_of x) (keys l)).
  { intros x Hx. apply (py_sorted_keys _ _ _ Ps). apply set_union_keys.
    right. unfold keys. now apply in_map. }
  split.
  - intros x Hx. apply set_mem_keys. now apply K.
  - intros p Hp. change (VStr p) with (of_atom (AStr p)).
    apply In_of_atom. apply In_str_keys. now apply (K (AStr p)).
Qed.

(** C6.  The writer changes only [permissions].  In the document a run
    of [update_settings_file] writes, every top-level field other than
    [permissions] is the field of the document read from the output file
    ([settings_before]: empty when there was none), in the same place;
    inside [permissions], [deny] and [ask] keep their value when present
    and become the empty list when absent, and every field other than
    [allow] is as it was; the file holds
    [json.dumps(document, indent=2, ensure_ascii=False)] and one newline. *)
Theorem update_settings_file_frame
        (output_path : Path) (permissions : pyset) (s s' : state) :
  update_settings_file output_path permissions s = (Ret tt, s') ->
  exists d0 d pd0 pd,
    settings_before (fs s) output_path = VDict d0 /\
    stat (fs s') output_path =
      Some (File (json_dumps 2 false (VDict d) ++ String "010" "")%string) /\
    (forall k, k <> "permissions" -> dict_get k d = dict_get k d0) /\
    map fst d = (if dict_mem "permissions" d0 then map fst d0
                 else map fst d0 ++ ["permissions"]) /\
    (dict_get "permissions" d0 = Some (VDict pd0) \/
     (dict_get "permissions" d0 = None /\ pd0 = [])) /\
    dict_get "permissions" d = Some (VDict pd) /\
    dict_get "deny" pd =
      Some (match dict_get "deny" pd0 with Some x => x | None => VList [] end) /\
    dict_get "ask" pd =
      Some (match dict_get "ask" pd0 with Some x => x | None => VList [] end) /\
    (forall k, k <> "allow" -> k <> "deny" -> k <> "ask" ->
               dict_get k pd = dict_get k pd0) /\
    (forall q, q <> output_path -> stat (fs s') q = stat (fs s) q).
Proof.
  intro U. apply update_settings_file_written in U.
  destruct U as [d [pd [l [evs [Ev [Gp [Ps [CW [R ->]]]]]]]]].
  exists d. eexists. exists pd. eexists. simpl fs.
  split; [exact Ev|].
  split; [apply stat_put_same|].
  split; [intros k Hk; now apply dict_get_set_other|].
  split; [apply (assoc_set_keys String.eqb)|].
  split; [exact Gp|].
  split; [apply dict_get_set_same|].
  split; [now rewrite written_permissions|].
  split; [now rewrite written_permissions|].
  split.
  - intros k Ka Kd Kk. rewrite written_permissions.
    apply String.eqb_neq in Ka, Kd, Kk. now rewrite Ka, Kd, Kk.
  - intros q Hq. now apply stat_put_other.
Qed.


(** *** The claims about a whole run *)

(** On strings [<] is the lexicographic order of the code points. *)
Lemma asc_strings (ps : list string) :
  StronglySorted asc (map AStr ps) ->
  StronglySorted (fun p q => String.ltb p q = true) ps.
Proof.
  induction ps as [|p ps IH]; simpl; intro S; [constructor|].
  apply StronglySorted_inv in S. destruct S as [S F].
  constructor; [now apply IH|].
  rewrite Forall_map in F. eapply Forall_impl; [|exact F].
  intros q H. unfold asc, py_lt in H. simpl in H. now inversion H.
Qed.

Lemma main_returns (root_dir output_path : Path) (verbose : bool) (s s' : state) :
  let files := discovered (fs s) root_dir in
  let merged := merged_of (fs s) files [] in
  main root_dir output_path verbose s = (Ret tt, s') ->
  stat (fs s) root_dir = Some Dir /\ files <> [] /\ merged <> [] /\
  (verbose = true -> exists l, py_sorted merged = Ret l) /\
  exists evs s2,
    update_settings_file output_path merged (emit evs s) = (Ret tt, s2) /\
    s' = emit (summary (List.length files) (List.length merged) output_path) s2.
Proof.
  intros files merged H.
  destruct (main_cases root_dir output_path verbose s) as [r [s0 [Hm C]]].
  simpl in C. fold files merged in C.
  rewrite H in Hm. inversion Hm; subst r s0. clear Hm.
  destruct C as [[_ [C _]]|[[_ [_ [C _]]]|[[_ [_ [_ [C _]]]]|
                [[_ [_ [_ [_ [_ [C _]]]]]]|
                 [St [Nf [Nm [V [evs [s2 [ru [U C]]]]]]]]]]]];
    try discriminate.
  repeat (split; [assumption|]). exists evs, s2.
  destruct C as [[-> [_ ->]]|[e [_ [C _]]]]; [|discriminate].
  auto.
Qed.

(** C1.  The written allow list is the sorted union.  When a run of
    [main] completes, the output file holds a document whose
    [permissions.allow] is a list in strictly ascending order of [<]
    (for strings: lexicographic order of the code points; strict, so no
    duplicates) made of exactly (a) the allow entries of the document
    the output file held before ([allow_before]: none when the file was
    absent or the key missing) and (b) the allow entries of every
    discovered input file. *)
Theorem main_writes_sorted_union
        (root_dir output_path : Path) (verbose : bool) (s s' : state) :
  main root_dir output_path verbose s = (Ret tt, s') ->
  exists d pd written,
    stat (fs s') output_path = Some (File (file_text (VDict d))) /\
    dict_get "permissions" d = Some (VDict pd) /\
    dict_get "allow" pd = Some (VList (map of_atom written)) /\
    StronglySorted asc written /\
    (forall ps, written = map AStr ps ->
                StronglySorted (fun p q => String.ltb p q = true) ps) /\
    (forall a,
        set_mem a written = true <->
        set_mem a (allow_before (fs s) output_path) = true \/
        exists f, In f (discovered (fs s) root_dir) /\
                  set_mem a (allow_in (fs s) f) = true) /\
    (forall p,
        In (VStr p) (map of_atom written) <->
        In (AStr p) (allow_before (fs s) output_path) \/
        exists f, In f (discovered (fs s) root_dir) /\
                  In (AStr p) (allow_in (fs s) f)).
Proof.
  intro H. apply main_returns in H.
  destruct H as [_ [_ [_ [_ [evs0 [s2 [U ->]]]]]]].
  apply update_settings_file_written in U.
  destruct U as [d [pd [l [evs [Ev [Gp [Ps [CW [R ->]]]]]]]]].
  simpl fs in *.
  eexists. eexists. exists l.
  split; [apply stat_put_same|].
  split; [apply dict_get_set_same|].
  split; [now rewrite written_permissions|].
  assert (K : forall k,
             In k (keys l) <->
             In k (keys (allow_before (fs s) output_path)) \/
             exists f, In f (discovered (fs s) root_dir) /\
                       In k (keys (allow_in (fs s) f))).
  { intro k. rewrite (py_sorted_keys _ _ k Ps), set_union_keys, merged_of_keys.
    simpl. intuition. }
  assert (S : StronglySorted asc l).
  { eapply py_sorted_sorted; [exact Ps|].
    apply set_union_NoDup, allow_before_NoDup. }
  split; [exact S|].
  split; [intros ps ->; now apply asc_strings|].
  split.
  - intro a. rewrite set_mem_keys, K, set_mem_keys.
      split; (intros [A|[f [Hf A]]]; [now left | right; exists f]);
        (split; [assumption|]); now apply set_mem_keys.
  - intro p. change (VStr p) with (of_atom (AStr p)).
      rewrite In_of_atom, In_str_keys, K, <- In_str_keys.
      split; (intros [A|[f [Hf A]]]; [now left | right; exists f]);
        (split; [assumption|]); now apply In_str_keys.
Qed.


Lemma ensure_list_present (k : string) (p : list (string * value)) (x : value) :
  dict_get k p = Some x -> ensure_list k p = p.
Proof. unfold ensure_list. rewrite dict_mem_get. now intros ->. Qed.

(** The written document is a fixed point of the merge. *)
Lemma merged_document_again (d pd : list (string * value)) (l permissions : pyset) :
  let doc := VDict (dict_set "permissions"
                 (VDict (ensure_list "ask" (ensure_list "deny"
                    (dict_set "allow" (VList (map of_atom l)) pd))))
                 d) in
  StronglySorted asc l ->
  (forall x, In x permissions -> set_mem x l = true) ->
  allow_of doc = l /\ merged_document doc l permissions = Ret doc.
Proof.
  intros doc S A.
  set (x := VList (map of_atom l)).
  set (p3 := ensure_list "ask" (ensure_list "deny" (dict_set "allow" x pd))).
  assert (Ga : dict_get "allow" p3 = Some x)
    by (unfold p3; now rewrite written_permissions).
  assert (Gd : exists y, dict_get "deny" p3 = Some y)
    by (unfold p3; rewrite written_permissions; simpl; eauto).
  assert (Gk : exists y, dict_get "ask" p3 = Some y)
    by (unfold p3; rewrite written_permissions; simpl; eauto).
  assert (Gp : dict_get "permissions" (dict_set "permissions" (VDict p3) d)
               = Some (VDict p3)) by apply dict_get_set_same.
  split.
  - unfold doc, allow_of. fold x. fold p3. rewrite Gp, Ga.
    unfold x, py_set. rewrite traverse_of_atoms.
    apply set_of_list_fresh. now apply asc_NoDup.
  - unfold doc, merged_document. fold x. fold p3.
    rewrite (set_union_absorb _ _ A), (py_sorted_fixed _ S), Gp.
    fold x. rewrite (dict_set_same _ _ _ Ga).
    destruct Gd as [y Gd]. rewrite (ensure_list_present _ _ _ Gd).
    destruct Gk as [z Gk]. rewrite (ensure_list_present _ _ _ Gk).
    now rewrite dict_set_set.
Qed.

Lemma can_write_put (w : world) (p : Path) (content : string) :
  can_write w p = true -> can_write (put_file w p content) p = true.
Proof.
  unfold can_write. rewrite stat_put_same. simpl.
  intro H. apply andb_true_iff in H. destruct H as [H _]. now rewrite H.
Qed.

Lemma put_file_twice (w : world) (p : Path) (content : string) :
  put_file (put_file w p content) p content = put_file w p content.
Proof.
  unfold put_file. simpl. f_equal. apply assoc_set_set, path_eqb_eq.
Qed.

(** After a run of [update_settings_file] that wrote the output, provided
    [json.loads] reads the written text back as the document it was
    dumped from, a second run with the same permissions returns, leaves
    the file system as it is, and finds no new permission. *)
Lemma update_settings_file_twice
        (output_path : Path) (permissions : pyset) (s s1 s1' : state) :
  update_settings_file output_path permissions s = (Ret tt, s1) ->
  json_loads (file_text (existing_settings s1)) = Parsed (existing_settings s1) ->
  fs s1' = fs s1 ->
  exists s2 evs,
    update_settings_file output_path permissions s1' = (Ret tt, s2) /\
    fs s2 = fs s1 /\
    existing_settings s2 = existing_settings s1 /\
    set_diff permissions (allow_before (fs s1) output_path) = [] /\
    out s2 = out s1' ++ evs ++
             [ENoNew; EUpdated output_path;
              ETotal (List.length (allow_before (fs s1) output_path))].
Proof.
  intros U RT F.
  apply update_settings_file_written in U.
  destruct U as [d [pd [l [evs [Ev [Gp [Ps [CW [R ->]]]]]]]]].
  simpl in RT, F. simpl fs. simpl existing_settings.
  set (doc := VDict (dict_set "permissions"
                 (VDict (ensure_list "ask" (ensure_list "deny"
                    (dict_set "allow" (VList (map of_atom l)) pd))))
                 d)) in *.
  set (w1 := put_file (fs s) output_path (file_text doc)) in *.
  assert (S : StronglySorted asc l).
  { eapply py_sorted_sorted; [exact Ps|].
    apply set_union_NoDup, allow_before_NoDup. }
  assert (A : forall x, In x permissions -> set_mem x l = true).
  { intros x Hx. apply set_mem_keys. apply (py_sorted_keys _ _ _ Ps).
    apply set_union_keys. right. unfold keys. now apply in_map. }
  destruct (merged_document_again d pd l permissions S A) as [AO MD].
  fold doc in AO, MD.
  assert (ED : existing_document w1 output_path = Some doc).
  { unfold existing_document, w1. rewrite stat_put_same. now rewrite RT. }
  assert (SB : settings_before w1 output_path = doc)
    by (unfold settings_before; now rewrite ED).
  assert (AB : allow_before w1 output_path = l)
    by (unfold allow_before; now rewrite ED).
  destruct (update_settings_file_run output_path permissions s1') as [evs' [_ H]].
  simpl in H. rewrite F, SB, AB, MD in H.
  unfold w1 in H at 1. rewrite (can_write_put _ _ _ CW) in H. fold w1 in H.
  rewrite AB.
  eexists. exists evs'. split; [exact H|]. simpl.
  split; [apply put_file_twice|].
  split; [reflexivity|].
  split; [now apply set_diff_absorb|].
  unfold report. rewrite (set_diff_absorb _ _ A), (set_union_absorb _ _ A).
  reflexivity.
Qed.


(** *** The output file that does not parse *)

Lemma read_existing_repaired (output_path : Path) (w : world) (o : list event)
      (content msg : string) (v : value) :
  stat w output_path = Some (File content) ->
  json_loads content = Malformed msg ->
  json_loads (re_sub_trailing_commas content) = Parsed v ->
  existing_document w output_path = Some v /\
  exists evs,
    read_existing output_path (mkState w o (VDict []) []) =
    (Ret tt, mkState w (o ++ EFixed output_path :: evs) v (allow_of v)).
Proof.
  intros St P1 P2. split.
  - unfold existing_document. now rewrite St, P1, P2.
  - unfold read_existing. exec.
    destruct (read_existing_allow_run output_path w (o ++ [EFixed output_path]) v)
      as [evs [r [ea [E [[-> ->]|[e [-> [He [-> A]]]]]]]]];
      cbv [is_Exception] in *; rewrite E; exec.
    + exists evs. now rewrite <- app_assoc.
    + exists (evs ++ [EWarn e; EWillPreserve]). now rewrite <- !app_assoc.
Qed.

Lemma read_existing_unparseable (output_path : Path) (w : world) (o : list event)
      (content msg msg' : string) :
  stat w output_path = Some (File content) ->
  json_loads content = Malformed msg ->
  json_loads (re_sub_trailing_commas content) = Malformed msg' ->
  existing_document w output_path = None /\
  read_existing output_path (mkState w o (VDict []) []) =
  (Ret tt, mkState w (o ++ [EWarn (JSONDecodeError msg'); EWillPreserve])
                   (VDict []) []).
Proof.
  intros St P1 P2. split.
  - unfold existing_document. now rewrite St, P1, P2.
  - unfold read_existing. exec. now rewrite <- app_assoc.
Qed.

Lemma mkState_out_inv (w w' : world) (o evs evs' : list event)
      (v v' : value) (a a' : pyset) :
  mkState w (o ++ evs) v a = mkState w' (o ++ evs') v' a' -> evs = evs'.
Proof. intro H. inversion H. now apply app_inv_head in H2. Qed.

(** What is printed while the existing file is read comes first in the
    output of [update_settings_file], however the run ends. *)
Lemma update_settings_file_out (output_path : Path) (permissions : pyset)
      (s s' : state) (r : result unit) (evs : list event) (v : value) (a : pyset) :
  read_existing output_path (mkState (fs s) (out s) (VDict []) []) =
    (Ret tt, mkState (fs s) (out s ++ evs) v a) ->
  update_settings_file output_path permissions s = (r, s') ->
  exists evs', out s' = out s ++ evs ++ evs'.
Proof.
  intros R U.
  destruct (update_settings_file_run output_path permissions s) as [evs0 [R0 H]].
  simpl in H. rewrite R in R0. inversion R0 as [[E0 E1 E2]].
  apply app_inv_head in E0. subst evs0.
  destruct (merged_document _ _ _) as [doc|e].
  - destruct (can_write (fs s) output_path).
    + rewrite U in H. inversion H; subst. simpl. eauto.
    + destruct H as [s2 [e [H [_ O]]]]. rewrite U in H. inversion H; subst. eauto.
  - destruct H as [s2 [e' [H [_ O]]]]. rewrite U in H. inversion H; subst. eauto.
Qed.

(** C4.  The trailing-comma repair.  When the output file fails
    [json.loads] as it is but parses once [re.sub] has dropped the
    commas that stand, white space apart, before a closing bracket, the
    run prints the repair diagnostic, and when it writes, it writes the
    repaired document: every entry of its [permissions.allow] is in the
    written list and its other top-level fields are carried over. *)
Theorem update_settings_file_repairs
        (output_path : Path) (permissions : pyset) (s s' : state)
        (r : result unit) (content msg : string)
        (d0 pd0 : list (string * value)) (existing : list atom) :
  stat (fs s) output_path = Some (File content) ->
  json_loads content = Malformed msg ->
  json_loads (re_sub_trailing_commas content) = Parsed (VDict d0) ->
  dict_get "permissions" d0 = Some (VDict pd0) ->
  dict_get "allow" pd0 = Some (VList (map of_atom existing)) ->
  update_settings_file output_path permissions s = (r, s') ->
  (exists evs, out s' = out s ++ EFixed output_path :: evs) /\
  (r = Ret tt ->
   exists d pd written,
     stat (fs s') output_path = Some (File (file_text (VDict d))) /\
     dict_get "permissions" d = Some (VDict pd) /\
     dict_get "allow" pd = Some (VList (map of_atom written)) /\
     (forall a, In a existing -> set_mem a written = true) /\
     (forall p, In (AStr p) existing -> In (VStr p) (map of_atom written)) /\
     (forall k, k <> "permissions" -> dict_get k d = dict_get k d0)).
Proof.
  intros St P1 P2 Gp Ga U.
  destruct (read_existing_repaired output_path (fs s) (out s) _ _ _ St P1 P2)
    as [ED [evs R]].
  split.
  - destruct (update_settings_file_out _ _ _ _ _ _ _ _ R U) as [evs' O].
    exists (evs ++ evs'). now rewrite O.
  - intros ->. apply update_settings_file_written in U.
    destruct U as [d [pd [l [evs1 [Ev [Gp' [Ps [CW [_ ->]]]]]]]]].
    unfold settings_before in Ev. rewrite ED in Ev. inversion Ev; subst d.
    assert (AB : allow_before (fs s) output_path = set_of_list existing).
    { unfold allow_before, allow_of. rewrite ED, Gp, Ga.
      unfold py_set. now rewrite traverse_of_atoms. }
    rewrite AB in Ps.
    assert (K : forall a, In a existing -> In (key_of a) (keys l)).
    { intros a Ha. apply (py_sorted_keys _ _ _ Ps). apply set_union_keys.
      left. apply set_of_list_keys. unfold keys. now apply in_map. }
    eexists. eexists. exists l. simpl fs.
    split; [apply stat_put_same|].
    split; [apply dict_get_set_same|].
    split; [now rewrite written_permissions|].
    split; [intros a Ha; apply set_mem_keys; now apply K|].
    split.
    + intros p Hp. change (VStr p) with (of_atom (AStr p)).
      apply In_of_atom, In_str_keys. now apply (K (AStr p)).
    + intros k Hk. now apply dict_get_set_other.
Qed.

(** When neither the text nor its repair parses, the run warns, says
    that it will preserve the other settings, and writes a document
    that holds [permissions] alone: nothing of the file is kept. *)
Lemma update_settings_file_unparseable
      (output_path : Path) (permissions : pyset) (s s' : state)
      (content msg msg' : string) :
  stat (fs s) output_path = Some (File content) ->
  json_loads content = Malformed msg ->
  json_loads (re_sub_trailing_commas content) = Malformed msg' ->
  update_settings_file output_path permissions s = (Ret tt, s') ->
  exists written evs,
    py_sorted (set_union [] permissions) = Ret written /\
    stat (fs s') output_path =
      Some (File (file_text
         (VDict [("permissions",
                  VDict [("allow", VList (map of_atom written));
                         ("deny", VList []); ("ask", VList [])])]))) /\
    out s' = out s ++ EWarn (JSONDecodeError msg') :: EWillPreserve :: evs.
Proof.
  intros St P1 P2 U.
  destruct (read_existing_unparseable output_path (fs s) (out s) _ _ _ St P1 P2)
    as [ED R].
  destruct (update_settings_file_out _ _ _ _ _ _ _ _ R U) as [evs' O].
  apply update_settings_file_written in U.
  destruct U as [d [pd [l [evs1 [Ev [Gp' [Ps [CW [_ ->]]]]]]]]].
  unfold settings_before in Ev. unfold allow_before in Ps.
  rewrite ED in *. inversion Ev; subst d.
  destruct Gp' as [Gp'|[_ ->]]; [discriminate|].
  exists l, evs'. split; [exact Ps|]. simpl fs.
  split; [now rewrite stat_put_same|]. exact O.
Qed.


(** *** The claims about the input files *)

Lemma traverse_strings (l : list string) :
  traverse_atoms (map VStr l) = Ret (map AStr l).
Proof.
  rewrite <- (traverse_of_atoms (map AStr l)). f_equal.
  rewrite map_map. reflexivity.
Qed.

Lemma In_set_of_strings (l : list string) (p : string) :
  In (AStr p) (set_of_list (map AStr l)) <-> In p l.
Proof.
  rewrite In_str_keys, set_of_list_keys, <- In_str_keys, in_map_iff. split.
  - intros [q [E H]]. inversion E. now subst.
  - intro H. eauto.
Qed.

(** The allow list read from the output file: none when the file is
    absent, none when a key is missing, the strings of the list
    otherwise. *)
Lemma allow_before_absent (w : world) (output_path : Path) :
  stat w output_path = None ->
  allow_before w output_path = [] /\ settings_before w output_path = VDict [].
Proof.
  intro H. unfold allow_before, settings_before, existing_document.
  now rewrite H.
Qed.

Lemma allow_before_no_key (w : world) (output_path : Path)
      (d : list (string * value)) :
  existing_document w output_path = Some (VDict d) ->
  (dict_get "permissions" d = None \/
   exists pd, dict_get "permissions" d = Some (VDict pd) /\
              dict_get "allow" pd = None) ->
  allow_before w output_path = [].
Proof.
  intros E H. unfold allow_before, allow_of. rewrite E.
  destruct H as [->|[pd [-> ->]]]; reflexivity.
Qed.

Lemma allow_before_strings (w : world) (output_path : Path)
      (d pd : list (string * value)) (l : list string) :
  existing_document w output_path = Some (VDict d) ->
  dict_get "permissions" d = Some (VDict pd) ->
  dict_get "allow" pd = Some (VList (map VStr l)) ->
  forall p, In (AStr p) (allow_before w output_path) <-> In p l.
Proof.
  intros E Gp Ga p. unfold allow_before, allow_of. rewrite E, Gp, Ga.
  unfold py_set. rewrite traverse_strings. apply In_set_of_strings.
Qed.

(** C8.  The extractor on valid JSON.  [extract_allow_permissions]
    always returns a set and never raises.  For a file that parses to an
    object whose [permissions.allow] is a list of strings, it returns the
    set of those strings (each once) and prints nothing; when the
    [permissions] key or the [allow] key is absent it returns the empty
    set, again without a diagnostic. *)
Theorem extract_allow_permissions_valid (file_path : Path) (s : state) :
  (exists evs,
      extract_allow_permissions file_path s =
      (Ret (allow_in (fs s) file_path), emit evs s)) /\
  (forall (content : string) (d : list (string * value)) (l : list string),
      stat (fs s) file_path = Some (File content) ->
      json_loads content = Parsed (VDict d) ->
      ((dict_get "permissions" d = None /\ l = []) \/
       exists pd,
         dict_get "permissions" d = Some (VDict pd) /\
         ((dict_get "allow" pd = None /\ l = []) \/
          dict_get "allow" pd = Some (VList (map VStr l)))) ->
      extract_allow_permissions file_path s =
        (Ret (set_of_list (map AStr l)), s) /\
      (forall p, In (AStr p) (set_of_list (map AStr l)) <-> In p l) /\
      NoDup (set_of_list (map AStr l))).
Proof.
  split; [apply extract_allow_permissions_run|].
  intros content d l St P H.
  split; [|split; [intro p; apply In_set_of_strings|]].
  - destruct (extract_allow_permissions_run file_path s) as [evs E].
    assert (A : allow_in (fs s) file_path = set_of_list (map AStr l)).
    { unfold allow_in. rewrite St, P. unfold py_get.
      destruct H as [[-> ->] | [pd [-> [[-> ->] | -> ]]]]; try reflexivity.
      unfold py_set. now rewrite traverse_strings. }
    rewrite <- A. clear E evs.
    destruct s as [w o es ea]. simpl fs in *.
    unfold allow_in. rewrite St, P.
    unfold extract_allow_permissions. exec.
    destruct H as [[G ->]|[pd [G [[G' ->]|G']]]]; exec;
      try (change (dict_get "allow" []) with (@None value); exec);
      try (change (py_set (VList [])) with (@Ret pyset []); exec);
      try reflexivity.
    unfold py_set. rewrite traverse_strings. exec. reflexivity.
  - eapply NoDup_map_inv. apply set_of_list_NoDup.
Qed.

Lemma merged_of_nothing (w : world) (settings_files : list Path) :
  (forall f, In f settings_files -> allow_in w f = []) ->
  merged_of w settings_files [] = [].
Proof.
  unfold merged_of. induction settings_files as [|f files IH]; intro H; simpl.
  - reflexivity.
  - rewrite (H f (or_introl eq_refl)). simpl. apply IH.
    intros g Hg. apply H. now right.
Qed.

(** C7.  Nothing found.  When the root is a directory and no input file
    is discovered, or no discovered file yields a permission, [main]
    prints the informational line and ends with [sys.exit(0)]; the file
    system, the output file in it, is as it was. *)
Theorem main_nothing_found (root_dir output_path : Path) (verbose : bool)
        (s : state) :
  stat (fs s) root_dir = Some Dir ->
  (discovered (fs s) root_dir = [] \/
   forall f, In f (discovered (fs s) root_dir) -> allow_in (fs s) f = []) ->
  exists s' evs,
    main root_dir output_path verbose s = (Raise (SystemExit 0), s') /\
    exit_status (fst (main root_dir output_path verbose s)) = 0%Z /\
    fs s' = fs s /\
    out s' = out s ++ evs /\
    (In ENoFiles evs \/ In ENoPermissions evs).
Proof.
  intros St H.
  assert (M : discovered (fs s) root_dir = [] \/
              merged_of (fs s) (discovered (fs s) root_dir) [] = []).
  { destruct H as [H|H]; [now left | right; now apply merged_of_nothing]. }
  clear H.
  destruct (main_cases root_dir output_path verbose s) as [r [s' [Hm C]]].
  simpl in C. rewrite Hm. simpl.
  destruct C as [[N _]|[[_ [E [-> ->]]]|[[_ [_ [E [-> [evs ->]]]]]|
                [[_ [_ [N _]]]|[_ [N1 [N2 _]]]]]]].
  - contradiction.
  - exists (emit [ESearching root_dir; ERule; ENoFiles] s),
           [ESearching root_dir; ERule; ENoFiles].
    simpl. auto 10.
  - exists (emit (evs ++ [ENoPermissions]) s), (evs ++ [ENoPermissions]).
    simpl. repeat split; auto. right. apply in_or_app. right. now left.
  - destruct M as [M|M]; [|contradiction].
    rewrite M in N. simpl in N. contradiction.
  - destruct M as [M|M]; contradiction.
Qed.


Lemma set_add_strings (x : atom) (s : pyset) :
  is_str x = true -> forallb is_str s = true ->
  forallb is_str (set_add x s) = true.
Proof.
  intros Hx Hs. unfold set_add. destruct (set_mem x s); [assumption|].
  rewrite forallb_app, Hs. simpl. now rewrite Hx.
Qed.

Lemma set_union_strings (t s : pyset) :
  forallb is_str s = true -> forallb is_str t = true ->
  forallb is_str (set_union s t) = true.
Proof.
  unfold set_union. revert s. induction t as [|x t IH]; intros s Hs Ht; simpl.
  - assumption.
  - simpl in Ht. apply andb_true_iff in Ht. destruct Ht as [Hx Ht].
    apply IH; [now apply set_add_strings | assumption].
Qed.

Lemma merged_of_strings (w : world) (settings_files : list Path) (acc : pyset) :
  forallb is_str acc = true ->
  (forall f, In f settings_files -> forallb is_str (allow_in w f) = true) ->
  forallb is_str (merged_of w settings_files acc) = true.
Proof.
  unfold merged_of. revert acc.
  induction settings_files as [|f files IH]; intros acc Ha H; simpl.
  - assumption.
  - apply IH.
    + apply set_union_strings; [assumption | apply H; now left].
    + intros g Hg. apply H. now right.
Qed.

(** The writer succeeds on a settings document and permission strings. *)
Lemma merged_document_strings (d : list (string * value)) (ea permissions : pyset) :
  (dict_get "permissions" d = None \/
   exists pd, dict_get "permissions" d = Some (VDict pd)) ->
  forallb is_str ea = true -> forallb is_str permissions = true ->
  exists doc, merged_document (VDict d) ea permissions = Ret doc.
Proof.
  intros Gp He Hp. unfold merged_document.
  destruct (py_sorted_strings (set_union ea permissions)) as [l [-> _]].
  { now apply set_union_strings. }
  destruct Gp as [->|[pd ->]]; eauto.
Qed.

(** A file in order holds what its allow list holds. *)
Lemma allow_in_valid (w : world) (f : Path) (text : string)
      (d pd : list (string * value)) (l : list string) :
  stat w f = Some (File text) ->
  json_loads text = Parsed (VDict d) ->
  dict_get "permissions" d = Some (VDict pd) ->
  dict_get "allow" pd = Some (VList (map VStr l)) ->
  allow_in w f = set_of_list (map AStr l).
Proof.
  intros St P Gp Ga. unfold allow_in. rewrite St, P. simpl.
  rewrite Gp. simpl. rewrite Ga. simpl. now rewrite traverse_strings.
Qed.

(** C5.  A malformed input file is skipped.  For an input file whose
    text [json.loads] rejects, [extract_allow_permissions] prints the
    diagnostic that names the file and the parse error and returns the
    empty set.  [merge_permissions] then returns, for any list of
    files, a set that holds nothing but what the other files hold, and
    that holds every string of the allow list of every file in order.
    And whenever the root is a directory, the output can be written,
    the output file held a settings document (or nothing) and the
    permissions are strings, the run ends with status 0, and every
    string of the allow list of a discovered file in order stands in
    the allow list of the output file afterwards: no malformed input
    makes the run fail or takes a permission of another file away. *)
Theorem malformed_input_is_skipped
        (root_dir output_path : Path) (verbose : bool) (s : state)
        (bad : Path) (content msg : string) :
  stat (fs s) bad = Some (File content) ->
  json_loads content = Malformed msg ->
  extract_allow_permissions bad s =
    (Ret [], emit [EParseError bad (JSONDecodeError msg)] s) /\
  (forall settings_files,
      exists evs,
        merge_permissions settings_files root_dir s =
          (Ret (merged_of (fs s) settings_files []), emit evs s) /\
        (forall a,
            set_mem a (merged_of (fs s) settings_files []) = true <->
            exists f, In f settings_files /\ f <> bad /\
                      set_mem a (allow_in (fs s) f) = true) /\
        (forall f text d pd l,
            In f settings_files ->
            stat (fs s) f = Some (File text) ->
            json_loads text = Parsed (VDict d) ->
            dict_get "permissions" d = Some (VDict pd) ->
            dict_get "allow" pd = Some (VList (map VStr l)) ->
            forall p, In p l ->
                      In (AStr p) (merged_of (fs s) settings_files []))) /\
  (stat (fs s) root_dir = Some Dir ->
   can_write (fs s) output_path = true ->
   (exists d, settings_before (fs s) output_path = VDict d /\
              (dict_get "permissions" d = None \/
               exists pd, dict_get "permissions" d = Some (VDict pd))) ->
   forallb is_str (allow_before (fs s) output_path) = true ->
   (forall f, In f (discovered (fs s) root_dir) ->
              forallb is_str (allow_in (fs s) f) = true) ->
   exit_status (fst (main root_dir output_path verbose s)) = 0%Z /\
   (forall f text d pd l,
       In f (discovered (fs s) root_dir) ->
       stat (fs s) f = Some (File text) ->
       json_loads text = Parsed (VDict d) ->
       dict_get "permissions" d = Some (VDict pd) ->
       dict_get "allow" pd = Some (VList (map VStr l)) ->
       forall p, In p l ->
       exists s' d' pd' written,
         main root_dir output_path verbose s = (Ret tt, s') /\
         stat (fs s') output_path = Some (File (file_text (VDict d'))) /\
         dict_get "permissions" d' = Some (VDict pd') /\
         dict_get "allow" pd' = Some (VList written) /\
         In (VStr p) written)).
Proof.
  intros St P.
  assert (B : allow_in (fs s) bad = []).
  { unfold allow_in. now rewrite St, P. }
  assert (V : forall files f text d pd l,
             In f files ->
             stat (fs s) f = Some (File text) ->
             json_loads text = Parsed (VDict d) ->
             dict_get "permissions" d = Some (VDict pd) ->
             dict_get "allow" pd = Some (VList (map VStr l)) ->
             forall p, In p l -> In (AStr p) (merged_of (fs s) files [])).
  { intros files f text d pd l Hf Sf Pf Gp Ga p Hp.
    apply In_str_keys, merged_of_keys. right. exists f.
    split; [assumption|]. apply In_str_keys.
    rewrite (allow_in_valid _ _ _ _ _ _ Sf Pf Gp Ga).
    now apply In_set_of_strings. }
  split; [|split].
  - destruct s as [w o es ea]. simpl fs in *.
    unfold extract_allow_permissions. exec. reflexivity.
  - intro files. unfold merge_permissions.
    destruct (merge_loop_run root_dir files [] s) as [evs E].
    exists evs. split; [exact E|]. split; [|apply V].
    intro a. rewrite set_mem_keys, merged_of_keys. simpl. split.
    + intros [[]|[f [Hf A]]]. exists f. split; [assumption|]. split.
      * intros ->. rewrite B in A. contradiction.
      * now apply set_mem_keys.
    + intros [f [Hf [_ A]]]. right. exists f. split; [assumption|].
      now apply set_mem_keys.
  - intros Sr CW [d [Ev Gp]] Hb Hf.
    set (merged := merged_of (fs s) (discovered (fs s) root_dir) []).
    assert (Hm : forallb is_str merged = true)
      by (apply merged_of_strings; auto).
    destruct (merged_document_strings d _ merged Gp Hb Hm) as [doc MD].
    destruct (main_cases root_dir output_path verbose s) as [r [s' [M C]]].
    simpl in C. fold merged in C. rewrite M. simpl.
    destruct C as [[N _]|[[_ [Nf [-> _]]]|[[_ [_ [Nm [-> _]]]]|
                  [[_ [_ [_ [_ [Ps _]]]]]|
                   [_ [_ [_ [_ [evs0 [s2 [ru [U C]]]]]]]]]]]].
    + contradiction.
    + split; [reflexivity|]. intros f text d0 pd l If. rewrite Nf in If.
      destruct If.
    + split; [reflexivity|]. intros f text d0 pd l If Sf Pf Gp0 Ga p Hp.
      pose proof (V _ f text d0 pd l If Sf Pf Gp0 Ga p Hp) as I.
      fold merged in I. rewrite Nm in I. destruct I.
    + destruct (py_sorted_strings merged Hm) as [l [E _]]. congruence.
    + destruct (update_settings_file_run output_path merged (emit evs0 s))
        as [evs [_ H]].
      simpl in H. rewrite Ev, CW, MD in H. rewrite U in H.
      inversion H; subst ru s2.
      destruct C as [[_ [-> ->]]|[e [C _]]]; [|discriminate].
      split; [reflexivity|].
      intros f text d0 pd l If Sf Pf Gp0 Ga p Hp.
      pose proof (V _ f text d0 pd l If Sf Pf Gp0 Ga p Hp) as I.
      fold merged in I.
      apply merged_document_inv in MD.
      destruct MD as [d1 [pd1 [sorted_allow [Ed [_ [Ps ->]]]]]].
      eexists. eexists. eexists. exists (map of_atom sorted_allow).
      split; [reflexivity|]. simpl fs.
      split; [apply stat_put_same|].
      split; [apply dict_get_set_same|].
      split; [now rewrite written_permissions|].
      change (VStr p) with (of_atom (AStr p)).
      apply In_of_atom, In_str_keys. apply (py_sorted_keys _ _ _ Ps).
      apply set_union_keys. right. now apply In_str_keys.
Qed.


(** *** The discoverer *)

Lemma string_compare_refl (a : string) : String.compare a a = Eq.
Proof.
  induction a as [|c a IH]; simpl; [reflexivity|].
  unfold Ascii.compare. now rewrite N.compare_refl.
Qed.

Lemma string_compare_lt_trans (a b c : string) :
  String.compare a b = Lt -> String.compare b c = Lt -> String.compare a c = Lt.
Proof.
  intros H1 H2. apply String_as_OT.cmp_lt.
  apply String_as_OT.cmp_lt in H1, H2.
  eapply String_as_OT.lt_trans; eassumption.
Qed.

Lemma path_compare_eq (p q : Path) : path_compare p q = Eq -> p = q.
Proof.
  revert q. induction p as [|a p IH]; destruct q as [|b q]; simpl;
    intro H; try discriminate; [reflexivity|].
  destruct (String.compare a b) eqn:E; try discriminate.
  apply String.compare_eq_iff in E. subst b. f_equal. now apply IH.
Qed.

Lemma path_compare_antisym (p q : Path) :
  path_compare p q = CompOpp (path_compare q p).
Proof.
  revert q. induction p as [|a p IH]; destruct q as [|b q]; simpl;
    try reflexivity.
  rewrite (String.compare_antisym b a).
  destruct (String.compare a b); simpl; [apply IH | reflexivity | reflexivity].
Qed.

Lemma path_compare_lt_trans (p q r : Path) :
  path_compare p q = Lt -> path_compare q r = Lt -> path_compare p r = Lt.
Proof.
  revert q r. induction p as [|a p IH]; intros [|b q] [|c r]; simpl;
    intros H1 H2; try discriminate; try reflexivity.
  destruct (String.compare a b) eqn:E1; try discriminate;
    destruct (String.compare b c) eqn:E2; try discriminate.
  - apply String.compare_eq_iff in E1, E2. subst.
    rewrite string_compare_refl. eapply IH; eassumption.
  - apply String.compare_eq_iff in E1. subst. now rewrite E2.
  - apply String.compare_eq_iff in E2. subst. now rewrite E1.
  - now rewrite (string_compare_lt_trans _ _ _ E1 E2).
Qed.

Lemma path_le_compare (p q : Path) : path_le p q <-> path_compare p q <> Gt.
Proof.
  unfold path_le, path_ltb. rewrite (path_compare_antisym q p).
  destruct (path_compare p q); simpl; split; intro H;
    try reflexivity; try discriminate; try (intro; discriminate).
  now contradiction H.
Qed.

Lemma path_le_trans (p q r : Path) : path_le p q -> path_le q r -> path_le p r.
Proof.
  rewrite !path_le_compare.
  destruct (path_compare p q) eqn:E1; intros H1 H2; try now contradiction H1.
  - apply path_compare_eq in E1. now subst.
  - destruct (path_compare q r) eqn:E2; try now contradiction H2.
    + apply path_compare_eq in E2. subst. now rewrite E1.
    + now rewrite (path_compare_lt_trans _ _ _ E1 E2).
Qed.

Lemma path_ltb_le (p q : Path) : path_ltb p q = true -> path_le p q.
Proof.
  unfold path_le, path_ltb. rewrite (path_compare_antisym q p).
  destruct (path_compare p q); simpl; intro H; try discriminate; reflexivity.
Qed.

Lemma path_insert_perm (x : Path) (l : list Path) :
  Permutation (x :: l) (path_insert x l).
Proof.
  induction l as [|y l IH]; simpl; [apply Permutation_refl|].
  destruct (path_ltb y x); [|apply Permutation_refl].
  eapply perm_trans; [apply perm_swap|]. now apply perm_skip.
Qed.

Lemma path_sort_perm (l : list Path) : Permutation l (path_sort l).
Proof.
  induction l as [|x l IH]; simpl; [constructor|].
  eapply perm_trans; [|apply path_insert_perm]. now apply perm_skip.
Qed.

Lemma path_insert_sorted (x : Path) (l : list Path) :
  StronglySorted path_le l -> StronglySorted path_le (path_insert x l).
Proof.
  induction l as [|y l IH]; intro S; simpl.
  - repeat constructor.
  - apply StronglySorted_inv in S. destruct S as [S F].
    destruct (path_ltb y x) eqn:L.
    + constructor; [now apply IH|].
      eapply Permutation_Forall; [apply path_insert_perm|].
      constructor; [now apply path_ltb_le | assumption].
    + constructor; [now constructor|].
      constructor; [exact L|].
      eapply Forall_impl; [|exact F].
      intros z Hz. eapply path_le_trans; [exact L | exact Hz].
Qed.

Lemma path_sort_sorted (l : list Path) : StronglySorted path_le (path_sort l).
Proof.
  induction l as [|x l IH]; simpl; [constructor | now apply path_insert_sorted].
Qed.

Lemma relative_to_app (root p rel : Path) :
  relative_to root p = Some rel <-> p = root ++ rel.
Proof.
  revert p. induction root as [|a root IH]; intro p; simpl.
  - split; intro H; [now inversion H | now subst].
  - destruct p as [|b p]; [split; intro H; discriminate|].
    destruct (String.eqb a b) eqn:E.
    + apply String.eqb_eq in E. subst b. rewrite IH.
      split; intro H; [now subst | now inversion H].
    + apply String.eqb_neq in E. split; intro H; [discriminate|].
      inversion H. congruence.
Qed.

Lemma ends_with_app (tail p : Path) :
  ends_with tail p = true <-> exists mid, p = mid ++ tail.
Proof.
  induction p as [|a p IH]; simpl.
  - rewrite orb_false_r, path_eqb_eq. split.
    + intros ->. now exists [].
    + intros [mid H]. symmetry in H. apply app_eq_nil in H. now destruct H.
  - rewrite orb_true_iff, path_eqb_eq, IH. split.
    + intros [->|[mid ->]]; [now exists [] | now exists (a :: mid)].
    + intros [[|b mid] H]; simpl in H; [now left|].
      inversion H; subst. right. now exists mid.
Qed.

Lemma glob_rec_In (w : world) (root tail p : Path) :
  In p (glob_rec w root tail) <->
  In p (map fst (tree w)) /\ exists mid, p = root ++ mid ++ tail.
Proof.
  unfold glob_rec. rewrite filter_In. split.
  - intros [H M]. split; [assumption|].
    destruct (relative_to root p) as [rel|] eqn:R; [|discriminate].
    apply relative_to_app in R. apply ends_with_app in M.
    destruct M as [mid ->]. now exists mid.
  - intros [H [mid E]]. split; [assumption|].
    assert (R : relative_to root p = Some (mid ++ tail))
      by now apply relative_to_app.
    rewrite R. apply ends_with_app. now exists mid.
Qed.

(** C9, as the code has it.  [find_settings_files] returns, without
    raising, every existing path beneath the root whose last two
    components are [.claude] and [settings.local.json], each as often as
    the scan meets it, in ascending order of paths: the order of the
    component sequences, which is not the order of the path strings.
    When no path matches it returns the empty list. *)
Theorem find_settings_files_sorted (root_dir : Path) (s : state) :
  find_settings_files root_dir s = (Ret (discovered (fs s) root_dir), s) /\
  Permutation (glob_rec (fs s) root_dir [".claude"; "settings.local.json"])
              (discovered (fs s) root_dir) /\
  (forall p,
      In p (discovered (fs s) root_dir) <->
      In p (map fst (tree (fs s))) /\
      exists mid, p = root_dir ++ mid ++ [".claude"; "settings.local.json"]) /\
  StronglySorted path_le (discovered (fs s) root_dir) /\
  ((forall p, In p (map fst (tree (fs s))) ->
              forall mid, p <> root_dir ++ mid ++ [".claude"; "settings.local.json"]) ->
   find_settings_files root_dir s = (Ret [], s)).
Proof.
  assert (P : Permutation (glob_rec (fs s) root_dir [".claude"; "settings.local.json"])
                          (discovered (fs s) root_dir))
    by apply path_sort_perm.
  split; [reflexivity|]. split; [exact P|]. split; [|split].
  - intro p. rewrite <- glob_rec_In. split; apply Permutation_in;
      [now apply Permutation_sym | assumption].
  - apply path_sort_sorted.
  - intro H. unfold find_settings_files, bind, get, ret.
    destruct (glob_rec (fs s) root_dir [".claude"; "settings.local.json"])
      as [|p l] eqn:G; [reflexivity|].
    exfalso. assert (I : In p (glob_rec (fs s) root_dir
                                 [".claude"; "settings.local.json"]))
      by (rewrite G; now left).
    apply glob_rec_In in I. destruct I as [I [mid E]]. exact (H p I mid E).
Qed.


(** *** A second run *)

Lemma glob_rec_put (w : world) (root tail output_path : Path) (content : string) :
  (forall mid, output_path <> root ++ mid ++ tail) ->
  glob_rec (put_file w output_path content) root tail = glob_rec w root tail.
Proof.
  intro N. unfold glob_rec, put_file. simpl tree.
  rewrite (assoc_set_keys path_eqb).
  destruct (assoc_mem path_eqb output_path (tree w)); [reflexivity|].
  rewrite filter_app. simpl.
  destruct (relative_to root output_path) as [rel|] eqn:R;
    [|now rewrite app_nil_r].
  destruct (ends_with tail rel) eqn:E; [|now rewrite app_nil_r].
  exfalso. apply relative_to_app in R. apply ends_with_app in E.
  destruct E as [mid ->]. exact (N mid R).
Qed.

Lemma allow_in_put (w : world) (output_path f : Path) (content : string) :
  f <> output_path -> allow_in (put_file w output_path content) f = allow_in w f.
Proof. intro N. unfold allow_in. now rewrite stat_put_other. Qed.

Lemma merged_of_ext (w w' : world) (settings_files : list Path) (acc : pyset) :
  (forall f, In f settings_files -> allow_in w' f = allow_in w f) ->
  merged_of w' settings_files acc = merged_of w settings_files acc.
Proof.
  unfold merged_of. revert acc.
  induction settings_files as [|f files IH]; intros acc H; simpl.
  - reflexivity.
  - rewrite (H f (or_introl eq_refl)). apply IH.
    intros g Hg. apply H. now right.
Qed.

(** Writing an output file that is no input leaves the inputs as they
    were. *)
Lemma inputs_after_put (w : world) (root_dir output_path : Path) (content : string) :
  (forall mid, output_path <> root_dir ++ mid ++ [".claude"; "settings.local.json"]) ->
  discovered (put_file w output_path content) root_dir = discovered w root_dir /\
  merged_of (put_file w output_path content) (discovered w root_dir) [] =
  merged_of w (discovered w root_dir) [].
Proof.
  intro N. split.
  - unfold discovered. now rewrite glob_rec_put.
  - apply merged_of_ext. intros f Hf. apply allow_in_put. intros ->.
    apply (Permutation_in _ (Permutation_sym (path_sort_perm _))) in Hf.
    apply glob_rec_In in Hf. destruct Hf as [_ [mid E]]. exact (N mid E).
Qed.

(** C3.  Idempotence.  After a run of [main] that completed, with the
    output file no input file itself and [json.loads] reading the written
    text back as the document it was dumped from, a second run on the
    file system the first one left completes too, leaves the file system
    (so the output document and its [permissions.allow]) exactly as it
    was, finds no new permission ([permissions - existing_allow] is
    empty) and prints that there is none. *)
Theorem main_idempotent
        (root_dir output_path : Path) (verbose : bool) (s s1 s1' : state) :
  main root_dir output_path verbose s = (Ret tt, s1) ->
  (forall mid,
      output_path <> root_dir ++ mid ++ [".claude"; "settings.local.json"]) ->
  json_loads (file_text (existing_settings s1)) = Parsed (existing_settings s1) ->
  fs s1' = fs s1 ->
  exists s2 evs,
    main root_dir output_path verbose s1' = (Ret tt, s2) /\
    fs s2 = fs s1 /\
    existing_settings s2 = existing_settings s1 /\
    set_diff (merged_of (fs s1') (discovered (fs s1') root_dir) [])
             (allow_before (fs s1') output_path) = [] /\
    out s2 = out s1' ++ evs /\
    In ENoNew evs.
Proof.
  intros H N RT F.
  apply main_returns in H.
  destruct H as [St [Nf [Nm [V [evs0 [sb [U ->]]]]]]].
  simpl in RT, F. simpl fs. simpl existing_settings.
  pose proof (update_settings_file_written _ _ _ _ U)
    as [d [pd [l [evs1 [Ev [Gp [Ps [CW [R E]]]]]]]]].
  simpl fs in *.
  assert (Fb : fs sb = put_file (fs s) output_path (file_text (existing_settings sb)))
    by (rewrite E; reflexivity).
  destruct (inputs_after_put (fs s) root_dir output_path
              (file_text (existing_settings sb)) N) as [D M].
  rewrite <- Fb in D, M. rewrite <- F in D, M.
  assert (St' : stat (fs s1') root_dir = Some Dir).
  { rewrite F, Fb. rewrite stat_put_other; [assumption|].
    intros ->. unfold can_write in CW. rewrite St in CW.
    now rewrite andb_false_r in CW. }
  destruct (main_cases root_dir output_path verbose s1') as [r [s2 [Hm C]]].
  simpl in C. rewrite D, M in C.
  destruct C as [[X _]|[[_ [X _]]|[[_ [_ [X _]]]|[[_ [_ [_ [Vt [X _]]]]]|
                [_ [_ [_ [_ [evs2 [s3 [ru [U2 C]]]]]]]]]]]].
  - contradiction.
  - contradiction.
  - contradiction.
  - destruct (V Vt) as [l' X']. congruence.
  - destruct (update_settings_file_twice _ _ _ _ (emit evs2 s1') U RT)
      as [s4 [evs4 [U4 [F4 [E4 [Df O4]]]]]]; [simpl; exact F|].
    rewrite D, M, F.
    rewrite U4 in U2. inversion U2; subst ru s3. clear U2.
    destruct C as [[_ [-> ->]]|[e [X _]]]; [|discriminate].
    eexists.
    exists (evs2 ++ evs4 ++
            [ENoNew; EUpdated output_path;
             ETotal (List.length (allow_before (fs sb) output_path))] ++
            summary (List.length (discovered (fs s) root_dir))
              (List.length (merged_of (fs s) (discovered (fs s) root_dir) []))
              output_path).
    split; [exact Hm|]. simpl.
    split; [exact F4|]. split; [exact E4|]. split; [exact Df|].
    rewrite O4. simpl. split.
    + now rewrite <- !app_assoc.
    + apply in_or_app. right. apply in_or_app. right. now left.
Qed.

(** *** How [update_settings_file] ends *)

(** When the document cannot be built or the file cannot be opened, the
    handler of line 180 prints the exception and exits: a [TypeError]
    from lines 149-163, the [OSError] of [open] otherwise. *)
Lemma update_settings_file_fails (output_path : Path) (permissions : pyset)
      (s : state) :
  let v := settings_before (fs s) output_path in
  let ea := allow_before (fs s) output_path in
  (forall doc, merged_document v ea permissions = Ret doc ->
               can_write (fs s) output_path = false) ->
  exists evs s',
    read_existing output_path (mkState (fs s) (out s) (VDict []) []) =
      (Ret tt, mkState (fs s) (out s ++ evs) v ea) /\
    update_settings_file output_path permissions s =
      (Raise (SystemExit 1), s') /\
    fs s' = fs s /\
    out s' = out s ++ evs ++
             [EWriteError match merged_document v ea permissions with
                          | Ret _ => OSError
                          | Raise _ => TypeError
                          end].
Proof.
  destruct s as [w o es0 ea0]. simpl fs. simpl out. intros v ea NW.
  destruct (read_existing_run output_path (mkState w o (VDict []) [])
              eq_refl eq_refl) as [evs R].
  simpl in R. fold v ea in R. exists evs.
  pose proof (merge_and_write_run output_path permissions
                (mkState w (o ++ evs) v ea)) as W.
  simpl in W.
  unfold update_settings_file.
  cbv beta iota zeta delta
      [bind try_except assign_existing_settings assign_existing_allow
       fs out existing_settings existing_allow].
  rewrite R.
  destruct (merged_document v ea permissions) as [doc|e] eqn:MD.
  - rewrite (NW doc eq_refl) in W.
    destruct W as [[w' o' es' ea'] [W [F O]]]. simpl in F, O. subst.
    rewrite W. exec.
    eexists. split; [reflexivity|]. split; [reflexivity|]. simpl.
    rewrite <- app_assoc. auto.
  - destruct W as [[w' o' es' ea'] [W [F O]]]. simpl in F, O. subst.
    rewrite W.
    assert (e = TypeError) as ->.
    { unfold merged_document in MD. destruct v; try now inversion MD.
      destruct (py_sorted (set_union ea permissions)) eqn:Ps.
      - destruct (dict_get "permissions" d) as [[]|]; now inversion MD.
      - inversion MD; subst. now apply py_sorted_raises in Ps. }
    exec. eexists. split; [reflexivity|]. split; [reflexivity|]. simpl.
    rewrite <- app_assoc. auto.
Qed.

(** X1.  [update_settings_file] lets no exception but [SystemExit(1)]
    out.  A call either returns, and then the output path could be
    opened and the file system differs from the one before by that one
    file; or it raises [SystemExit(1)], and then the last line printed
    is the error line of line 181: whatever is raised inside the [try]
    of line 104 is caught by line 180. *)
Theorem update_settings_file_returns_or_exits
        (output_path : Path) (permissions : pyset) (s s' : state)
        (r : result unit) :
  update_settings_file output_path permissions s = (r, s') ->
  (r = Ret tt /\ can_write (fs s) output_path = true /\
   exists content, fs s' = put_file (fs s) output_path content)
  \/
  (r = Raise (SystemExit 1) /\
   exists evs e, out s' = out s ++ evs ++ [EWriteError e]).
Proof.
  intro U.
  destruct (update_settings_file_run output_path permissions s) as [evs [_ H]].
  simpl in H.
  destruct (merged_document (settings_before (fs s) output_path)
              (allow_before (fs s) output_path) permissions) as [doc|e0];
    [destruct (can_write (fs s) output_path) eqn:CW|].
  - rewrite U in H. inversion H; subst.
    left. repeat split. eexists. reflexivity.
  - destruct H as [s2 [e [H [_ O]]]]. rewrite U in H. inversion H; subst.
    right. split; [reflexivity|]. eauto.
  - destruct H as [s2 [e [H [_ O]]]]. rewrite U in H. inversion H; subst.
    right. split; [reflexivity|]. eauto.
Qed.

(** X2.  The output path cannot be opened for writing (a directory, a
    missing parent, no permission): the call ends with [SystemExit(1)]
    after the error line and changes no file.  When the document itself
    was in order the error printed is the [OSError] of [open]. *)
Theorem update_settings_file_write_refused
        (output_path : Path) (permissions : pyset) (s : state) :
  can_write (fs s) output_path = false ->
  exists s' evs e,
    update_settings_file output_path permissions s =
      (Raise (SystemExit 1), s') /\
    fs s' = fs s /\
    out s' = out s ++ evs ++ [EWriteError e] /\
    ((exists doc, merged_document (settings_before (fs s) output_path)
                    (allow_before (fs s) output_path) permissions = Ret doc) ->
     e = OSError).
Proof.
  intro CW.
  destruct (update_settings_file_fails output_path permissions s)
    as [evs [s2 [_ [H [F O]]]]].
  { intros doc' _. exact CW. }
  exists s2, evs. eexists. split; [exact H|]. split; [exact F|].
  split; [exact O|]. intros [doc MD]. now rewrite MD.
Qed.

(** X3.  An output file that holds JSON which is no settings document.
    When the file parses (as it is or after the repair) to something
    other than an object, or to an object whose [permissions] is no
    object, lines 150-157 raise a [TypeError]: the call prints the error
    line, ends with [SystemExit(1)] and leaves the file as it was. *)
Theorem update_settings_file_not_an_object
        (output_path : Path) (permissions : pyset) (s : state) (v : value) :
  existing_document (fs s) output_path = Some v ->
  ((forall d, v <> VDict d) \/
   exists d x, v = VDict d /\ dict_get "permissions" d = Some x /\
               forall pd, x <> VDict pd) ->
  exists s' evs,
    update_settings_file output_path permissions s =
      (Raise (SystemExit 1), s') /\
    fs s' = fs s /\
    out s' = out s ++ evs ++ [EWriteError TypeError].
Proof.
  intros E H.
  assert (MD : exists e, merged_document (settings_before (fs s) output_path)
                 (allow_before (fs s) output_path) permissions = Raise e).
  { unfold settings_before. rewrite E. unfold merged_document.
    destruct H as [H|[d [x [-> [G H]]]]].
    - destruct v; try (eexists; reflexivity). now destruct (H d).
    - rewrite G.
      destruct (py_sorted (set_union (allow_before (fs s) output_path) permissions));
        [|eexists; reflexivity].
      destruct x; try (eexists; reflexivity). now destruct (H d0). }
  destruct MD as [e MD].
  destruct (update_settings_file_fails output_path permissions s)
    as [evs [s2 [_ [U [F O]]]]].
  { intros doc' D. congruence. }
  rewrite MD in O. exists s2, evs. auto.
Qed.

Lemma set_diff_nil (s : pyset) : set_diff s [] = s.
Proof.
  unfold set_diff. induction s as [|x s IH]; simpl in *; congruence.
Qed.

(** X4.  The output file is absent and can be created.  For a set of
    permission strings the call returns, prints the three report lines
    and nothing else, and the new file holds exactly
    an object with the one key [permissions], whose value holds [allow]
    (the sorted list), [deny] (empty) and [ask] (empty), in this
    order. *)
Theorem update_settings_file_creates
        (output_path : Path) (permissions : pyset) (s : state) :
  stat (fs s) output_path = None ->
  can_write (fs s) output_path = true ->
  forallb is_str permissions = true ->
  exists sorted_allow,
    py_sorted (set_of_list permissions) = Ret sorted_allow /\
    let doc := VDict [("permissions",
                       VDict [("allow", VList (map of_atom sorted_allow));
                              ("deny", VList []); ("ask", VList [])])] in
    update_settings_file output_path permissions s =
      (Ret tt,
       mkState (put_file (fs s) output_path (file_text doc))
               (out s ++ [match permissions with
                          | [] => ENoNew
                          | _ :: _ => EAdded (List.length permissions)
                          end;
                          EUpdated output_path;
                          ETotal (List.length (set_of_list permissions))])
               doc []).
Proof.
  intros St CW Hs.
  destruct (allow_before_absent (fs s) output_path St) as [A B].
  assert (Hu : forallb is_str (set_of_list permissions) = true).
  { change (set_of_list permissions) with (set_union [] permissions).
    now apply set_union_strings. }
  destruct (py_sorted_strings _ Hu) as [sorted_allow [Ps _]].
  exists sorted_allow. split; [exact Ps|]. intro doc.
  destruct (update_settings_file_run output_path permissions s) as [evs [R H]].
  simpl in H. rewrite A, B in *.
  change (set_union [] permissions) with (set_of_list permissions) in H.
  unfold merged_document in H.
  change (set_union [] permissions) with (set_of_list permissions) in H.
  rewrite Ps, CW in H. cbn [dict_get assoc_get] in H.
  assert (evs = []) as ->.
  { revert R. destruct s as [w o es0 ea0]. simpl in *. run_monad. rewrite St.
    run_monad. intro R. inversion R as [E].
    rewrite <- (app_nil_r o) in E at 1. now apply app_inv_head in E. }
  rewrite H. unfold report.
  rewrite set_diff_nil. destruct permissions; reflexivity.
Qed.

(** *** When [sorted] raises *)

(** [<] looks at the keys only. *)
Lemma py_lt_keys (a a' b b' : atom) :
  key_of a = key_of a' -> key_of b = key_of b' -> py_lt a b = py_lt a' b'.
Proof. unfold py_lt. now intros -> ->. Qed.

Lemma py_lt_sym (a b : atom) : py_lt a b <> None -> py_lt b a <> None.
Proof. unfold py_lt. destruct (key_of a), (key_of b); congruence. Qed.

Lemma py_lt_chain (a b c : atom) :
  py_lt a b <> None -> py_lt b c <> None -> py_lt a c <> None.
Proof.
  unfold py_lt. destruct (key_of a), (key_of b), (key_of c); congruence.
Qed.

Lemma py_insert_returns (x : atom) (l : list atom) :
  (forall y, In y l -> py_lt y x <> None) -> exists r, py_insert x l = Ret r.
Proof.
  induction l as [|y l IH]; simpl; intro H; [eauto|].
  destruct (py_lt y x) as [[|]|] eqn:E.
  - destruct IH as [r ->]; [intros; apply H; auto | eauto].
  - eauto.
  - exfalso. now apply (H y); [left|].
Qed.

(** A list that [sorted] accepts holds no two elements, different for
    [==], that [<] refuses. *)
Lemma py_sorted_compares (l r : list atom) :
  py_sorted l = Ret r ->
  forall a b, In a l -> In b l -> key_of a <> key_of b -> py_lt a b <> None.
Proof.
  revert r. induction l as [|x l IH]; intros r H a b Ha Hb N; [destruct Ha|].
  simpl in H. destruct (py_sorted l) as [r'|] eqn:E; [|discriminate].
  assert (C : forall c, In c l -> py_lt c x <> None).
  { intros c Hc.
    assert (Hr : exists y, In y l /\ py_lt y x <> None).
    { destruct r' as [|y r'].
      - apply py_sorted_perm in E. apply Permutation_sym, Permutation_nil in E.
        subst l. destruct Hc.
      - exists y. split.
        + apply py_sorted_perm in E. eapply Permutation_in;
            [apply Permutation_sym; exact E | now left].
        + simpl in H. destruct (py_lt y x); congruence. }
    destruct Hr as [y [Hy Cy]].
    destruct (key_eqb (key_of c) (key_of y)) eqn:K.
    - apply key_eqb_eq in K. now rewrite (py_lt_keys c y x x K eq_refl).
    - apply (py_lt_chain c y x); [|assumption].
      apply (IH r' eq_refl c y Hc Hy). intro K'.
      apply key_eqb_eq in K'. congruence. }
  destruct Ha as [<-|Ha], Hb as [<-|Hb].
  - now destruct N.
  - apply py_lt_sym. now apply C.
  - now apply C.
  - now apply (IH r' eq_refl).
Qed.

Lemma py_sorted_returns (l : list atom) :
  NoDup (keys l) ->
  (forall a b, In a l -> In b l -> key_of a <> key_of b -> py_lt a b <> None) ->
  exists r, py_sorted l = Ret r.
Proof.
  induction l as [|x l IH]; simpl; intros N C; [eauto|].
  apply NoDup_cons_iff in N. destruct N as [N1 N2].
  destruct IH as [r' E]; [assumption | intros; apply C; auto |].
  rewrite E. apply py_insert_returns. intros y Hy.
  assert (Hl : In y l).
  { apply py_sorted_perm in E. eapply Permutation_in;
      [apply Permutation_sym; exact E | assumption]. }
  apply C; [now right | now left |].
  intro K. apply N1. rewrite <- K. now apply in_map.
Qed.

(** What [sorted] accepts, it accepts any part of. *)
Lemma py_sorted_subset (l m r : list atom) :
  py_sorted l = Ret r -> NoDup (keys m) ->
  (forall k, In k (keys m) -> In k (keys l)) ->
  exists r', py_sorted m = Ret r'.
Proof.
  intros H N S. apply py_sorted_returns; [assumption|].
  intros a b Ha Hb K.
  assert (A : exists a', In a' l /\ key_of a' = key_of a).
  { apply (in_map key_of) in Ha. apply S in Ha. apply in_map_iff in Ha.
    destruct Ha as [a' [E I]]. eauto. }
  assert (B : exists b', In b' l /\ key_of b' = key_of b).
  { apply (in_map key_of) in Hb. apply S in Hb. apply in_map_iff in Hb.
    destruct Hb as [b' [E I]]. eauto. }
  destruct A as [a' [Ia Ka]]. destruct B as [b' [Ib Kb]].
  rewrite <- (py_lt_keys a' a b' b Ka Kb).
  apply (py_sorted_compares l r H a' b' Ia Ib). congruence.
Qed.

(** A set that [sorted] refuses makes the document fail. *)
Lemma merged_document_unsortable (v : value) (ea permissions : pyset) (e : exn) :
  NoDup (keys permissions) ->
  py_sorted permissions = Raise e ->
  exists e', merged_document v ea permissions = Raise e'.
Proof.
  intros N Ps. unfold merged_document.
  destruct v; try (eexists; reflexivity).
  destruct (py_sorted (set_union ea permissions)) as [r|e'] eqn:Pu;
    [|eexists; reflexivity].
  destruct (py_sorted_subset _ permissions r Pu N) as [r' E].
  - intros k Hk. apply set_union_keys. now right.
  - congruence.
Qed.

(** X5.  A string and a value that is no string among the permissions.
    When the allow list of the output file and the new permissions
    together hold a string and a number, a boolean or [null], [sorted]
    in line 157 raises its [TypeError]: the call prints the error line,
    ends with [SystemExit(1)] and writes nothing. *)
Theorem update_settings_file_mixed_types
        (output_path : Path) (permissions : pyset) (s : state) (x y : atom) :
  In x (allow_before (fs s) output_path ++ permissions) ->
  In y (allow_before (fs s) output_path ++ permissions) ->
  is_str x = false -> is_str y = true ->
  exists s' evs,
    update_settings_file output_path permissions s =
      (Raise (SystemExit 1), s') /\
    fs s' = fs s /\
    out s' = out s ++ evs ++ [EWriteError TypeError].
Proof.
  intros Hx Hy Nx Sy.
  assert (MD : exists e, merged_document (settings_before (fs s) output_path)
                 (allow_before (fs s) output_path) permissions = Raise e).
  { unfold merged_document.
    destruct (settings_before (fs s) output_path); try (eexists; reflexivity).
    destruct (py_sorted (set_union (allow_before (fs s) output_path) permissions))
      as [r|e] eqn:Ps; [|eexists; reflexivity].
    exfalso.
    assert (U : forall a, In a (allow_before (fs s) output_path ++ permissions) ->
                exists a', In a' (set_union (allow_before (fs s) output_path)
                                    permissions) /\ key_of a' = key_of a).
    { intros a Ha. apply (in_map key_of) in Ha.
      change (map key_of) with keys in Ha. rewrite keys_app, in_app_iff in Ha.
      apply set_union_keys in Ha. apply in_map_iff in Ha.
      destruct Ha as [a' [E I]]. eauto. }
    destruct (U x Hx) as [x' [Ix Kx]]. destruct (U y Hy) as [y' [Iy Ky]].
    apply (py_sorted_compares _ r Ps x' y' Ix Iy).
    - rewrite Kx, Ky. destruct x, y; simpl; discriminate.
    - rewrite (py_lt_keys x' x y' y Kx Ky). destruct x, y; try discriminate;
        reflexivity. }
  destruct MD as [e MD].
  destruct (update_settings_file_fails output_path permissions s)
    as [evs [s2 [_ [U [F O]]]]].
  { intros doc' D. congruence. }
  rewrite MD in O. exists s2, evs. auto.
Qed.

(** *** What a run of [main] can change *)

Lemma update_settings_file_ends (output_path : Path) (permissions : pyset)
      (s s' : state) (r : result unit) :
  update_settings_file output_path permissions s = (r, s') ->
  (r = Ret tt /\ exists content, fs s' = put_file (fs s) output_path content) \/
  (r = Raise (SystemExit 1) /\ fs s' = fs s).
Proof.
  intro U.
  destruct (update_settings_file_run output_path permissions s) as [evs [_ H]].
  simpl in H.
  destruct (merged_document (settings_before (fs s) output_path)
              (allow_before (fs s) output_path) permissions) as [doc|e0];
    [destruct (can_write (fs s) output_path)|].
  - rewrite U in H. inversion H; subst. left. split; [reflexivity|].
    eexists. reflexivity.
  - destruct H as [s2 [e [H [F _]]]]. rewrite U in H. inversion H; subst. auto.
  - destruct H as [s2 [e [H [F _]]]]. rewrite U in H. inversion H; subst. auto.
Qed.

(** What was printed before does not enter what [update_settings_file]
    does to the files. *)
Lemma update_settings_file_fs_only (output_path : Path) (permissions : pyset)
      (s1 s2 : state) :
  fs s1 = fs s2 ->
  fst (update_settings_file output_path permissions s1) =
  fst (update_settings_file output_path permissions s2) /\
  fs (snd (update_settings_file output_path permissions s1)) =
  fs (snd (update_settings_file output_path permissions s2)).
Proof.
  intro E.
  destruct (update_settings_file_run output_path permissions s1) as [evs1 [_ H1]].
  destruct (update_settings_file_run output_path permissions s2) as [evs2 [_ H2]].
  simpl in H1, H2. rewrite E in H1.
  destruct (merged_document (settings_before (fs s2) output_path)
              (allow_before (fs s2) output_path) permissions) as [doc|e0];
    [destruct (can_write (fs s2) output_path)|].
  - rewrite H1, H2. auto.
  - destruct H1 as [s1' [e1 [H1 [F1 _]]]]. destruct H2 as [s2' [e2 [H2 [F2 _]]]].
    rewrite H1, H2. simpl. split; congruence.
  - destruct H1 as [s1' [e1 [H1 [F1 _]]]]. destruct H2 as [s2' [e2 [H2 [F2 _]]]].
    rewrite H1, H2. simpl. split; congruence.
Qed.

(** X6.  The root is missing or is no directory.  [main] prints the one
    error line that tells which (lines 216-222), on standard error, and
    ends with [SystemExit(1)]: nothing is searched, read or written. *)
Theorem main_invalid_root (root_dir output_path : Path) (verbose : bool)
        (s : state) :
  stat (fs s) root_dir <> Some Dir ->
  main root_dir output_path verbose s =
    (Raise (SystemExit 1),
     emit [match stat (fs s) root_dir with
           | None => ENoDirectory root_dir
           | Some _ => ENotADirectory root_dir
           end] s).
Proof.
  intro H. unfold main. destruct s as [w o es ea]. simpl fs in *. mexec.
  destruct (stat w root_dir) as [[|content|]|] eqn:St; mexec;
    try reflexivity.
  now destruct H.
Qed.

(** X7.  A run of [main] changes the output path and no other: every
    other path, the input files among them, holds after the run what it
    held before.  A run that ends before [update_settings_file] is
    called (with [SystemExit(0)] when nothing was found, with the
    [TypeError] of the verbose listing) changes nothing at all.  The
    exit status is 0 or 1. *)
Theorem main_touches_only_output (root_dir output_path : Path) (verbose : bool)
        (s : state) :
  (forall q, q <> output_path ->
             stat (fs (snd (main root_dir output_path verbose s))) q
             = stat (fs s) q) /\
  (forall e, fst (main root_dir output_path verbose s) = Raise e ->
             e <> SystemExit 1 ->
             fs (snd (main root_dir output_path verbose s)) = fs s) /\
  (exit_status (fst (main root_dir output_path verbose s)) = 0%Z \/
   exit_status (fst (main root_dir output_path verbose s)) = 1%Z).
Proof.
  destruct (main_cases root_dir output_path verbose s) as [r [s' [Hm C]]].
  simpl in C. rewrite Hm. simpl fst. simpl snd.
  destruct C as [[_ [-> F]]|[[_ [_ [-> ->]]]|[[_ [_ [_ [-> [evs ->]]]]]|
                [[_ [_ [_ [_ [_ [-> F]]]]]]|
                 [_ [_ [_ [_ [evs [s2 [ru [U C]]]]]]]]]]]];
    try (simpl; rewrite ?F; repeat split; auto; fail).
  apply update_settings_file_ends in U. simpl fs in U.
  destruct C as [[-> [-> ->]]|[e [-> [-> ->]]]].
  - destruct U as [[_ [content F]]|[U _]]; [|discriminate].
    simpl. rewrite F. repeat split; auto.
    + intros q Hq. now apply stat_put_other.
    + intros e N. discriminate N.
  - destruct U as [[U _]|[U F]]; [discriminate|]. inversion U; subst.
    simpl. rewrite F. auto.
Qed.

(** X8.  The verbose flag only prints.  With and without it a run
    leaves the same file system and ends with the same exit status, also
    when the listing of line 247 is what fails: the [TypeError] that
    [sorted] raises there ends the run with status 1, and without the
    flag the same set makes [update_settings_file] end it with
    [SystemExit(1)]. *)
Theorem main_verbose_only_prints (root_dir output_path : Path) (s : state) :
  fs (snd (main root_dir output_path true s)) =
  fs (snd (main root_dir output_path false s)) /\
  exit_status (fst (main root_dir output_path true s)) =
  exit_status (fst (main root_dir output_path false s)).
Proof.
  destruct (main_cases root_dir output_path true s) as [r1 [s1 [H1 C1]]].
  destruct (main_cases root_dir output_path false s) as [r2 [s2 [H2 C2]]].
  simpl in C1, C2. rewrite H1, H2. simpl fst. simpl snd.
  destruct C1 as [[St1 [-> F1]]|[[St1 [Nf1 [-> ->]]]|[[St1 [Nf1 [Nm1 [-> [evs1 ->]]]]]|
                 [[St1 [Nf1 [Nm1 [_ [Ps1 [-> F1]]]]]]|
                  [St1 [Nf1 [Nm1 [V1 [evs1 [u1 [ru1 [U1 D1]]]]]]]]]]]];
  destruct C2 as [[St2 [-> F2]]|[[St2 [Nf2 [-> ->]]]|[[St2 [Nf2 [Nm2 [-> [evs2 ->]]]]]|
                 [[St2 [Nf2 [Nm2 [V2 _]]]]|
                  [St2 [Nf2 [Nm2 [V2 [evs2 [u2 [ru2 [U2 D2]]]]]]]]]]]];
    try contradiction; try discriminate;
    try (simpl; split; congruence).
  - (* the listing fails; without the flag the write fails *)
    destruct (merged_document_unsortable
                (settings_before (fs s) output_path)
                (allow_before (fs s) output_path) _ _
                (merged_of_NoDup (fs s) _ [] (NoDup_nil _)) Ps1) as [e MD].
    destruct (update_settings_file_fails output_path
                (merged_of (fs s) (discovered (fs s) root_dir) [])
                (emit evs2 s)) as [evs [s' [_ [U [F _]]]]].
    { simpl fs. intros doc' D. congruence. }
    rewrite U in U2. inversion U2; subst.
    destruct D2 as [[D2 _]|[e' [D2 [-> ->]]]]; [discriminate|].
    inversion D2; subst. split; [rewrite F1, F; reflexivity | reflexivity].
  - destruct (update_settings_file_fs_only output_path
                (merged_of (fs s) (discovered (fs s) root_dir) [])
                (emit evs1 s) (emit evs2 s) eq_refl) as [E F].
    rewrite U1, U2 in E, F. simpl in E, F. subst ru2.
    destruct D1 as [[-> [-> ->]]|[e1 [-> [-> ->]]]];
      destruct D2 as [[D2 [-> ->]]|[e2 [D2 [-> ->]]]];
      try discriminate; simpl; split;
      solve [congruence | injection D2 as <-; reflexivity].
Qed.

(** *** The extractor on files that are no settings documents *)

(** X9.  A path that cannot be opened and read as a file (a directory
    of that name, no permission): [extract_allow_permissions] prints the
    [Error reading] line with the exception of [open], here [OSError],
    and returns the empty set. *)
Theorem extract_allow_permissions_unreadable (file_path : Path) (s : state) :
  (forall content, stat (fs s) file_path <> Some (File content)) ->
  extract_allow_permissions file_path s =
    (Ret [], emit [EReadError file_path OSError] s).
Proof.
  intro H. destruct s as [w o es ea]. simpl fs in *.
  destruct (stat w file_path) as [[|content|]|] eqn:St; exec;
    try reflexivity.
  now destruct (H content).
Qed.

(** X10.  Valid JSON that is no object.  When the file parses to a
    list, a string, a number, a boolean or [null], or to an object whose
    [permissions] is one of these, the [.get] of line 53 or 54 raises an
    [AttributeError]: the file is reported with the [Error reading] line
    (not the parse-error line) and contributes nothing. *)
Theorem extract_allow_permissions_not_an_object
        (file_path : Path) (s : state) (content : string) (v : value) :
  stat (fs s) file_path = Some (File content) ->
  json_loads content = Parsed v ->
  ((forall d, v <> VDict d) \/
   exists d x, v = VDict d /\ dict_get "permissions" d = Some x /\
               forall pd, x <> VDict pd) ->
  extract_allow_permissions file_path s =
    (Ret [], emit [EReadError file_path AttributeError] s).
Proof.
  intros St P H. destruct s as [w o es ea]. simpl fs in *. exec.
  destruct H as [H|[d [x [-> [G H]]]]].
  - destruct v; exec; try reflexivity. now destruct (H d).
  - exec. destruct x; exec; try reflexivity. now destruct (H d0).
Qed.

Lemma In_chars (a : atom) (str : string) :
  In a (chars str) <->
  exists c, a = AStr (String c EmptyString) /\ In c (list_ascii_of_string str).
Proof.
  induction str as [|c str IH]; simpl.
  - split; [tauto | intros [c [_ []]]].
  - rewrite IH. split.
    + intros [<-|[c' [E I]]]; eauto.
    + intros [c' [E [<-|I]]]; eauto.
Qed.

Lemma In_set_of_list_str (p : string) (l : list atom) :
  In (AStr p) (set_of_list l) <-> In (AStr p) l.
Proof. now rewrite !In_str_keys, set_of_list_keys. Qed.

(** X11.  [allow] given as one string instead of a list.  [set] in
    line 56 iterates whatever it is given, so the file contributes the
    characters of the string, each as a permission of its own, and no
    diagnostic is printed. *)
Theorem extract_allow_permissions_string
        (file_path : Path) (s : state) (content : string)
        (d pd : list (string * value)) (str : string) :
  stat (fs s) file_path = Some (File content) ->
  json_loads content = Parsed (VDict d) ->
  dict_get "permissions" d = Some (VDict pd) ->
  dict_get "allow" pd = Some (VStr str) ->
  extract_allow_permissions file_path s = (Ret (set_of_list (chars str)), s) /\
  (forall p, In (AStr p) (set_of_list (chars str)) <->
             exists c, p = String c EmptyString /\
                       In c (list_ascii_of_string str)) /\
  forallb is_str (set_of_list (chars str)) = true.
Proof.
  intros St P Gp Ga. split; [|split].
  - destruct s as [w o es ea]. simpl fs in *. exec.
    change (py_set (VStr str)) with (@Ret pyset (set_of_list (chars str))).
    exec. reflexivity.
  - intro p. rewrite In_set_of_list_str, In_chars. split.
    + intros [c [E I]]. inversion E. eauto.
    + intros [c [-> I]]. eauto.
  - change (set_of_list (chars str)) with (set_union [] (chars str)).
    apply set_union_strings; [reflexivity|].
    clear. induction str; simpl; auto.
Qed.

Lemma traverse_atoms_unhashable (l : list value) (x : value) :
  In x l -> to_atom x = None -> traverse_atoms l = Raise TypeError.
Proof.
  intros I N. induction l as [|v l IH]; [destruct I|]. simpl.
  destruct (to_atom v) eqn:T.
  - destruct I as [->|I]; [congruence|]. now rewrite (IH I).
  - reflexivity.
Qed.

(** X12.  An [allow] that [set] refuses: a number, a boolean, [null],
    or a list that holds a list or an object.  The [TypeError] of line
    56 is caught by line 61, so the file contributes nothing at all, the
    strings that stand in the same list included, and is reported with
    the [Error reading] line. *)
Theorem extract_allow_permissions_unhashable
        (file_path : Path) (s : state) (content : string)
        (d pd : list (string * value)) (a : value) :
  stat (fs s) file_path = Some (File content) ->
  json_loads content = Parsed (VDict d) ->
  dict_get "permissions" d = Some (VDict pd) ->
  dict_get "allow" pd = Some a ->
  (a = VNone \/ (exists b, a = VBool b) \/ (exists z, a = VInt z) \/
   exists l x, a = VList l /\ In x l /\ to_atom x = None) ->
  extract_allow_permissions file_path s =
    (Ret [], emit [EReadError file_path TypeError] s).
Proof.
  intros St P Gp Ga H. destruct s as [w o es ea]. simpl fs in *. exec.
  assert (Ps : py_set a = Raise TypeError).
  { destruct H as [->|[[b ->]|[[z ->]|[l [x [-> [I N]]]]]]]; try reflexivity.
    simpl. now rewrite (traverse_atoms_unhashable l x I N). }
  rewrite Ps. exec. reflexivity.
Qed.

(** *** The merger *)

Lemma found_lines_app (a b : list event) :
  found_lines (a ++ b) = found_lines a ++ found_lines b.
Proof. unfold found_lines. apply flat_map_app. Qed.

Lemma fs_emit (evs : list event) (s : state) : fs (emit evs s) = fs s.
Proof. reflexivity. Qed.

(** [display] on the files [find_settings_files] returns. *)
Lemma display_discovered (w : world) (root_dir f : Path) :
  In f (discovered w root_dir) ->
  exists mid,
    f = root_dir ++ mid ++ [".claude"; "settings.local.json"] /\
    display root_dir f = Relative (mid ++ [".claude"; "settings.local.json"]).
Proof.
  intro H. unfold discovered in H.
  apply (Permutation_in _ (Permutation_sym (path_sort_perm _))) in H.
  apply glob_rec_In in H. destruct H as [_ [mid ->]].
  exists mid. split; [reflexivity|]. unfold display.
  now rewrite (proj2 (relative_to_app root_dir _ _) eq_refl).
Qed.

(** The extractor prints no [Found] line. *)
Lemma extract_allow_permissions_found (file_path : Path) (s : state) :
  exists evs,
    extract_allow_permissions file_path s =
      (Ret (allow_in (fs s) file_path), emit evs s) /\
    found_lines evs = [].
Proof.
  destruct s as [w o es ea]. unfold allow_in. simpl fs.
  destruct (stat w file_path) as [[|content|]|] eqn:St; exec;
    try (eexists; split; reflexivity).
  destruct (json_loads content) as [data|msg] eqn:P; exec;
    [|eexists; split; reflexivity].
  destruct data as [| b | z | str | l | d]; exec;
    try (eexists; split; reflexivity).
  destruct (dict_get "permissions" d) as [p|] eqn:Gp; exec.
  - destruct p as [| b | z | str | l | pd]; exec;
      try (eexists; split; reflexivity).
    destruct (dict_get "allow" pd) as [a|] eqn:Ga; exec.
    + destruct (py_set a) as [found|e] eqn:Ps; exec.
      * exists []. split; [now rewrite app_nil_r | reflexivity].
      * rewrite (py_set_raises _ _ Ps). exec. eexists; split; reflexivity.
    + change (py_set (VList [])) with (@Ret pyset []). exec.
      exists []. split; [now rewrite app_nil_r | reflexivity].
  - change (dict_get "allow" []) with (@None value). exec.
    change (py_set (VList [])) with (@Ret pyset []). exec.
    exists []. split; [now rewrite app_nil_r | reflexivity].
Qed.

(** [merge_permissions] prints one [Found] line for each file that
    holds a permission, in the order of the files. *)
Lemma merge_loop_found (root_dir : Path) (settings_files : list Path)
      (acc : pyset) (s : state) :
  exists evs,
    merge_loop root_dir settings_files acc s =
      (Ret (merged_of (fs s) settings_files acc), emit evs s) /\
    found_lines evs =
      map (fun f => (List.length (allow_in (fs s) f), display root_dir f))
          (filter (fun f => match allow_in (fs s) f with
                            | [] => false
                            | _ :: _ => true
                            end) settings_files).
Proof.
  revert acc s. induction settings_files as [|f files IH]; intros acc s; simpl.
  - exists []. split; [now rewrite emit_nil | reflexivity].
  - destruct (extract_allow_permissions_found f s) as [evs [E F]].
    unfold bind at 1. rewrite E.
    destruct (allow_in (fs s) f) as [|x found] eqn:A.
    + destruct (IH acc (emit evs s)) as [evs' [E' F']]. rewrite E'.
      rewrite fs_emit in *.
      exists (evs ++ evs'). split; [now rewrite emit_emit|].
      now rewrite found_lines_app, F, F'.
    + unfold bind at 1. unfold print.
      destruct (IH (set_union acc (x :: found))
                   (emit [EFound (List.length (x :: found)) (display root_dir f)]
                         (emit evs s))) as [evs' [E' F']].
      rewrite E'. rewrite !fs_emit in *.
      exists (evs ++ [EFound (List.length (x :: found)) (display root_dir f)]
                  ++ evs').
      split; [now rewrite !emit_emit, <- ?app_assoc|].
      rewrite !found_lines_app, F, F'. simpl. now rewrite A.
Qed.

(** Nothing [update_settings_file] prints is a [Found] line. *)
Lemma read_existing_allow_found (output_path : Path) (w : world)
      (o : list event) (v : value) :
  exists evs r ea,
    read_existing_allow output_path (mkState w o v []) =
      (r, mkState w (o ++ evs) v ea) /\
    found_lines evs = [] /\
    (r = Ret tt \/ exists e, r = Raise e /\ is_Exception e = true).
Proof.
  assert (T : forall a e, py_set a = Raise e -> is_Exception e = true).
  { intros a e H. apply py_set_raises in H. now subst. }
  unfold read_existing_allow.
  destruct v as [| b | z | str | l | d]; exec;
    try (destruct (substring_in "permissions" str); exec);
    try (destruct (existsb (is_VStr "permissions") l); exec);
    try (rewrite dict_mem_get;
         destruct (dict_get "permissions" d) as [p|] eqn:Gp; exec;
         [destruct p as [| b | z | str | l | pd]; exec;
          try (destruct (substring_in "allow" str); exec);
          try (destruct (existsb (is_VStr "allow") l); exec);
          try (rewrite dict_mem_get;
               destruct (dict_get "allow" pd) as [a|] eqn:Ga; exec;
               [destruct (py_set a) as [found|e] eqn:Ps; exec;
                [|pose proof (T _ _ Ps)]|])|]);
    do 3 eexists;
    (split; [rewrite <- ?app_assoc; reflexivity|]);
    (split; [reflexivity|]);
    first [ left; reflexivity
          | right; eexists; split; solve [reflexivity | eassumption] ].
Qed.

Lemma read_existing_found (output_path : Path) (s : state) :
  existing_settings s = VDict [] -> existing_allow s = [] ->
  exists evs v ea,
    read_existing output_path s =
      (Ret tt, mkState (fs s) (out s ++ evs) v ea) /\
    found_lines evs = [].
Proof.
  destruct s as [w o es ea]. simpl. intros -> ->.
  run_monad.
  destruct (stat w output_path) as [[|content|]|] eqn:St; exec;
    try solve [ do 3 eexists;
                split; [rewrite <- ?app_assoc; simpl; reflexivity | reflexivity]
              | exists []; do 2 eexists;
                split; [rewrite app_nil_r; reflexivity | reflexivity] ].
  destruct (json_loads content) as [v|msg] eqn:P1; exec.
  - destruct (read_existing_allow_found output_path w o v)
      as [evs [r [ea [E [F [->|[e [-> He]]]]]]]];
      cbv [is_Exception] in *; rewrite E; exec.
    + exists evs. do 2 eexists. split; [reflexivity | exact F].
    + exists (evs ++ [EWarn e; EWillPreserve]). do 2 eexists.
      split; [rewrite <- !app_assoc; reflexivity|].
      now rewrite found_lines_app, F.
  - destruct (json_loads (re_sub_trailing_commas content)) as [v|msg2] eqn:P2;
      exec;
      [|do 3 eexists;
        split; [rewrite <- ?app_assoc; simpl; reflexivity | reflexivity]].
    destruct (read_existing_allow_found output_path w (o ++ [EFixed output_path]) v)
      as [evs [r [ea [E [F [->|[e [-> He]]]]]]]];
      cbv [is_Exception] in *; rewrite E; exec.
    + exists (EFixed output_path :: evs). do 2 eexists.
      split; [rewrite <- !app_assoc; reflexivity | exact F].
    + exists (EFixed output_path :: evs ++ [EWarn e; EWillPreserve]).
      do 2 eexists.
      split; [rewrite <- !app_assoc; reflexivity|].
      change (found_lines (EFixed output_path :: evs ++ [EWarn e; EWillPreserve]))
        with (found_lines (evs ++ [EWarn e; EWillPreserve])).
      now rewrite found_lines_app, F.
Qed.

Lemma update_settings_file_found (output_path : Path) (permissions : pyset)
      (s : state) :
  exists evs,
    out (snd (update_settings_file output_path permissions s)) = out s ++ evs /\
    found_lines evs = [].
Proof.
  destruct (update_settings_file_run output_path permissions s) as [evs [R H]].
  simpl in H.
  destruct (read_existing_found output_path (mkState (fs s) (out s) (VDict []) [])
              eq_refl eq_refl) as [evs' [v' [ea' [R' F]]]].
  simpl in R'. rewrite R in R'.
  assert (evs' = evs) as ->.
  { inversion R' as [[E E1 E2]]. apply app_inv_head in E. now symmetry. }
  destruct (merged_document _ _ _) as [doc|e];
    [destruct (can_write (fs s) output_path)|].
  - rewrite H. simpl. eexists. split; [reflexivity|].
    rewrite found_lines_app, F. unfold report.
    destruct (set_diff permissions _); reflexivity.
  - destruct H as [s2 [e [H [_ O]]]]. rewrite H. simpl. eexists.
    split; [exact O|]. now rewrite found_lines_app, F.
  - destruct H as [s2 [e' [H [_ O]]]]. rewrite H. simpl. eexists.
    split; [exact O|]. now rewrite found_lines_app, F.
Qed.

(** The [Found] lines of a whole run are those of [merge_permissions]
    on the discovered files. *)
Lemma main_found (root_dir output_path : Path) (verbose : bool) (s : state) :
  exists evs,
    out (snd (main root_dir output_path verbose s)) = out s ++ evs /\
    (found_lines evs = [] \/
     found_lines evs =
       map (fun f => (List.length (allow_in (fs s) f), display root_dir f))
           (filter (fun f => match allow_in (fs s) f with
                             | [] => false
                             | _ :: _ => true
                             end) (discovered (fs s) root_dir))).
Proof.
  unfold main. destruct s as [w o es ea]. simpl fs in *.
  assert (Hm : forall s0, fs s0 = w ->
             exists evs,
               merge_loop root_dir (discovered w root_dir) [] s0 =
                 (Ret (merged_of w (discovered w root_dir) []), emit evs s0) /\
               found_lines evs =
                 map (fun f => (List.length (allow_in w f), display root_dir f))
                     (filter (fun f => match allow_in w f with
                                       | [] => false
                                       | _ :: _ => true
                                       end) (discovered w root_dir))).
  { intros s0 <-. apply merge_loop_found. }
  set (lines := map (fun f => (List.length (allow_in w f), display root_dir f))
                    (filter (fun f => match allow_in w f with
                                      | [] => false
                                      | _ :: _ => true
                                      end) (discovered w root_dir))) in *.
  clearbody lines.
  set (merged := merged_of w (discovered w root_dir) []) in *.
  clearbody merged.
  mexec.
  destruct (stat w root_dir) as [[|content|]|] eqn:St; mexec;
    try (eexists; split; [reflexivity | left; reflexivity]).
  fold (discovered w root_dir).
  destruct (discovered w root_dir) as [|f0 files0]; mexec.
  - exists [ESearching root_dir; ERule; ENoFiles].
    split; [now rewrite <- !app_assoc | left; reflexivity].
  - match goal with
    | |- context [merge_loop _ _ _ ?s0] =>
        destruct (Hm s0 eq_refl) as [evs [M F]]; rewrite M
    end.
    mexec.
    assert (F3 : forall rest,
               found_lines rest = [] ->
               found_lines (ESearching root_dir :: ERule
                            :: EFoundFiles (S (List.length files0))
                            :: evs ++ rest) = lines).
    { intros rest Fr.
      change (found_lines (ESearching root_dir :: ERule
                           :: EFoundFiles (S (List.length files0)) :: evs ++ rest))
        with (found_lines (evs ++ rest)).
      now rewrite found_lines_app, F, Fr, app_nil_r. }
    destruct merged as [|x0 merged0]; mexec.
    + exists (ESearching root_dir :: ERule
              :: EFoundFiles (S (List.length files0)) :: evs ++ [ENoPermissions]).
      split; [simpl; now rewrite <- !app_assoc|].
      right. now apply F3.
    + destruct verbose; mexec.
      * destruct (py_sorted (x0 :: merged0)) as [l|e] eqn:Ps; mexec.
        -- rewrite print_items_run. mexec. rewrite <- !app_assoc.
           match goal with
           | |- context [update_settings_file _ _ ?s2] =>
               destruct (update_settings_file_found output_path (x0 :: merged0) s2)
                 as [evs' [O Fu]];
               destruct (update_settings_file output_path (x0 :: merged0) s2)
                 as [[[]|e] s3]
           end; destruct s3 as [w3 o3 es3 ea3]; simpl in O; subst o3; simpl.
           ++ exists (ESearching root_dir :: ERule
                      :: EFoundFiles (S (List.length files0))
                      :: evs ++ (ETotalFound (S (List.length merged0))
                                 :: EListHeader :: map EItem l ++ evs'
                                 ++ summary (S (List.length files0))
                                      (S (List.length merged0)) output_path)).
              split.
              ** unfold summary.
                 repeat (progress (rewrite <- ?app_assoc; simpl)). reflexivity.
              ** right. apply F3.
                 change (found_lines (ETotalFound (S (List.length merged0))
                           :: EListHeader :: map EItem l ++ evs'
                           ++ summary (S (List.length files0))
                                (S (List.length merged0)) output_path))
                   with (found_lines (map EItem l ++ evs'
                           ++ summary (S (List.length files0))
                                (S (List.length merged0)) output_path)).
                 rewrite !found_lines_app, Fu. simpl. rewrite app_nil_r.
                 clear. induction l; simpl; auto.
           ++ exists (ESearching root_dir :: ERule
                      :: EFoundFiles (S (List.length files0))
                      :: evs ++ (ETotalFound (S (List.length merged0))
                                 :: EListHeader :: map EItem l ++ evs')).
              split.
              ** repeat (progress (rewrite <- ?app_assoc; simpl)). reflexivity.
              ** right. apply F3.
                 change (found_lines (ETotalFound (S (List.length merged0))
                           :: EListHeader :: map EItem l ++ evs'))
                   with (found_lines (map EItem l ++ evs')).
                 rewrite !found_lines_app, Fu. rewrite app_nil_r.
                 clear. induction l; simpl; auto.
        -- exists (ESearching root_dir :: ERule
                   :: EFoundFiles (S (List.length files0))
                   :: evs ++ [ETotalFound (S (List.length merged0)); EListHeader]).
           split.
           ++ repeat (progress (rewrite <- ?app_assoc; simpl)). reflexivity.
           ++ right. now apply F3.
      * rewrite <- !app_assoc.
        match goal with
        | |- context [update_settings_file _ _ ?s2] =>
            destruct (update_settings_file_found output_path (x0 :: merged0) s2)
              as [evs' [O Fu]];
            destruct (update_settings_file output_path (x0 :: merged0) s2)
              as [[[]|e] s3]
        end; destruct s3 as [w3 o3 es3 ea3]; simpl in O; subst o3; simpl.
        -- exists (ESearching root_dir :: ERule
                   :: EFoundFiles (S (List.length files0))
                   :: evs ++ (ETotalFound (S (List.length merged0)) :: evs'
                              ++ summary (S (List.length files0))
                                   (S (List.length merged0)) output_path)).
           split.
           ++ unfold summary.
              repeat (progress (rewrite <- ?app_assoc; simpl)). reflexivity.
           ++ right. apply F3.
              change (found_lines (ETotalFound (S (List.length merged0)) :: evs'
                        ++ summary (S (List.length files0))
                             (S (List.length merged0)) output_path))
                with (found_lines (evs'
                        ++ summary (S (List.length files0))
                             (S (List.length merged0)) output_path)).
              rewrite found_lines_app, Fu. reflexivity.
        -- exists (ESearching root_dir :: ERule
                   :: EFoundFiles (S (List.length files0))
                   :: evs ++ (ETotalFound (S (List.length merged0)) :: evs')).
           split.
           ++ repeat (progress (rewrite <- ?app_assoc; simpl)). reflexivity.
           ++ right. apply F3. exact Fu.
Qed.

(** X13.  The [Found] lines show paths relative to the root.
    [merge_permissions] prints one [Found] line for each file that
    holds a permission, in the order of the files, with the number of
    its permissions and the path lines 83-87 choose: the path relative
    to the root for a file beneath the root, the path itself for any
    other.  The files [find_settings_files] returns are all beneath the
    root.  So in a run of [main] every [Found] line shows a path
    relative to the root that ends in [.claude/settings.local.json],
    and the [ValueError] of line 85 does not occur. *)
Theorem discovered_shown_relative
        (root_dir output_path : Path) (verbose : bool) (s : state) :
  (forall settings_files,
      exists evs,
        merge_permissions settings_files root_dir s =
          (Ret (merged_of (fs s) settings_files []), emit evs s) /\
        found_lines evs =
          map (fun f => (List.length (allow_in (fs s) f), display root_dir f))
              (filter (fun f => match allow_in (fs s) f with
                                | [] => false
                                | _ :: _ => true
                                end) settings_files)) /\
  (forall rel, display root_dir (root_dir ++ rel) = Relative rel) /\
  (forall f, (forall rel, f <> root_dir ++ rel) ->
             display root_dir f = Absolute f) /\
  (forall f, In f (discovered (fs s) root_dir) ->
             exists mid,
               f = root_dir ++ mid ++ [".claude"; "settings.local.json"] /\
               display root_dir f =
                 Relative (mid ++ [".claude"; "settings.local.json"])) /\
  (exists evs,
      out (snd (main root_dir output_path verbose s)) = out s ++ evs /\
      forall n shown_path,
        In (EFound n shown_path) evs ->
        exists f mid,
          In f (discovered (fs s) root_dir) /\
          f = root_dir ++ mid ++ [".claude"; "settings.local.json"] /\
          shown_path = Relative (mid ++ [".claude"; "settings.local.json"]) /\
          n = List.length (allow_in (fs s) f)).
Proof.
  split; [intro files; apply merge_loop_found|].
  split.
  { intro rel. unfold display.
    now rewrite (proj2 (relative_to_app root_dir (root_dir ++ rel) rel) eq_refl). }
  split.
  { intros f H. unfold display.
    destruct (relative_to root_dir f) as [rel|] eqn:E; [|reflexivity].
    apply relative_to_app in E. now destruct (H rel). }
  split; [intros f H; exact (display_discovered _ _ _ H)|].
  destruct (main_found root_dir output_path verbose s) as [evs [O F]].
  exists evs. split; [exact O|].
  intros n shown_path H.
  assert (I : In (n, shown_path) (found_lines evs)).
  { unfold found_lines. apply in_flat_map. exists (EFound n shown_path).
    split; [assumption | now left]. }
  destruct F as [F|F]; rewrite F in I; [destruct I|].
  apply in_map_iff in I. destruct I as [f [E I]].
  apply filter_In in I. destruct I as [I _].
  destruct (display_discovered _ _ _ I) as [mid [Ef Ed]].
  exists f, mid. inversion E; subst n shown_path. auto.
Qed.

(** Two ascending lists with the same keys have them in the same
    places. *)
Lemma asc_sorted_unique (r1 r2 : list atom) :
  StronglySorted asc r1 -> StronglySorted asc r2 ->
  (forall k, In k (keys r1) <-> In k (keys r2)) ->
  keys r1 = keys r2.
Proof.
  revert r2. induction r1 as [|x t1 IH]; intros r2 S1 S2 K.
  - destruct r2 as [|y t2]; [reflexivity|].
    destruct (proj2 (K (key_of y)) (or_introl eq_refl)).
  - destruct r2 as [|y t2];
      [destruct (proj1 (K (key_of x)) (or_introl eq_refl))|].
    pose proof (asc_NoDup _ S1) as N1. pose proof (asc_NoDup _ S2) as N2.
    simpl in N1, N2. apply NoDup_cons_iff in N1, N2.
    apply StronglySorted_inv in S1, S2.
    destruct S1 as [S1 F1], S2 as [S2 F2]. rewrite Forall_forall in F1, F2.
    assert (E : key_of x = key_of y).
    { destruct (proj1 (K (key_of x)) (or_introl eq_refl)) as [E|Hx];
        [now symmetry|].
      destruct (proj2 (K (key_of y)) (or_introl eq_refl)) as [E|Hy];
        [assumption|].
      apply in_map_iff in Hx. destruct Hx as [b [Kb Ib]].
      apply in_map_iff in Hy. destruct Hy as [a [Ka Ia]].
      pose proof (F2 b Ib) as A2. pose proof (F1 a Ia) as A1.
      unfold asc in A1, A2.
      rewrite (py_lt_keys y y b x eq_refl Kb) in A2.
      rewrite (py_lt_keys x x a y eq_refl Ka) in A1.
      apply asc_asym in A1. congruence. }
    simpl. f_equal; [assumption|].
    apply IH; try assumption.
    intro k. split; intro H.
    + destruct (proj1 (K k) (or_intror H)) as [Ek|Hk]; [|assumption].
      destruct N1 as [N1 _]. destruct N1. congruence.
    + destruct (proj2 (K k) (or_intror H)) as [Ek|Hk]; [|assumption].
      destruct N2 as [N2 _]. destruct N2. congruence.
Qed.

Lemma keys_strings_inj (r1 r2 : list atom) :
  forallb is_str r1 = true -> forallb is_str r2 = true ->
  keys r1 = keys r2 -> r1 = r2.
Proof.
  revert r2. induction r1 as [|x r1 IH]; intros [|y r2] H1 H2 K;
    try discriminate; [reflexivity|].
  simpl in *. apply andb_true_iff in H1, H2.
  destruct H1 as [X H1], H2 as [Y H2]. inversion K.
  f_equal; [|now apply IH].
  destruct x, y; try discriminate. simpl in *. congruence.
Qed.

Lemma strings_of_keys (l m : list atom) :
  forallb is_str l = true ->
  (forall k, In k (keys m) -> In k (keys l)) ->
  forallb is_str m = true.
Proof.
  intros H S. apply forallb_forall. intros a Ha.
  apply (in_map key_of) in Ha. apply S in Ha. apply in_map_iff in Ha.
  destruct Ha as [b [E I]]. rewrite forallb_forall in H. apply H in I.
  destruct b; try discriminate. simpl in E. symmetry in E.
  apply key_of_str in E. now subst.
Qed.

(** On sets of strings with the same elements [sorted] gives the same
    list. *)
Lemma py_sorted_strings_unique (l m : list atom) :
  NoDup (keys l) -> NoDup (keys m) -> forallb is_str l = true ->
  (forall k, In k (keys l) <-> In k (keys m)) ->
  py_sorted l = py_sorted m.
Proof.
  intros Nl Nm Hl K.
  assert (Hm : forallb is_str m = true).
  { apply (strings_of_keys l); [assumption | intros k; apply K]. }
  destruct (py_sorted_strings l Hl) as [r1 [E1 T1]].
  destruct (py_sorted_strings m Hm) as [r2 [E2 T2]].
  rewrite E1, E2. f_equal. apply keys_strings_inj; try assumption.
  apply asc_sorted_unique.
  - now apply (py_sorted_sorted l).
  - now apply (py_sorted_sorted m).
  - intro k. rewrite (py_sorted_keys l r1 k E1), (py_sorted_keys m r2 k E2).
    apply K.
Qed.

(** X14.  The order of the files does not enter the result.  For two
    lists with the same files [merge_permissions] returns sets with the
    same elements (for [==]) and the same size; and for permission
    strings the document lines 149-163 build from them is the same, so
    the sort of line 34 decides what the run prints and not what it
    writes. *)
Theorem merge_permissions_order
        (root_dir : Path) (settings_files settings_files' : list Path)
        (s : state) :
  Permutation settings_files settings_files' ->
  (exists evs evs',
      merge_permissions settings_files root_dir s =
        (Ret (merged_of (fs s) settings_files []), emit evs s) /\
      merge_permissions settings_files' root_dir s =
        (Ret (merged_of (fs s) settings_files' []), emit evs' s)) /\
  (forall a, set_mem a (merged_of (fs s) settings_files []) = true <->
             set_mem a (merged_of (fs s) settings_files' []) = true) /\
  List.length (merged_of (fs s) settings_files []) =
  List.length (merged_of (fs s) settings_files' []) /\
  (forall es ea,
      NoDup (keys ea) -> forallb is_str ea = true ->
      forallb is_str (merged_of (fs s) settings_files []) = true ->
      merged_document es ea (merged_of (fs s) settings_files []) =
      merged_document es ea (merged_of (fs s) settings_files' [])).
Proof.
  set (m := merged_of (fs s) settings_files []).
  set (m' := merged_of (fs s) settings_files' []).
  intro P.
  assert (K : forall k, In k (keys m) <-> In k (keys m')).
  { intro k. unfold m, m'. rewrite !merged_of_keys. split;
      (intros [H|[f [I H]]]; [now left | right; exists f; split; [|assumption]]).
    - now apply (Permutation_in _ P).
    - now apply (Permutation_in _ (Permutation_sym P)). }
  assert (Nm : NoDup (keys m)) by (apply merged_of_NoDup; constructor).
  assert (Nm' : NoDup (keys m')) by (apply merged_of_NoDup; constructor).
  split; [|split; [|split]].
  - destruct (merge_loop_run root_dir settings_files [] s) as [evs E].
    destruct (merge_loop_run root_dir settings_files' [] s) as [evs' E'].
    exists evs, evs'. split; assumption.
  - intro a. rewrite !set_mem_keys. apply K.
  - rewrite <- (length_map key_of m), <- (length_map key_of m').
    apply Permutation_length. apply NoDup_Permutation; assumption.
  - intros es ea Na Ha Hm. unfold merged_document.
    destruct es; try reflexivity.
    rewrite (py_sorted_strings_unique (set_union ea m) (set_union ea m')).
    + reflexivity.
    + now apply set_union_NoDup.
    + now apply set_union_NoDup.
    + now apply set_union_strings.
    + intro k. rewrite !set_union_keys, K. tauto.
Qed.

(** *** The report *)

Lemma set_diff_app (p ea : pyset) (x : atom) :
  ~ In (key_of x) (keys p) -> set_diff p (ea ++ [x]) = set_diff p ea.
Proof.
  intro N. unfold set_diff. apply filter_ext_in. intros y Hy. f_equal.
  unfold set_mem. rewrite existsb_app. simpl. rewrite orb_false_r.
  destruct (py_eqb y x) eqn:E; [|apply orb_false_r].
  apply py_eqb_eq in E. destruct N. rewrite <- E. now apply in_map.
Qed.

Lemma set_union_length (p ea : pyset) :
  NoDup (keys p) ->
  List.length (set_union ea p)
  = List.length ea + List.length (set_diff p ea).
Proof.
  unfold set_union. revert ea. induction p as [|x p IH]; intros ea N; simpl.
  - apply plus_n_O.
  - apply NoDup_cons_iff in N. destruct N as [N1 N2].
    fold (set_diff p ea). rewrite (IH _ N2). unfold set_add.
    destruct (set_mem x ea) eqn:M; simpl; [reflexivity|].
    rewrite set_diff_app by assumption.
    rewrite length_app. simpl. lia.
Qed.

(** X15.  The numbers of the report add up.  When
    [update_settings_file] returns, its last three lines are the count
    of new permissions (those of the given set that the output file did
    not hold; the line that says there are none when the count is 0),
    the success line, and the total; and the total is the number of
    permissions the output file held plus the number of new ones. *)
Theorem update_settings_file_counts
        (output_path : Path) (permissions : pyset) (s s' : state) :
  update_settings_file output_path permissions s = (Ret tt, s') ->
  NoDup (keys permissions) ->
  exists evs,
    let existing := List.length (allow_before (fs s) output_path) in
    let added :=
      List.length (filter (fun x => negb (set_mem x (allow_before (fs s) output_path)))
                          permissions) in
    out s' = out s ++ evs ++
             [match added with O => ENoNew | S _ => EAdded added end;
              EUpdated output_path;
              ETotal (existing + added)].
Proof.
  intros U N.
  destruct (update_settings_file_written output_path permissions s s' U)
    as [d [pd [l [evs [_ [_ [_ [_ [_ ->]]]]]]]]].
  exists evs. simpl. unfold report.
  rewrite (set_union_length permissions _ N).
  fold (set_diff permissions (allow_before (fs s) output_path)).
  destruct (set_diff permissions (allow_before (fs s) output_path)); reflexivity.
Qed.

(** *** The listing of the verbose flag *)

Lemma update_settings_file_appends (output_path : Path) (permissions : pyset)
      (s : state) :
  exists evs,
    out (snd (update_settings_file output_path permissions s)) = out s ++ evs.
Proof.
  destruct (update_settings_file_run output_path permissions s) as [evs [_ H]].
  simpl in H.
  destruct (merged_document _ _ _) as [doc|e];
    [destruct (can_write (fs s) output_path)|].
  - rewrite H. simpl. eauto.
  - destruct H as [s2 [e [H [_ O]]]]. rewrite H. simpl. eauto.
  - destruct H as [s2 [e' [H [_ O]]]]. rewrite H. simpl. eauto.
Qed.

(** X18.  With the verbose flag, when permissions were found and
    [sorted] accepts them, the run prints the count of line 243, the
    header and one line for each permission before it turns to the
    output file: the permissions ascending for [<], each element of the
    merged set once. *)
Theorem main_verbose_lists_sorted
        (root_dir output_path : Path) (s : state) (l : list atom) :
  stat (fs s) root_dir = Some Dir ->
  merged_of (fs s) (discovered (fs s) root_dir) [] <> [] ->
  py_sorted (merged_of (fs s) (discovered (fs s) root_dir) []) = Ret l ->
  StronglySorted asc l /\
  Permutation (merged_of (fs s) (discovered (fs s) root_dir) []) l /\
  exists before after,
    out (snd (main root_dir output_path true s)) =
    out s ++ before ++
    [ETotalFound (List.length (merged_of (fs s) (discovered (fs s) root_dir) []));
     EListHeader] ++ map EItem l ++ after.
Proof.
  set (merged := merged_of (fs s) (discovered (fs s) root_dir) []).
  intros St Nm Ps.
  split; [|split].
  - apply (py_sorted_sorted merged l Ps). apply merged_of_NoDup. constructor.
  - now apply py_sorted_perm.
  - unfold main. destruct s as [w o es ea]. simpl fs in *.
    assert (Hm : forall s0, fs s0 = w ->
               exists evs, merge_loop root_dir (discovered w root_dir) [] s0 =
                           (Ret merged, emit evs s0)).
    { intros s0 <-. apply merge_loop_run. }
    clearbody merged.
    destruct (discovered w root_dir) as [|f0 files0] eqn:Hf.
    { destruct (Hm (mkState w o es ea) eq_refl) as [evs M]. simpl in M.
      unfold ret in M. inversion M. now destruct Nm. }
    mexec. fold (discovered w root_dir). rewrite Hf. mexec.
    match goal with
    | |- context [merge_loop _ _ _ ?s0] =>
        destruct (Hm s0 eq_refl) as [evs M]; rewrite M
    end.
    mexec. destruct merged as [|x0 merged0]; [now destruct Nm|]. mexec.
    rewrite print_items_run. mexec. rewrite <- !app_assoc.
    match goal with
    | |- context [update_settings_file _ _ ?s2] =>
        destruct (update_settings_file_appends output_path (x0 :: merged0) s2)
          as [evs' O];
        destruct (update_settings_file output_path (x0 :: merged0) s2)
          as [[[]|e] s3]
    end; destruct s3 as [w3 o3 es3 ea3]; simpl in O; subst o3; simpl;
      exists (ESearching root_dir :: ERule
              :: EFoundFiles (S (List.length files0)) :: evs).
    + exists (evs' ++ summary (S (List.length files0)) (S (List.length merged0))
                        output_path).
      unfold summary.
      repeat (progress (rewrite <- ?app_assoc; simpl)). reflexivity.
    + exists evs'.
      repeat (progress (rewrite <- ?app_assoc; simpl)). reflexivity.
Qed.

(** *** What is printed while the output file is read *)

(** X19.  An output file that parses as it is and holds an allow list
    of strings, numbers, booleans or [null].  The call prints the
    [Reading] line and the count of the existing permissions (each
    value once), in this order and before anything else, with no
    repair line and no warning; it then either returns after the three
    report lines or ends with [SystemExit(1)] after the error line. *)
Theorem update_settings_file_reads_allow
        (output_path : Path) (permissions : pyset) (s : state)
        (content : string) (d pd : list (string * value)) (existing : list atom) :
  stat (fs s) output_path = Some (File content) ->
  json_loads content = Parsed (VDict d) ->
  dict_get "permissions" d = Some (VDict pd) ->
  dict_get "allow" pd = Some (VList (map of_atom existing)) ->
  allow_before (fs s) output_path = set_of_list existing /\
  exists r s' rest,
    update_settings_file output_path permissions s = (r, s') /\
    out s' = out s ++
             [EReading output_path;
              EExisting (List.length (set_of_list existing))] ++ rest /\
    ((r = Ret tt /\
      rest = [match set_diff permissions (set_of_list existing) with
              | [] => ENoNew
              | _ :: _ =>
                  EAdded (List.length
                            (set_diff permissions (set_of_list existing)))
              end;
              EUpdated output_path;
              ETotal (List.length (set_union (set_of_list existing) permissions))])
     \/
     (r = Raise (SystemExit 1) /\ exists e, rest = [EWriteError e])).
Proof.
  intros St P Gp Ga.
  assert (A : allow_before (fs s) output_path = set_of_list existing).
  { unfold allow_before, existing_document, allow_of.
    rewrite St, P, Gp, Ga. simpl. now rewrite traverse_of_atoms. }
  split; [exact A|].
  destruct (update_settings_file_run output_path permissions s) as [evs [R H]].
  simpl in H. rewrite A in *.
  assert (evs = [EReading output_path;
                 EExisting (List.length (set_of_list existing))]) as ->.
  { revert R. unfold settings_before, existing_document. rewrite St, P.
    destruct s as [w o es0 ea0]. simpl fs in *. simpl out.
    unfold read_existing, read_existing_allow. exec_dict.
    change (py_set (VList (map of_atom existing)))
      with (match traverse_atoms (map of_atom existing) with
            | Ret r => Ret (set_of_list r)
            | Raise e => Raise e
            end).
    rewrite traverse_of_atoms. exec_dict.
    rewrite <- !app_assoc. intro R. inversion R as [E].
    apply app_inv_head in E. now subst evs. }
  destruct (merged_document _ _ _) as [doc|e];
    [destruct (can_write (fs s) output_path)|].
  - do 3 eexists. split; [exact H|]. split; [reflexivity|].
    left. split; [reflexivity|]. unfold report.
    destruct (set_diff permissions (set_of_list existing)); reflexivity.
  - destruct H as [s2 [e [H [_ O]]]]. do 3 eexists.
    split; [exact H|]. split; [exact O|]. right. eauto.
  - destruct H as [s2 [e' [H [_ O]]]]. do 3 eexists.
    split; [exact H|]. split; [exact O|]. right. eauto.
Qed.

End Program.

(** ** The repair, character by character *)

Lemma list_ascii_app (a b : string) :
  list_ascii_of_string (a ++ b)%string
  = list_ascii_of_string a ++ list_ascii_of_string b.
Proof. induction a as [|c a IH]; simpl; [reflexivity | now rewrite IH]. Qed.

Lemma string_length_app (a b : string) :
  String.length (a ++ b) = String.length a + String.length b.
Proof. induction a as [|c a IH]; simpl; [reflexivity | now rewrite IH]. Qed.

Lemma is_closer_kept (b : ascii) :
  is_closer b = true -> is_space b = false /\ Ascii.eqb b "," = false.
Proof.
  unfold is_closer. rewrite orb_true_iff, !Ascii.eqb_eq.
  intros [->| ->]; split; reflexivity.
Qed.

Lemma span_space_inv (s : string) (n : nat) (b : ascii) :
  span_space s = (n, Some b) ->
  exists ws rest,
    s = (ws ++ String b rest)%string /\ String.length ws = n /\
    forallb is_space (list_ascii_of_string ws) = true /\ is_space b = false.
Proof.
  revert n. induction s as [|c s IH]; simpl; intros n H; [discriminate|].
  destruct (is_space c) eqn:Sc.
  - destruct (span_space s) as [m next] eqn:E. inversion H; subst.
    destruct (IH m eq_refl) as [ws [rest [-> [L [F Sb]]]]].
    exists (String c ws), rest. simpl. rewrite Sc, F, L. auto.
  - inversion H; subst. exists ""%string, s. simpl. auto.
Qed.

Lemma span_space_app (ws rest : string) (b : ascii) :
  forallb is_space (list_ascii_of_string ws) = true -> is_space b = false ->
  span_space (ws ++ String b rest) = (String.length ws, Some b).
Proof.
  intros F Sb. induction ws as [|c ws IH]; simpl in *.
  - now rewrite Sb.
  - apply andb_true_iff in F. destruct F as [Sc F].
    now rewrite Sc, (IH F).
Qed.

(** The characters of a match are passed over and the scan goes on
    after the closer. *)
Lemma re_sub_from_skip (ws rest : string) (b : ascii) :
  re_sub_from (S (String.length ws)) (ws ++ String b rest) = re_sub_from 0 rest.
Proof. induction ws as [|c ws IH]; simpl; [reflexivity | exact IH]. Qed.

Lemma match_comma_inv (s : string) (n : nat) (b : ascii) :
  match_comma s = Some (n, b) ->
  exists ws rest,
    s = String "," (ws ++ String b rest) /\
    forallb is_space (list_ascii_of_string ws) = true /\
    is_closer b = true /\
    re_sub_from 0 s = String b (re_sub_from 0 rest).
Proof.
  destruct s as [|c s]; simpl; [discriminate|].
  destruct (Ascii.eqb c ",") eqn:Ec; [|discriminate].
  apply Ascii.eqb_eq in Ec. subst c.
  destruct (span_space s) as [m [b'|]] eqn:Sp; [|discriminate].
  destruct (is_closer b') eqn:Cb; [|discriminate].
  intro H. inversion H; subst.
  destruct (span_space_inv _ _ _ Sp) as [ws [rest [-> [L [F Sb]]]]].
  exists ws, rest. repeat split; try assumption.
  subst n. now rewrite re_sub_from_skip.
Qed.

(** X16.  What the repair deletes.  [re.sub] of line 122 removes
    commas and white space and nothing else: the other characters of
    the text are all still there, in their order, and the text does not
    grow.  (White space between the comma and the closing bracket goes
    with the comma; a comma inside a JSON string goes like any other.) *)
Theorem re_sub_trailing_commas_deletes_only (content : string) :
  filter (fun c => negb (Ascii.eqb c "," || is_space c))
         (list_ascii_of_string (re_sub_trailing_commas content))
  = filter (fun c => negb (Ascii.eqb c "," || is_space c))
           (list_ascii_of_string content) /\
  String.length (re_sub_trailing_commas content) <= String.length content.
Proof.
  unfold re_sub_trailing_commas.
  assert (G : forall n s, String.length s <= n ->
    filter (fun c => negb (Ascii.eqb c "," || is_space c))
           (list_ascii_of_string (re_sub_from 0 s))
    = filter (fun c => negb (Ascii.eqb c "," || is_space c))
             (list_ascii_of_string s) /\
    String.length (re_sub_from 0 s) <= String.length s).
  { induction n as [|n IH]; intros s L.
    - destruct s; [split; [reflexivity | apply le_n] | simpl in L; lia].
    - destruct s as [|c s]; [split; [reflexivity | apply le_n]|].
      destruct (match_comma (String c s)) as [[m b]|] eqn:Mc.
      + destruct (match_comma_inv _ _ _ Mc) as [ws [rest [E [F [Cb R]]]]].
        rewrite R, E. inversion E; subst.
        destruct (is_closer_kept b Cb) as [Sb Nb].
        destruct (IH rest) as [IH1 IH2].
        { simpl in L. rewrite string_length_app in L. simpl in L. lia. }
        split.
        * simpl. rewrite Sb, Nb. simpl.
          rewrite list_ascii_app, filter_app. simpl. rewrite Sb, Nb. simpl.
          rewrite IH1.
          assert (W : filter (fun c => negb (Ascii.eqb c "," || is_space c))
                             (list_ascii_of_string ws) = []).
          { clear - F. induction (list_ascii_of_string ws) as [|a l IHl];
              [reflexivity|]. simpl in *. apply andb_true_iff in F.
            destruct F as [Sa F]. rewrite Sa, orb_true_r. simpl. now apply IHl. }
          now rewrite W.
        * simpl. rewrite string_length_app. simpl. lia.
      + assert (R : re_sub_from 0 (String c s) = String c (re_sub_from 0 s)).
        { change (re_sub_from 0 (String c s))
            with (match match_comma (String c s) with
                  | Some (n0, b) => String b (re_sub_from (S n0) s)
                  | None => String c (re_sub_from 0 s)
                  end).
          now rewrite Mc. }
        rewrite R. destruct (IH s) as [IH1 IH2]; [simpl in L; lia|].
        split.
        * simpl. now rewrite IH1.
        * simpl. lia. }
  apply (G (String.length content)). apply le_n.
Qed.

Lemma re_sub_from_copy (pre s : string) :
  ~ In ","%char (list_ascii_of_string pre) ->
  re_sub_from 0 (pre ++ s) = (pre ++ re_sub_from 0 s)%string.
Proof.
  induction pre as [|c pre IH]; intro N; [reflexivity|].
  simpl in N.
  assert (Ec : Ascii.eqb c "," = false).
  { apply Ascii.eqb_neq. intro E. apply N. left. now symmetry. }
  change (re_sub_from 0 (String c pre ++ s))
    with (match match_comma (String c (pre ++ s)) with
          | Some (n0, b) => String b (re_sub_from (S n0) (pre ++ s))
          | None => String c (re_sub_from 0 (pre ++ s))
          end).
  unfold match_comma. rewrite Ec. simpl. f_equal. apply IH. tauto.
Qed.

(** X17.  Where the repair acts.  A text without a comma is returned as
    it is.  And up to its first comma a text is copied; when white
    space alone stands between that comma and a closing brace or
    bracket, the comma and the white space are dropped, the closer is
    kept, and the repair goes on with the text after the closer. *)
Theorem re_sub_trailing_commas_first_comma (pre ws rest : string) (b : ascii) :
  ~ In ","%char (list_ascii_of_string pre) ->
  forallb is_space (list_ascii_of_string ws) = true ->
  is_closer b = true ->
  re_sub_trailing_commas pre = pre /\
  re_sub_trailing_commas (pre ++ String "," (ws ++ String b rest))
  = (pre ++ String b (re_sub_trailing_commas rest))%string.
Proof.
  intros N F Cb. unfold re_sub_trailing_commas. split.
  - pose proof (re_sub_from_copy pre "" N) as H. simpl in H.
    assert (E : forall t : string, (t ++ "")%string = t).
    { induction t as [|c t IH]; simpl; [reflexivity | now rewrite IH]. }
    now rewrite !E in H.
  - rewrite (re_sub_from_copy _ _ N). f_equal.
    destruct (is_closer_kept b Cb) as [Sb _].
    change (re_sub_from 0 (String "," (ws ++ String b rest)))
      with (match match_comma (String "," (ws ++ String b rest)) with
            | Some (n0, b0) => String b0 (re_sub_from (S n0) (ws ++ String b rest))
            | None => String "," (re_sub_from 0 (ws ++ String b rest))
            end).
    unfold match_comma. simpl Ascii.eqb. cbv iota.
    rewrite (span_space_app ws rest b F Sb), Cb.
    now rewrite re_sub_from_skip.
Qed.

(** ** The program on the concrete files *)

(** The repair on a text with the three kinds of comma: before a closing
    bracket, before one after white space and a line break, and inside a
    string (which the pattern does not tell from the others). *)
Example re_sub_trailing_commas_example :
  re_sub_trailing_commas
    (Reference.text "{'a': [1, 2, ] , 'b': 'x, }'," ++ String "010" "}")%string
  = Reference.text "{'a': [1, 2] , 'b': 'x}'}".
Proof. reflexivity. Qed.

Local Notation "'ref_loads'" := Reference.loads.
Local Notation "'ref_dumps'" := Reference.dumps.
Local Notation "'repaired_start'" :=
  (Examples.start (Examples.world_with Examples.with_commas)).
Local Notation "'main_run'" :=
  (main ref_loads ref_dumps Examples.root Examples.output false repaired_start).
Local Notation "'update_run'" :=
  (update_settings_file ref_loads ref_dumps Examples.output
     Examples.new_permissions repaired_start).
Local Notation "'broken_run'" :=
  (update_settings_file ref_loads ref_dumps Examples.output
     Examples.new_permissions
     (Examples.start (Examples.world_with Examples.cut_short))).

(** C1 on the concrete tree: the run completes. *)
Lemma main_writes_sorted_union_witness :
  fst main_run = Ret tt /\
  exists d pd written,
    stat (fs (snd main_run)) Examples.output
      = Some (File (file_text ref_dumps (VDict d))) /\
    dict_get "permissions" d = Some (VDict pd) /\
    dict_get "allow" pd = Some (VList (map of_atom written)) /\
    StronglySorted asc written /\
    (forall ps, written = map AStr ps ->
                StronglySorted (fun p q => String.ltb p q = true) ps) /\
    (forall a,
        set_mem a written = true <->
        set_mem a (allow_before ref_loads (fs repaired_start) Examples.output) = true \/
        exists f, In f (discovered (fs repaired_start) Examples.root) /\
                  set_mem a (allow_in ref_loads (fs repaired_start) f) = true) /\
    (forall p,
        In (VStr p) (map of_atom written) <->
        In (AStr p) (allow_before ref_loads (fs repaired_start) Examples.output) \/
        exists f, In f (discovered (fs repaired_start) Examples.root) /\
                  In (AStr p) (allow_in ref_loads (fs repaired_start) f)).
Proof.
  split; [vm_compute; reflexivity|].
  apply (main_writes_sorted_union ref_loads ref_dumps Examples.root Examples.output false
           repaired_start).
  vm_compute. reflexivity.
Defined.

(** C10 on the concrete tree. *)
Lemma update_settings_file_keeps_permissions_witness :
  fst update_run = Ret tt /\
  exists d pd written,
    stat (fs (snd update_run)) Examples.output
      = Some (File (file_text ref_dumps (VDict d))) /\
    dict_get "permissions" d = Some (VDict pd) /\
    dict_get "allow" pd = Some (VList (map of_atom written)) /\
    (forall x, In x Examples.new_permissions -> set_mem x written = true) /\
    (forall p, In (AStr p) Examples.new_permissions ->
               In (VStr p) (map of_atom written)).
Proof.
  split; [vm_compute; reflexivity|].
  apply (update_settings_file_keeps_permissions ref_loads ref_dumps Examples.output
           Examples.new_permissions repaired_start).
  vm_compute. reflexivity.
Defined.

(** C6 on the concrete tree: [model] and [deny] are carried over. *)
Lemma update_settings_file_frame_witness :
  fst update_run = Ret tt /\
  exists d0 d pd0 pd,
    settings_before ref_loads (fs repaired_start) Examples.output = VDict d0 /\
    stat (fs (snd update_run)) Examples.output =
      Some (File (ref_dumps 2 false (VDict d) ++ String "010" "")%string) /\
    (forall k, k <> "permissions" -> dict_get k d = dict_get k d0) /\
    map fst d = (if dict_mem "permissions" d0 then map fst d0
                 else map fst d0 ++ ["permissions"]) /\
    (dict_get "permissions" d0 = Some (VDict pd0) \/
     (dict_get "permissions" d0 = None /\ pd0 = [])) /\
    dict_get "permissions" d = Some (VDict pd) /\
    dict_get "deny" pd =
      Some (match dict_get "deny" pd0 with Some x => x | None => VList [] end) /\
    dict_get "ask" pd =
      Some (match dict_get "ask" pd0 with Some x => x | None => VList [] end) /\
    (forall k, k <> "allow" -> k <> "deny" -> k <> "ask" ->
               dict_get k pd = dict_get k pd0) /\
    (forall q, q <> Examples.output ->
               stat (fs (snd update_run)) q = stat (fs repaired_start) q).
Proof.
  split; [vm_compute; reflexivity|].
  apply (update_settings_file_frame ref_loads ref_dumps Examples.output
           Examples.new_permissions repaired_start).
  vm_compute. reflexivity.
Defined.

Lemma start_fs (w : world) : fs (Examples.start w) = w.
Proof. reflexivity. Qed.

(** C3 on the concrete tree: the reference reader reads the written text
    back, and the second run changes nothing. *)
Lemma main_idempotent_witness :
  fst main_run = Ret tt /\
  ref_loads (file_text ref_dumps (existing_settings (snd main_run)))
    = Parsed (existing_settings (snd main_run)) /\
  exists s2 evs,
    main ref_loads ref_dumps Examples.root Examples.output false
      (Examples.start (fs (snd main_run))) = (Ret tt, s2) /\
    fs s2 = fs (snd main_run) /\
    existing_settings s2 = existing_settings (snd main_run) /\
    set_diff
      (merged_of ref_loads (fs (Examples.start (fs (snd main_run))))
         (discovered (fs (Examples.start (fs (snd main_run)))) Examples.root) [])
      (allow_before ref_loads (fs (Examples.start (fs (snd main_run))))
         Examples.output) = [] /\
    out s2 = out (Examples.start (fs (snd main_run))) ++ evs /\
    In ENoNew evs.
Proof.
  split; [vm_compute; reflexivity|].
  split; [vm_compute; reflexivity|].
  apply (main_idempotent ref_loads ref_dumps Examples.root Examples.output false
           repaired_start (snd main_run) (Examples.start (fs (snd main_run)))).
  - vm_compute. reflexivity.
  - intros mid H. discriminate H.
  - vm_compute. reflexivity.
  - apply start_fs.
Defined.

(** C4 on the concrete tree: the output file with trailing commas. *)
Lemma update_settings_file_repairs_witness :
  stat (fs repaired_start) Examples.output = Some (File Examples.with_commas) /\
  ref_loads Examples.with_commas = Malformed "Expecting value" /\
  ref_loads (re_sub_trailing_commas Examples.with_commas)
    = Parsed (VDict [("model", VStr "opus");
                     ("permissions",
                      VDict [("allow", VList [VStr "Bash(ls)"]);
                             ("deny", VList [VStr "Bash(rm)"])])]) /\
  (exists evs, out (snd update_run)
               = out repaired_start ++ EFixed Examples.output :: evs) /\
  exists d pd written,
    stat (fs (snd update_run)) Examples.output
      = Some (File (file_text ref_dumps (VDict d))) /\
    dict_get "permissions" d = Some (VDict pd) /\
    dict_get "allow" pd = Some (VList (map of_atom written)) /\
    (forall a, In a [AStr "Bash(ls)"] -> set_mem a written = true) /\
    (forall p, In (AStr p) [AStr "Bash(ls)"] -> In (VStr p) (map of_atom written)) /\
    (forall k, k <> "permissions" ->
               dict_get k d =
               dict_get k [("model", VStr "opus");
                           ("permissions",
                            VDict [("allow", VList [VStr "Bash(ls)"]);
                                   ("deny", VList [VStr "Bash(rm)"])])]).
Proof.
  split; [reflexivity|].
  split; [vm_compute; reflexivity|].
  split; [vm_compute; reflexivity|].
  destruct (update_settings_file_repairs ref_loads ref_dumps Examples.output
              Examples.new_permissions repaired_start (snd update_run)
              (fst update_run) Examples.with_commas "Expecting value"
              [("model", VStr "opus");
               ("permissions",
                VDict [("allow", VList [VStr "Bash(ls)"]);
                       ("deny", VList [VStr "Bash(rm)"])])]
              [("allow", VList [VStr "Bash(ls)"]);
               ("deny", VList [VStr "Bash(rm)"])]
              [AStr "Bash(ls)"]) as [D W].
  - reflexivity.
  - vm_compute. reflexivity.
  - vm_compute. reflexivity.
  - reflexivity.
  - reflexivity.
  - vm_compute. reflexivity.
  - split; [exact D|]. apply W. vm_compute. reflexivity.
Defined.

(** C5 on the concrete tree: the file that is cut short is skipped, the
    two files in order give what they hold to the merged set and to the
    written allow list, and the run ends with status 0. *)
Lemma malformed_input_is_skipped_witness :
  stat (fs repaired_start) (Examples.settings "bad")
    = Some (File (Reference.text "{'permissions': ")) /\
  ref_loads (Reference.text "{'permissions': ") = Malformed "Expecting value" /\
  extract_allow_permissions ref_loads (Examples.settings "bad") repaired_start =
    (Ret [], emit [EParseError (Examples.settings "bad")
                     (JSONDecodeError "Expecting value")] repaired_start) /\
  discovered (fs repaired_start) Examples.root =
    [Examples.settings "bad"; Examples.settings "proj";
     Examples.settings "proj-old"] /\
  fst (merge_permissions ref_loads (discovered (fs repaired_start) Examples.root)
         Examples.root repaired_start)
    = Ret [AStr "Read(*.py)"; AStr "Write(*.md)"] /\
  (forall p, In p ["Write(*.md)"; "Read(*.py)"] ->
             In (AStr p)
                (merged_of ref_loads (fs repaired_start)
                   (discovered (fs repaired_start) Examples.root) [])) /\
  exit_status (fst main_run) = 0%Z /\
  (forall p, In p ["Write(*.md)"; "Read(*.py)"] ->
     exists s' d' pd' written,
       main_run = (Ret tt, s') /\
       stat (fs s') Examples.output
         = Some (File (file_text ref_dumps (VDict d'))) /\
       dict_get "permissions" d' = Some (VDict pd') /\
       dict_get "allow" pd' = Some (VList written) /\
       In (VStr p) written).
Proof.
  split; [reflexivity|].
  split; [vm_compute; reflexivity|].
  destruct (malformed_input_is_skipped ref_loads ref_dumps Examples.root Examples.output
              false repaired_start (Examples.settings "bad")
              (Reference.text "{'permissions': ") "Expecting value")
    as [E [M X]].
  - reflexivity.
  - vm_compute. reflexivity.
  - split; [exact E|].
    split; [reflexivity|].
    split; [vm_compute; reflexivity|].
    split.
    + destruct (M (discovered (fs repaired_start) Examples.root))
        as [evs [_ [_ V]]].
      apply (V (Examples.settings "proj-old")
               (Reference.text "{'permissions': {'allow': ['Write(*.md)', 'Read(*.py)']}}")
               [("permissions",
                 VDict [("allow", VList [VStr "Write(*.md)"; VStr "Read(*.py)"])])]
               [("allow", VList [VStr "Write(*.md)"; VStr "Read(*.py)"])]
               ["Write(*.md)"; "Read(*.py)"]).
      * right. right. left. reflexivity.
      * reflexivity.
      * vm_compute. reflexivity.
      * reflexivity.
      * reflexivity.
    + destruct X as [X0 X1].
      * reflexivity.
      * reflexivity.
      * eexists. split; [vm_compute; reflexivity|]. right. eexists. reflexivity.
      * vm_compute. reflexivity.
      * intros f H. vm_compute in H.
        destruct H as [<-|[<-|[<-|[]]]]; vm_compute; reflexivity.
      * split; [exact X0|].
        apply (X1 (Examples.settings "proj-old")
                 (Reference.text "{'permissions': {'allow': ['Write(*.md)', 'Read(*.py)']}}")
                 [("permissions",
                   VDict [("allow", VList [VStr "Write(*.md)"; VStr "Read(*.py)"])])]
                 [("allow", VList [VStr "Write(*.md)"; VStr "Read(*.py)"])]
                 ["Write(*.md)"; "Read(*.py)"]).
        -- right. right. left. reflexivity.
        -- reflexivity.
        -- vm_compute. reflexivity.
        -- reflexivity.
        -- reflexivity.
Defined.

(** C7 on a root with nothing beneath it. *)
Lemma main_nothing_found_witness :
  stat Examples.empty_root Examples.root = Some Dir /\
  discovered Examples.empty_root Examples.root = [] /\
  exists s' evs,
    main ref_loads ref_dumps Examples.root Examples.output false
      (Examples.start Examples.empty_root) = (Raise (SystemExit 0), s') /\
    exit_status (fst (main ref_loads ref_dumps Examples.root Examples.output false
                        (Examples.start Examples.empty_root))) = 0%Z /\
    fs s' = fs (Examples.start Examples.empty_root) /\
    out s' = out (Examples.start Examples.empty_root) ++ evs /\
    (In ENoFiles evs \/ In ENoPermissions evs).
Proof.
  split; [reflexivity|].
  split; [reflexivity|].
  apply (main_nothing_found ref_loads ref_dumps Examples.root Examples.output false
           (Examples.start Examples.empty_root)).
  - reflexivity.
  - left. reflexivity.
Defined.

(** C8 on the settings file of [proj]. *)
Lemma extract_allow_permissions_valid_witness :
  extract_allow_permissions ref_loads (Examples.settings "proj") repaired_start =
    (Ret (set_of_list (map AStr ["Read(*.py)"])), repaired_start) /\
  (forall p, In (AStr p) (set_of_list (map AStr ["Read(*.py)"]))
             <-> In p ["Read(*.py)"]) /\
  NoDup (set_of_list (map AStr ["Read(*.py)"])).
Proof.
  apply (proj2 (extract_allow_permissions_valid ref_loads (Examples.settings "proj")
                  repaired_start)
               (Reference.text "{'permissions': {'allow': ['Read(*.py)']}}")
               [("permissions", VDict [("allow", VList [VStr "Read(*.py)"])])]
               ["Read(*.py)"]).
  - reflexivity.
  - vm_compute. reflexivity.
  - right. eexists. split; [reflexivity|]. right. reflexivity.
Defined.

(** C9 as the claim has it fails: the discovered files come in the order
    of their components, [proj] before [proj-old], while the path string
    of [proj-old] is the smaller one (its [-] is below the [/] that
    follows [proj]). *)
Lemma find_settings_files_not_by_string :
  fst (find_settings_files Examples.root repaired_start)
    = Ret [Examples.settings "bad"; Examples.settings "proj";
           Examples.settings "proj-old"] /\
  String.ltb (path_str (Examples.settings "proj-old"))
             (path_str (Examples.settings "proj")) = true.
Proof. split; reflexivity. Qed.

(** C2 on the output file that is cut short.  Neither the text nor its
    repair parses; the run prints its warning and that it will preserve
    the other settings, returns, and the file it leaves holds
    [permissions] alone: [model], the allow entry [Bash(ls)] and the deny
    entry [Bash(rm)] of the file are gone. *)
Theorem unparseable_output_loses_settings :
  ref_loads Examples.cut_short = Malformed "Expecting value" /\
  ref_loads (re_sub_trailing_commas Examples.cut_short) = Malformed "Expecting value" /\
  fst broken_run = Ret tt /\
  out (snd broken_run) =
    [EWarn (JSONDecodeError "Expecting value"); EWillPreserve;
     EAdded 2; EUpdated Examples.output; ETotal 2] /\
  existing_settings (snd broken_run) =
    VDict [("permissions",
            VDict [("allow", VList [VStr "Read(*.py)"; VStr "Write(*.md)"]);
                   ("deny", VList []); ("ask", VList [])])] /\
  stat (fs (snd broken_run)) Examples.output =
    Some (File (file_text ref_dumps (existing_settings (snd broken_run)))).
Proof. repeat split; vm_compute; reflexivity. Qed.

(** ** Further runs on the concrete files *)

(** X1 on the output file with trailing commas: the call returns. *)
Lemma update_settings_file_returns_or_exits_witness :
  (fst update_run = Ret tt /\
   can_write (fs repaired_start) Examples.output = true /\
   exists content,
     fs (snd update_run) = put_file (fs repaired_start) Examples.output content)
  \/
  (fst update_run = Raise (SystemExit 1) /\
   exists evs e, out (snd update_run)
                 = out repaired_start ++ evs ++ [EWriteError e]).
Proof.
  apply (update_settings_file_returns_or_exits ref_loads ref_dumps Examples.output
           Examples.new_permissions repaired_start (snd update_run) (fst update_run)).
  vm_compute. reflexivity.
Defined.

(** X2 on an output path that cannot be opened. *)
Lemma update_settings_file_write_refused_witness :
  exists s' evs e,
    update_settings_file ref_loads ref_dumps Examples.output
      Examples.new_permissions (Examples.start Examples.write_protected) =
      (Raise (SystemExit 1), s') /\
    fs s' = fs (Examples.start Examples.write_protected) /\
    out s' = out (Examples.start Examples.write_protected)
             ++ evs ++ [EWriteError e] /\
    ((exists doc,
         merged_document
           (settings_before ref_loads (fs (Examples.start Examples.write_protected))
              Examples.output)
           (allow_before ref_loads (fs (Examples.start Examples.write_protected))
              Examples.output)
           Examples.new_permissions = Ret doc) ->
     e = OSError).
Proof.
  apply (update_settings_file_write_refused ref_loads ref_dumps Examples.output
           Examples.new_permissions (Examples.start Examples.write_protected)).
  reflexivity.
Defined.

(** X3 on an output file that holds a list. *)
Lemma update_settings_file_not_an_object_witness :
  existing_document ref_loads (Examples.world_with "[1, 2]") Examples.output
    = Some (VList [VInt 1; VInt 2]) /\
  exists s' evs,
    update_settings_file ref_loads ref_dumps Examples.output
      Examples.new_permissions (Examples.start (Examples.world_with "[1, 2]")) =
      (Raise (SystemExit 1), s') /\
    fs s' = fs (Examples.start (Examples.world_with "[1, 2]")) /\
    out s' = out (Examples.start (Examples.world_with "[1, 2]"))
             ++ evs ++ [EWriteError TypeError].
Proof.
  split; [vm_compute; reflexivity|].
  apply (update_settings_file_not_an_object ref_loads ref_dumps Examples.output
           Examples.new_permissions (Examples.start (Examples.world_with "[1, 2]"))
           (VList [VInt 1; VInt 2])).
  - vm_compute. reflexivity.
  - left. intros d H. discriminate H.
Defined.

(** X4 on the tree without an output file. *)
Lemma update_settings_file_creates_witness :
  exists sorted_allow,
    py_sorted (set_of_list Examples.new_permissions) = Ret sorted_allow /\
    let doc := VDict [("permissions",
                       VDict [("allow", VList (map of_atom sorted_allow));
                              ("deny", VList []); ("ask", VList [])])] in
    update_settings_file ref_loads ref_dumps Examples.output
      Examples.new_permissions (Examples.start Examples.without_output) =
      (Ret tt,
       mkState (put_file (fs (Examples.start Examples.without_output))
                         Examples.output (file_text ref_dumps doc))
               (out (Examples.start Examples.without_output) ++
                [match Examples.new_permissions with
                 | [] => ENoNew
                 | _ :: _ => EAdded (List.length Examples.new_permissions)
                 end;
                 EUpdated Examples.output;
                 ETotal (List.length (set_of_list Examples.new_permissions))])
               doc []).
Proof.
  apply (update_settings_file_creates ref_loads ref_dumps Examples.output
           Examples.new_permissions (Examples.start Examples.without_output));
    reflexivity.
Defined.

(** X5 on an output file whose allow list holds the number 1. *)
Lemma update_settings_file_mixed_types_witness :
  exists s' evs,
    update_settings_file ref_loads ref_dumps Examples.output
      Examples.new_permissions
      (Examples.start (Examples.world_with Examples.with_number)) =
      (Raise (SystemExit 1), s') /\
    fs s' = fs (Examples.start (Examples.world_with Examples.with_number)) /\
    out s' = out (Examples.start (Examples.world_with Examples.with_number))
             ++ evs ++ [EWriteError TypeError].
Proof.
  apply (update_settings_file_mixed_types ref_loads ref_dumps Examples.output
           Examples.new_permissions
           (Examples.start (Examples.world_with Examples.with_number))
           (AInt 1) (AStr "Read(*.py)")).
  - vm_compute. left. reflexivity.
  - vm_compute. right. right. left. reflexivity.
  - reflexivity.
  - reflexivity.
Defined.

(** X6 on a root that does not exist. *)
Lemma main_invalid_root_witness :
  main ref_loads ref_dumps ["nowhere"] Examples.output false
    (Examples.start Examples.empty_root) =
  (Raise (SystemExit 1),
   emit [match stat (fs (Examples.start Examples.empty_root)) ["nowhere"] with
         | None => ENoDirectory ["nowhere"]
         | Some _ => ENotADirectory ["nowhere"]
         end] (Examples.start Examples.empty_root)).
Proof.
  apply (main_invalid_root ref_loads ref_dumps ["nowhere"] Examples.output false
           (Examples.start Examples.empty_root)).
  intro H. vm_compute in H. discriminate H.
Defined.

(** X9 on a directory where a settings file is expected. *)
Lemma extract_allow_permissions_unreadable_witness :
  extract_allow_permissions ref_loads ["r"; "proj"] repaired_start =
    (Ret [], emit [EReadError ["r"; "proj"] OSError] repaired_start).
Proof.
  apply (extract_allow_permissions_unreadable ref_loads ["r"; "proj"] repaired_start).
  intros content H. vm_compute in H. discriminate H.
Defined.

(** X10 on a file that holds an empty list. *)
Lemma extract_allow_permissions_not_an_object_witness :
  extract_allow_permissions ref_loads (Examples.settings "list")
    (Examples.start Examples.odd_inputs) =
    (Ret [], emit [EReadError (Examples.settings "list") AttributeError]
               (Examples.start Examples.odd_inputs)).
Proof.
  apply (extract_allow_permissions_not_an_object ref_loads (Examples.settings "list")
           (Examples.start Examples.odd_inputs) "[]" (VList [])).
  - reflexivity.
  - vm_compute. reflexivity.
  - left. intros d H. discriminate H.
Defined.

(** X11 on a file whose [allow] is the string [ab]. *)
Lemma extract_allow_permissions_string_witness :
  extract_allow_permissions ref_loads (Examples.settings "string")
    (Examples.start Examples.odd_inputs) =
    (Ret (set_of_list (chars "ab")), Examples.start Examples.odd_inputs) /\
  (forall p, In (AStr p) (set_of_list (chars "ab")) <->
             exists c, p = String c EmptyString /\
                       In c (list_ascii_of_string "ab")) /\
  forallb is_str (set_of_list (chars "ab")) = true.
Proof.
  apply (extract_allow_permissions_string ref_loads (Examples.settings "string")
           (Examples.start Examples.odd_inputs)
           (Reference.text "{'permissions': {'allow': 'ab'}}")
           [("permissions", VDict [("allow", VStr "ab")])]
           [("allow", VStr "ab")] "ab").
  - reflexivity.
  - vm_compute. reflexivity.
  - reflexivity.
  - reflexivity.
Defined.

(** X12 on a file whose [allow] list holds a list beside a string. *)
Lemma extract_allow_permissions_unhashable_witness :
  extract_allow_permissions ref_loads (Examples.settings "nested")
    (Examples.start Examples.odd_inputs) =
    (Ret [], emit [EReadError (Examples.settings "nested") TypeError]
               (Examples.start Examples.odd_inputs)).
Proof.
  apply (extract_allow_permissions_unhashable ref_loads (Examples.settings "nested")
           (Examples.start Examples.odd_inputs)
           (Reference.text "{'permissions': {'allow': ['Read(*.py)', ['x']]}}")
           [("permissions",
             VDict [("allow", VList [VStr "Read(*.py)"; VList [VStr "x"]])])]
           [("allow", VList [VStr "Read(*.py)"; VList [VStr "x"]])]
           (VList [VStr "Read(*.py)"; VList [VStr "x"]])).
  - reflexivity.
  - vm_compute. reflexivity.
  - reflexivity.
  - reflexivity.
  - right. right. right.
    exists [VStr "Read(*.py)"; VList [VStr "x"]], (VList [VStr "x"]).
    split; [reflexivity|]. split; [right; left; reflexivity | reflexivity].
Defined.

(** X14 on two files of the concrete tree, in both orders. *)
Lemma merge_permissions_order_witness :
  (exists evs evs',
      merge_permissions ref_loads
        [Examples.settings "proj-old"; Examples.settings "proj"]
        Examples.root repaired_start =
        (Ret (merged_of ref_loads (fs repaired_start)
                [Examples.settings "proj-old"; Examples.settings "proj"] []),
         emit evs repaired_start) /\
      merge_permissions ref_loads
        [Examples.settings "proj"; Examples.settings "proj-old"]
        Examples.root repaired_start =
        (Ret (merged_of ref_loads (fs repaired_start)
                [Examples.settings "proj"; Examples.settings "proj-old"] []),
         emit evs' repaired_start)) /\
  (forall a,
      set_mem a (merged_of ref_loads (fs repaired_start)
                   [Examples.settings "proj-old"; Examples.settings "proj"] [])
      = true <->
      set_mem a (merged_of ref_loads (fs repaired_start)
                   [Examples.settings "proj"; Examples.settings "proj-old"] [])
      = true) /\
  List.length (merged_of ref_loads (fs repaired_start)
                 [Examples.settings "proj-old"; Examples.settings "proj"] []) =
  List.length (merged_of ref_loads (fs repaired_start)
                 [Examples.settings "proj"; Examples.settings "proj-old"] []) /\
  (forall es ea,
      NoDup (keys ea) -> forallb is_str ea = true ->
      forallb is_str
        (merged_of ref_loads (fs repaired_start)
           [Examples.settings "proj-old"; Examples.settings "proj"] []) = true ->
      merged_document es ea
        (merged_of ref_loads (fs repaired_start)
           [Examples.settings "proj-old"; Examples.settings "proj"] []) =
      merged_document es ea
        (merged_of ref_loads (fs repaired_start)
           [Examples.settings "proj"; Examples.settings "proj-old"] [])).
Proof.
  apply (merge_permissions_order ref_loads Examples.root
           [Examples.settings "proj-old"; Examples.settings "proj"]
           [Examples.settings "proj"; Examples.settings "proj-old"]
           repaired_start).
  apply perm_swap.
Defined.

(** X15 on the output file with trailing commas: one permission was
    there, two are new, three in all. *)
Lemma update_settings_file_counts_witness :
  List.length (allow_before ref_loads (fs repaired_start) Examples.output) = 1 /\
  exists evs,
    let existing :=
      List.length (allow_before ref_loads (fs repaired_start) Examples.output) in
    let added :=
      List.length
        (filter (fun x => negb (set_mem x (allow_before ref_loads (fs repaired_start)
                                             Examples.output)))
                Examples.new_permissions) in
    out (snd update_run) =
    out repaired_start ++ evs ++
    [match added with O => ENoNew | S _ => EAdded added end;
     EUpdated Examples.output;
     ETotal (existing + added)].
Proof.
  split; [vm_compute; reflexivity|].
  apply (update_settings_file_counts ref_loads ref_dumps Examples.output
           Examples.new_permissions repaired_start (snd update_run)).
  - vm_compute. reflexivity.
  - vm_compute. constructor.
    + intros [H|[]]. discriminate H.
    + constructor; [intros [] | constructor].
Defined.

(** X17 on a list with a comma and a space before its bracket. *)
Lemma re_sub_trailing_commas_first_comma_witness :
  re_sub_trailing_commas "[1" = "[1"%string /\
  re_sub_trailing_commas ("[1" ++ String "," (" " ++ String "]" ""))
  = ("[1" ++ String "]" (re_sub_trailing_commas ""))%string.
Proof.
  apply (re_sub_trailing_commas_first_comma "[1" " " "" "]").
  - intros [H|[H|[]]]; discriminate H.
  - reflexivity.
  - reflexivity.
Defined.

(** X18 on the concrete tree, with the verbose flag. *)
Lemma main_verbose_lists_sorted_witness :
  StronglySorted asc [AStr "Read(*.py)"; AStr "Write(*.md)"] /\
  Permutation
    (merged_of ref_loads (fs repaired_start)
       (discovered (fs repaired_start) Examples.root) [])
    [AStr "Read(*.py)"; AStr "Write(*.md)"] /\
  exists before after,
    out (snd (main ref_loads ref_dumps Examples.root Examples.output true
                repaired_start)) =
    out repaired_start ++ before ++
    [ETotalFound
       (List.length (merged_of ref_loads (fs repaired_start)
                       (discovered (fs repaired_start) Examples.root) []));
     EListHeader] ++
    map EItem [AStr "Read(*.py)"; AStr "Write(*.md)"] ++ after.
Proof.
  apply (main_verbose_lists_sorted ref_loads ref_dumps Examples.root Examples.output
           repaired_start [AStr "Read(*.py)"; AStr "Write(*.md)"]).
  - reflexivity.
  - intro H. vm_compute in H. discriminate H.
  - vm_compute. reflexivity.
Defined.

(** X19 on an output file in order: five lines are printed. *)
Lemma update_settings_file_reads_allow_witness :
  allow_before ref_loads (fs (Examples.start (Examples.world_with Examples.in_order)))
    Examples.output = set_of_list [AStr "Bash(ls)"] /\
  exists r s' rest,
    update_settings_file ref_loads ref_dumps Examples.output
      Examples.new_permissions
      (Examples.start (Examples.world_with Examples.in_order)) = (r, s') /\
    out s' = out (Examples.start (Examples.world_with Examples.in_order)) ++
             [EReading Examples.output;
              EExisting (List.length (set_of_list [AStr "Bash(ls)"]))] ++ rest /\
    ((r = Ret tt /\
      rest = [match set_diff Examples.new_permissions
                      (set_of_list [AStr "Bash(ls)"]) with
              | [] => ENoNew
              | _ :: _ =>
                  EAdded (List.length
                            (set_diff Examples.new_permissions
                               (set_of_list [AStr "Bash(ls)"])))
              end;
              EUpdated Examples.output;
              ETotal (List.length (set_union (set_of_list [AStr "Bash(ls)"])
                                     Examples.new_permissions))])
     \/
     (r = Raise (SystemExit 1) /\ exists e, rest = [EWriteError e])).
Proof.
  apply (update_settings_file_reads_allow ref_loads ref_dumps Examples.output
           Examples.new_permissions
           (Examples.start (Examples.world_with Examples.in_order))
           Examples.in_order
           [("model", VStr "opus");
            ("permissions", VDict [("allow", VList [VStr "Bash(ls)"])])]
           [("allow", VList [VStr "Bash(ls)"])]
           [AStr "Bash(ls)"]).
  - reflexivity.
  - vm_compute. reflexivity.
  - reflexivity.
  - reflexivity.
Defined.
